(** * Hevy sync engine: a shallow embedding of [app/sync.py] and its helpers

    The development follows the Python sources module by module:
    - [Mappers]       : [app/mappers.py]      (pure row builders)
    - [Repo]          : [app/repo.py]         (the two SQL statements)
    - the effect monad: exceptions, the transactional store of [app/db.py],
                        the remote calls of [app/hevy_client.py]
    - [sync_exercise_templates] : [app/exercise_sync.py]
    - [sync_first_page]         : [app/sync.py]

    Python dictionaries with a fixed set of keys are records; a key that may
    be absent or [None] is an [option]; the three tables are finite maps keyed
    by their primary (or unique) key; a text is the byte string of its UTF-8
    encoding. *)

From Stdlib Require Import Ascii.
From stdpp Require Import gmap strings list fin_maps pretty.

Open Scope string_scope.
Open Scope list_scope.
Open Scope nat_scope.
Open Scope stdpp_scope.

(** ** Python values *)

(** Truthiness of an optional string: [None] and [""] are falsy. *)
Definition truthy (o : option string) : bool :=
  match o with
  | Some s => negb (String.eqb s "")
  | None => false
  end.

(** [a or b] on optional strings where [b] is a string. *)
Definition or_str (o : option string) (d : string) : string :=
  match o with
  | Some s => if String.eqb s "" then d else s
  | None => d
  end.

(** [a or b] where both sides are optional. *)
Definition or_opt (o1 o2 : option string) : option string :=
  if truthy o1 then o1 else o2.

(** [str(x)] as used by an f-string on an optional integer: [None] prints as
    the text [None], an integer in decimal. *)
Definition fmt_index (i : option Z) : string :=
  match i with
  | Some z => pretty z
  | None => "None"
  end.

(** A JSON number carried through unchanged (integer, or decimal
    [mantissa * 10^exponent]). *)
Inductive number :=
  | NInt (z : Z)
  | NDec (mantissa exponent : Z).

(** ** Remote payloads (the JSON shapes read by the code) *)

Record RemoteWorkout := {
  rw_id : option string;
  rw_title : option string;
  rw_description : option string;
  rw_notes : option string;
  rw_start_time : option string;
  rw_end_time : option string;
  rw_created_at : option string;
  rw_updated_at : option string
}.

Record RemoteSet := {
  rs_index : option Z;
  rs_type : option string;
  rs_weight_kg : option number;
  rs_reps : option number;
  rs_distance_meters : option number;
  rs_duration_seconds : option number;
  rs_rpe : option number;
  rs_custom_metric : option string
}.

Record RemoteExercise := {
  re_index : option Z;
  re_title : option string;
  re_sets : option (list RemoteSet)
}.

Record WorkoutDetail := {
  wd_exercises : option (list RemoteExercise)
}.

(** ** Rows *)

(** The dictionary built by [to_workout_row]. *)
Record WorkoutRow := {
  wr_id : option string;
  wr_title : string;
  wr_notes : string;
  wr_started_at : option string;
  wr_ended_at : option string;
  wr_created_at : option string;
  wr_updated_at : option string
}.

(** The dictionary built by [to_set_rows]; also the stored row. *)
Record SetRow := {
  sr_id : string;
  sr_workout_id : string;
  sr_exercise_index : option Z;
  sr_set_index : option Z;
  sr_exercise_title : string;
  sr_type : option string;
  sr_weight_kg : option number;
  sr_reps : option number;
  sr_distance_meters : option number;
  sr_duration_seconds : option number;
  sr_rpe : option number;
  sr_custom_metric : option string
}.

Module Mappers.

Definition to_workout_row (w : RemoteWorkout) : WorkoutRow :=
  let title := or_str (rw_title w) "Workout" in
  let notes := or_str (or_opt (rw_description w) (rw_notes w)) "" in
  {| wr_id := rw_id w;
     wr_title := title;
     wr_notes := notes;
     wr_started_at := rw_start_time w;
     wr_ended_at := rw_end_time w;
     wr_created_at := rw_created_at w;
     wr_updated_at := rw_updated_at w |}.

(** The f-string [f"{workout_id}:{ex_idx}:{s_idx}"]. *)
Definition set_id (workout_id : string) (ex_idx s_idx : option Z) : string :=
  workout_id +:+ ":" +:+ fmt_index ex_idx +:+ ":" +:+ fmt_index s_idx.

Definition set_row (workout_id : string) (ex_idx : option Z)
    (ex_title : string) (s : RemoteSet) : SetRow :=
  let s_idx := rs_index s in
  {| sr_id := set_id workout_id ex_idx s_idx;
     sr_workout_id := workout_id;
     sr_exercise_index := ex_idx;
     sr_set_index := s_idx;
     sr_exercise_title := ex_title;
     sr_type := rs_type s;
     sr_weight_kg := rs_weight_kg s;
     sr_reps := rs_reps s;
     sr_distance_meters := rs_distance_meters s;
     sr_duration_seconds := rs_duration_seconds s;
     sr_rpe := rs_rpe s;
     sr_custom_metric := rs_custom_metric s |}.

(** Rows of one exercise: the inner [for s in (ex.get("sets") or [])]. *)
Definition exercise_rows (workout_id : string) (ex : RemoteExercise)
    : list SetRow :=
  let ex_idx := re_index ex in
  let ex_title := or_str (re_title ex) "" in
  set_row workout_id ex_idx ex_title <$> default [] (re_sets ex).

(** The outer loop appends the rows of each exercise in order. *)
Definition to_set_rows (workout_id : string) (workout_detail : WorkoutDetail)
    : list SetRow :=
  mjoin (exercise_rows workout_id
           <$> default [] (wd_exercises workout_detail)).

End Mappers.


(** ** [app/repo.py] and the tables *)

(** One row of the [exercises] table (keyed by its unique title; the
    server-side [created_at] default is not part of the model). *)
Record ExerciseRow := {
  er_type : option string;
  er_primary_muscle_group : option string;
  er_secondary_muscle_group : option string
}.

(** The database: three tables, each keyed by its primary or unique key. *)
Record Db := {
  workouts : gmap string WorkoutRow;
  sets : gmap string SetRow;
  exercises : gmap string ExerciseRow
}.

Definition set_workouts (m : gmap string WorkoutRow) (d : Db) : Db :=
  {| workouts := m; sets := sets d; exercises := exercises d |}.
Definition set_sets (m : gmap string SetRow) (d : Db) : Db :=
  {| workouts := workouts d; sets := m; exercises := exercises d |}.
Definition set_exercises (m : gmap string ExerciseRow) (d : Db) : Db :=
  {| workouts := workouts d; sets := sets d; exercises := m |}.

Module Repo.

Definition _normalize_workout_params (wr : WorkoutRow) : WorkoutRow :=
  {| wr_id := wr_id wr;
     wr_title := or_str (Some (wr_title wr)) "Workout";
     wr_notes := or_str (Some (wr_notes wr)) "";
     wr_started_at := wr_started_at wr;
     wr_ended_at := wr_ended_at wr;
     wr_created_at := wr_created_at wr;
     wr_updated_at := wr_updated_at wr |}.

(** [UPSERT_WORKOUT_SQL]: insert, or on a conflicting id replace every
    other column.  [None] when the id parameter is NULL (the primary key
    rejects it). *)
Definition upsert_workout_sql (params : WorkoutRow)
    (t : gmap string WorkoutRow) : option (gmap string WorkoutRow) :=
  match wr_id params with
  | Some k => Some (<[k := params]> t)
  | None => None
  end.

(** [INSERT_SETS_SQL] for one row: [ON CONFLICT (id) DO NOTHING].  The
    row is kept as it was bound.  The columns of [app/models.py] are typed
    and PostgreSQL rounds or rejects a value that does not fit its column;
    a statement that reads a newly inserted row back therefore assumes
    [fits_columns] of the rows bound. *)
Definition insert_set_sql (t : gmap string SetRow) (r : SetRow)
    : gmap string SetRow :=
  match t !! sr_id r with
  | Some _ => t
  | None => <[sr_id r := r]> t
  end.

(** The statement executed with a list of parameter rows. *)
Definition insert_sets_sql (rows : list SetRow) (t : gmap string SetRow)
    : gmap string SetRow :=
  foldl insert_set_sql t rows.

End Repo.

(** [str.strip()].  A Python text is held as the bytes of its UTF-8
    encoding, and [strip] drops at both ends the characters for which
    [str.isspace] holds:
    - U+0009..U+000D, U+001C..U+001F and U+0020 (one byte each);
    - U+0085 and U+00A0 (bytes 194 133 and 194 160);
    - U+1680 (225 154 128), U+2000..U+200A (226 128 128..138),
      U+2028, U+2029 and U+202F (226 128 168, 169, 175),
      U+205F (226 129 159) and U+3000 (227 128 128). *)
Definition is_space (c : Ascii.ascii) : bool :=
  let n := Ascii.nat_of_ascii c in
  ((9 <=? n) && (n <=? 13)) || ((28 <=? n) && (n <=? 32)).

Definition is_space2 (a b : Ascii.ascii) : bool :=
  let a := Ascii.nat_of_ascii a in
  let b := Ascii.nat_of_ascii b in
  (a =? 194) && ((b =? 133) || (b =? 160)).

Definition is_space3 (a b c : Ascii.ascii) : bool :=
  let a := Ascii.nat_of_ascii a in
  let b := Ascii.nat_of_ascii b in
  let c := Ascii.nat_of_ascii c in
  ((a =? 225) && (b =? 154) && (c =? 128)) ||
  ((a =? 226) && (b =? 128) &&
   (((128 <=? c) && (c <=? 138)) || (c =? 168) || (c =? 169) || (c =? 175))) ||
  ((a =? 226) && (b =? 129) && (c =? 159)) ||
  ((a =? 227) && (b =? 128) && (c =? 128)).

(** [str.lstrip()] *)
Fixpoint lstrip (s : string) : string :=
  match s with
  | String a s1 =>
      if is_space a then lstrip s1
      else
        match s1 with
        | String b s2 =>
            if is_space2 a b then lstrip s2
            else
              match s2 with
              | String c s3 => if is_space3 a b c then lstrip s3 else s
              | EmptyString => s
              end
        | EmptyString => s
        end
  | EmptyString => EmptyString
  end.

(** [str.rstrip()]: the text up to the point from which only white space
    follows.  (A suffix that starts in the middle of a character starts
    with a continuation byte, which begins none of the patterns above.) *)
Fixpoint rstrip (s : string) : string :=
  match s with
  | String a s' =>
      if String.eqb (lstrip s) "" then EmptyString else String a (rstrip s')
  | EmptyString => EmptyString
  end.

Definition strip (s : string) : string := rstrip (lstrip s).

(** ** Effects: exceptions, the transactional store, the remote source *)

Record exn := Exn { exn_class : string; exn_msg : string }.

(** A template of the exercise catalogue; [Absent] and [Null] are kept apart
    because [dict.get(key, default)] treats them differently. *)
Inductive field (A : Type) :=
  | Absent
  | Null
  | Val (a : A).
Arguments Absent {A}.
Arguments Null {A}.
Arguments Val {A} a.

Record Template := {
  t_title : field string;
  t_type : option string;
  t_primary_muscle_group : field string;
  t_secondary_muscle_groups : field (list string)
}.

(** Requests sent to the remote API, in the order they are issued. *)
Inductive Request :=
  | ReqListWorkouts (page page_size : nat)
  | ReqGetWorkout (workout_id : string)
  | ReqListTemplates (page page_size : nat).

(** The environment of one run: what the remote answers to each request
    ([inl] is a raised exception), and which interaction with the database
    fails (the n-th one raises when [db_fault n] is an exception).  The
    answer of [list_workouts] is the list read by [raw.get("workouts", [])]
    (a missing list is the empty one), that of [list_exercise_templates]
    the list read by [response.get('exercise_templates', [])]; workout ids
    are JSON strings, on which [str] is the identity. *)
Record Env := {
  list_workouts : nat -> nat -> exn + list RemoteWorkout;
  get_workout : string -> exn + WorkoutDetail;
  list_exercise_templates : nat -> nat -> exn + list Template;
  db_fault : nat -> option exn
}.

(** The local variables of [sync_first_page] that are assigned inside a
    [try] block: an exception does not undo their updates, so they live in
    the state. *)
Record Counters := {
  seen : nat;
  upserted : nat;
  sets_total : nat
}.

Record World := {
  db : Db;
  log : list Request;
  clock : nat;
  frame : Counters
}.

Definition set_db (d : Db) (w : World) : World :=
  {| db := d; log := log w; clock := clock w; frame := frame w |}.
Definition add_log (r : Request) (w : World) : World :=
  {| db := db w; log := log w ++ [r]; clock := clock w; frame := frame w |}.
Definition tick (w : World) : World :=
  {| db := db w; log := log w; clock := S (clock w); frame := frame w |}.
Definition set_frame (c : Counters) (w : World) : World :=
  {| db := db w; log := log w; clock := clock w; frame := c |}.

(** The result of running a piece of code: it returns, it raises, or the
    loop budget of the model ran out (the code is still looping). *)
Inductive outcome (A : Type) :=
  | Returns (a : A) (w : World)
  | Raises (e : exn) (w : World)
  | OutOfFuel.
Arguments Returns {A} a w.
Arguments Raises {A} e w.
Arguments OutOfFuel {A}.

Definition M (A : Type) : Type := World -> outcome A.

Definition ret {A} (a : A) : M A := fun w => Returns a w.
Definition raise {A} (e : exn) : M A := fun w => Raises e w.
Definition out_of_fuel {A} : M A := fun _ => OutOfFuel.

Definition bind {A B} (m : M A) (f : A -> M B) : M B :=
  fun w =>
    match m w with
    | Returns a w' => f a w'
    | Raises e w' => Raises e w'
    | OutOfFuel => OutOfFuel
    end.

(** [try: m  except Exception as e: h e] *)
Definition try_except {A} (m : M A) (h : exn -> M A) : M A :=
  fun w =>
    match m w with
    | Raises e w' => h e w'
    | o => o
    end.

Notation "x <~ c ;; k" := (bind c (fun x => k))
  (at level 100, c at next level, right associativity).
Notation "c ;;; k" := (bind c (fun _ => k))
  (at level 100, right associativity).

(** [for x in l: body x] *)
Fixpoint for_each {A} (body : A -> M unit) (l : list A) : M unit :=
  match l with
  | [] => ret tt
  | x :: l' => body x ;;; for_each body l'
  end.

Definition modify_frame (f : Counters -> Counters) : M unit :=
  fun w => Returns tt (set_frame (f (frame w)) w).
Definition get_frame : M Counters := fun w => Returns (frame w) w.

(** How a loop body ends: [break] or falling through to the next round. *)
Inductive step (A : Type) :=
  | Break (a : A)
  | Continue (a : A).
Arguments Break {A} a.
Arguments Continue {A} a.

Section WithEnv.

Variable env : Env.

(** *** [app/db.py] *)

(** One interaction with the database: it raises when the environment
    says so, and otherwise runs [f] on the tables ([f] itself may reject
    the statement).  A statement that raises leaves the tables as they
    were.  Which interactions fail is left to the environment: a
    PostgreSQL transaction refuses every statement after a failed one, and
    the statements below that speak of the rows a transaction commits are
    about transactions in which no statement raised. *)
Definition db_exec {A} (f : Db -> option (A * Db)) : M A :=
  fun w =>
    match db_fault env (clock w) with
    | Some e => Raises e (tick w)
    | None =>
        match f (db w) with
        | Some (a, d) => Returns a (tick (set_db d w))
        | None =>
            Raises (Exn "IntegrityError" "null value in column id") (tick w)
        end
    end.

(** [with get_db() as db: body]: [engine.begin()] opens a transaction,
    commits when the body finishes and rolls back when an exception
    escapes. *)
Definition get_db {A} (body : M A) : M A :=
  fun w =>
    let snapshot := db w in
    match (db_exec (fun d => Some (tt, d)) ;;;
           r <~ body ;;
           db_exec (fun d => Some (tt, d)) ;;;
           ret r) w with
    | Raises e w' => Raises e (set_db snapshot w')
    | o => o
    end.

(** *** [app/hevy_client.py] *)

Definition remote_call {A} (r : Request) (answer : exn + A) : M A :=
  fun w =>
    match answer with
    | inr a => Returns a (add_log r w)
    | inl e => Raises e (add_log r w)
    end.

Definition call_list_workouts (page page_size : nat)
    : M (list RemoteWorkout) :=
  remote_call (ReqListWorkouts page page_size)
              (list_workouts env page page_size).

Definition call_get_workout (workout_id : string) : M WorkoutDetail :=
  remote_call (ReqGetWorkout workout_id) (get_workout env workout_id).

Definition call_list_exercise_templates (page page_size : nat)
    : M (list Template) :=
  remote_call (ReqListTemplates page page_size)
              (list_exercise_templates env page page_size).

(** *** [app/repo.py], executed on a connection *)

Definition upsert_workout (wr : WorkoutRow) : M unit :=
  let params := Repo._normalize_workout_params wr in
  db_exec (fun d =>
    t ← Repo.upsert_workout_sql params (workouts d);
    Some (tt, set_workouts t d)).

Definition insert_sets_bulk (rows : list SetRow) : M nat :=
  match rows with
  | [] => ret 0
  | _ =>
      db_exec (fun d =>
        Some (tt, set_sets (Repo.insert_sets_sql rows (sets d)) d)) ;;;
      ret (length rows)
  end.

(** *** [app/exercise_sync.py] *)

Record ExerciseSync := {
  es_status : string;
  es_imported_count : nat;
  es_total_templates : nat;
  es_message : string
}.

(** The pagination loop of [sync_exercise_templates].  One round of the
    [while True] per unit of [fuel]. *)
Fixpoint fetch_templates (fuel page : nat) (all_templates : list Template)
    : M (list Template) :=
  match fuel with
  | 0 => out_of_fuel
  | S fuel' =>
      st <~ try_except
              (templates <~ call_list_exercise_templates page 100 ;;
               match templates with
               | [] => ret (Break all_templates)
               | _ =>
                   let all_templates := all_templates ++ templates in
                   let page := page + 1 in
                   if 100 <? page then ret (Break all_templates)
                   else ret (Continue all_templates)
               end)
              (fun _ => ret (Break all_templates)) ;;
      match st with
      | Break a => ret a
      | Continue a => fetch_templates fuel' (page + 1) a
      end
  end.

(** The secondary muscle groups column: the list joined with [", "];
    a JSON null is falsy and not a list, which gives [None]. *)
Definition secondary_muscle_group (f : field (list string))
    : option string :=
  match f with
  | Absent => Some (String.concat ", " [])
  | Val l => Some (String.concat ", " l)
  | Null => None
  end.

(** [template.get('primary_muscle_group', '')] *)
Definition primary_muscle (f : field string) : option string :=
  match f with
  | Absent => Some ""
  | Val s => Some s
  | Null => None
  end.

(** The body of [for template in all_templates]; the counter is the
    local [imported_count]. *)
Definition import_template (imported_count : nat) (template : Template)
    : M nat :=
  match t_title template with
  | Null =>
      raise (Exn "AttributeError"
                 "'NoneType' object has no attribute 'strip'")
  | f =>
      let exercise_title :=
        strip (match f with Val s => s | _ => "" end) in
      if String.eqb exercise_title "" then ret imported_count
      else
        let row :=
          {| er_type := t_type template;
             er_primary_muscle_group :=
               primary_muscle (t_primary_muscle_group template);
             er_secondary_muscle_group :=
               secondary_muscle_group (t_secondary_muscle_groups template)
          |} in
        db_exec (fun d =>
          Some (tt, set_exercises (<[exercise_title := row]> (exercises d))
                                  d)) ;;;
        ret (imported_count + 1)
  end.

Fixpoint import_templates (imported_count : nat) (l : list Template)
    : M nat :=
  match l with
  | [] => ret imported_count
  | template :: l' =>
      n <~ import_template imported_count template ;;
      import_templates n l'
  end.

Definition no_templates_result : ExerciseSync :=
  {| es_status := "error";
     es_message := "No exercise templates found in Hevy API";
     es_imported_count := 0;
     es_total_templates := 0 |}.

Definition sync_exercise_templates : M ExerciseSync :=
  try_except
    (all_templates <~ fetch_templates 100 1 [] ;;
     match all_templates with
     | [] => ret no_templates_result
     | _ =>
         imported_count <~
           get_db
             (db_exec (fun d => Some (tt, set_exercises ∅ d)) ;;;
              import_templates 0 all_templates) ;;
         ret {| es_status := "success";
                es_imported_count := imported_count;
                es_total_templates := length all_templates;
                es_message :=
                  "Successfully imported " +:+ pretty imported_count
                  +:+ " exercise templates from Hevy API" |}
     end)
    (fun e =>
       ret {| es_status := "error";
              es_message := "Sync failed: " +:+ exn_msg e;
              es_imported_count := 0;
              es_total_templates := 0 |}).

(** *** [app/sync.py] *)

Record Summary := {
  sync_type : string;
  workouts_seen : nat;
  workouts_upserted : nat;
  sets_inserted : nat;
  workouts_deleted : nat;
  total_hevy_workouts : nat;
  total_local_before : nat;
  exercise_sync : ExerciseSync
}.

(** [{w.get("id") for w in workouts if w.get("id")}] *)
Definition page_ids (workouts : list RemoteWorkout) : gset string :=
  list_to_set
    (omap (fun w => if truthy (rw_id w) then rw_id w else None) workouts).

Definition fetch_page_size : nat := 10.

(** Step 1: the loop collecting [hevy_workout_ids]. *)
Fixpoint enumerate_ids (fuel current_page : nat)
    (hevy_workout_ids : gset string) : M (gset string) :=
  match fuel with
  | 0 => out_of_fuel
  | S fuel' =>
      st <~ try_except
              (workouts <~
                 call_list_workouts current_page fetch_page_size ;;
               match workouts with
               | [] => ret (Break hevy_workout_ids)
               | _ =>
                   let ids := hevy_workout_ids ∪ page_ids workouts in
                   if length workouts <? fetch_page_size
                   then ret (Break ids)
                   else ret (Continue ids)
               end)
              (fun _ => ret (Break hevy_workout_ids)) ;;
      match st with
      | Break ids => ret ids
      | Continue ids => enumerate_ids fuel' (current_page + 1) ids
      end
  end.

(** [DELETE FROM sets WHERE workout_id = ANY(ids)] *)
Definition delete_sets_of (ids : gset string) (d : Db) : Db :=
  set_sets (filter (fun kr => sr_workout_id kr.2 ∉ ids) (sets d)) d.

(** [DELETE FROM workouts WHERE id = ANY(ids)] *)
Definition delete_workouts (ids : gset string) (d : Db) : Db :=
  set_workouts (filter (fun kr => kr.1 ∉ ids) (workouts d)) d.

(** Step 2: the deletion block.  Returns [workouts_deleted] and
    [local_workout_ids]. *)
Definition reconcile (hevy_workout_ids : gset string)
    : M (nat * gset string) :=
  get_db
    (local_workout_ids <~ db_exec (fun d => Some (dom (workouts d), d)) ;;
     let workouts_to_delete := local_workout_ids ∖ hevy_workout_ids in
     if decide (workouts_to_delete = ∅)
     then ret (0, local_workout_ids)
     else
       db_exec (fun d => Some (tt, delete_sets_of workouts_to_delete d)) ;;;
       db_exec (fun d => Some (tt, delete_workouts workouts_to_delete d)) ;;;
       ret (size workouts_to_delete, local_workout_ids)).

Definition incr_seen : M unit :=
  modify_frame (fun c =>
    {| seen := seen c + 1; upserted := upserted c;
       sets_total := sets_total c |}).
Definition incr_upserted : M unit :=
  modify_frame (fun c =>
    {| seen := seen c; upserted := upserted c + 1;
       sets_total := sets_total c |}).
Definition add_sets_total (n : nat) : M unit :=
  modify_frame (fun c =>
    {| seen := seen c; upserted := upserted c;
       sets_total := sets_total c + n |}).

(** The body of [for w in workouts].  The mappers are total here (the
    payload is typed), so their [except] branches have nothing to catch;
    each [continue] is the end of the body. *)
Definition process_workout (w : RemoteWorkout) : M unit :=
  incr_seen ;;;
  let wr := Mappers.to_workout_row w in
  match wr_id wr with
  | Some workout_id =>
      if negb (truthy (Some workout_id)) then ret tt
      else
        ok <~ try_except
                (upsert_workout wr ;;; incr_upserted ;;; ret true)
                (fun _ => ret false) ;;
        if negb ok then ret tt
        else
          detail <~ try_except
                      (d <~ call_get_workout workout_id ;; ret (Some d))
                      (fun _ => ret None) ;;
          match detail with
          | None => ret tt
          | Some detail =>
              try_except
                (let set_rows := Mappers.to_set_rows workout_id detail in
                 match set_rows with
                 | [] => ret tt
                 | _ =>
                     insert_sets_bulk set_rows ;;;
                     add_sets_total (length set_rows)
                 end)
                (fun _ => ret tt)
          end
  | None => ret tt
  end.

(** Step 3: the second pagination loop. *)
Fixpoint upsert_pages (fuel current_page : nat) : M unit :=
  match fuel with
  | 0 => out_of_fuel
  | S fuel' =>
      st <~ try_except
              (workouts <~ call_list_workouts current_page 10 ;;
               match workouts with
               | [] => ret (Break tt)
               | _ =>
                   get_db (for_each process_workout workouts) ;;;
                   ret (Continue tt)
               end)
              (fun _ => ret (Break tt)) ;;
      match st with
      | Break _ => ret tt
      | Continue _ => upsert_pages fuel' (current_page + 1)
      end
  end.

Definition zero_counters : Counters :=
  {| seen := 0; upserted := 0; sets_total := 0 |}.

(** Steps 3 and 4: the upsert pass, the catalogue sync, the summary. *)
Definition sync_after_deletion (fuel : nat)
    (hevy_workout_ids : gset string) (workouts_deleted : nat)
    (local_workout_ids : gset string) : M Summary :=
  modify_frame (fun _ => zero_counters) ;;;
  upsert_pages fuel 1 ;;;
  exercise_sync_result <~ sync_exercise_templates ;;
  c <~ get_frame ;;
  ret {| sync_type := "unified_with_deletion";
         workouts_seen := seen c;
         workouts_upserted := upserted c;
         sets_inserted := sets_total c;
         workouts_deleted := workouts_deleted;
         total_hevy_workouts := size hevy_workout_ids;
         total_local_before := size local_workout_ids;
         exercise_sync := exercise_sync_result |}.

(** Steps 2 to 4, from the collected remote ids to the summary. *)
Definition sync_after_enumeration (fuel : nat)
    (hevy_workout_ids : gset string) : M Summary :=
  del <~ reconcile hevy_workout_ids ;;
  sync_after_deletion fuel hevy_workout_ids del.1 del.2.

(** The entry point.  [fuel] bounds the rounds of each [while True]. *)
Definition sync_first_page (page page_size : nat) (fuel : nat)
    : M Summary :=
  hevy_workout_ids <~ enumerate_ids fuel 1 ∅ ;;
  sync_after_enumeration fuel hevy_workout_ids.

End WithEnv.

Arguments db_exec env {A} f w.
Arguments get_db env {A} body w.

(** ** [app/main.py]: the endpoints next to the sync *)

(** [HTTPException(status_code=..., detail=...)]; the status code is kept
    in the class name. *)
Definition HTTPException (status_code : nat) (detail : string) : exn :=
  Exn ("HTTPException " +:+ pretty status_code) detail.

(** [POST /sync/hevy].  The traceback printed by the handler goes to the
    error stream, which is not part of the state. *)
Definition sync_hevy (env : Env) (page page_size : nat) (fuel : nat)
    : M Summary :=
  try_except
    (result <~ sync_first_page env page page_size fuel ;; ret result)
    (fun e => raise (HTTPException 500 (exn_msg e))).

(** The dictionary returned by [GET /_counts]. *)
Record Counts := {
  count_workouts : nat;
  count_sets : nat
}.

Definition counts (env : Env) : M Counts :=
  c <~ get_db env
         (wc <~ db_exec env (fun d => Some (size (workouts d), d)) ;;
          sc <~ db_exec env (fun d => Some (size (sets d), d)) ;;
          ret (wc, sc)) ;;
  ret {| count_workouts := c.1; count_sets := c.2 |}.

(** ** [app/hevy_client.py]: the base address *)

(** [s.rstrip("/")]: drop every slash at the end. *)
Fixpoint rstrip_slash (s : string) : string :=
  match s with
  | EmptyString => EmptyString
  | String c s' =>
      match rstrip_slash s' with
      | EmptyString =>
          if Ascii.eqb c "/" then EmptyString else String c EmptyString
      | r => String c r
      end
  end.

(** [s.endswith(suffix)] *)
Fixpoint endswith (s suffix : string) : bool :=
  String.eqb s suffix ||
  match s with
  | EmptyString => false
  | String _ s' => endswith s' suffix
  end.

(** The module-level [BASE], from the value of [HEVY_API_BASE] ([None]
    when the variable is not set). *)
Definition BASE (hevy_api_base : option string) : string :=
  let base :=
    rstrip_slash (default "https://api.hevyapp.com/v1" hevy_api_base) in
  if negb (endswith base "/v1") then rstrip_slash base +:+ "/v1" else base.


(** * Vocabulary of the statements

    Predicates and closed forms used to state what the code does: the
    invariants kept under failures, the pages and ids a traversal sees, the
    effect of the loop bodies on the tables. *)

(** The page sizes the code asks for: 10 workouts, 100 templates. *)
Definition wellformed_request (r : Request) : Prop :=
  match r with
  | ReqListWorkouts _ sz => sz = 10
  | ReqGetWorkout _ => True
  | ReqListTemplates _ sz => sz = 100
  end.

(** [J] holds of the tables and [L] of the request log. *)
Definition holds (J : Db -> Prop) (L : list Request -> Prop) (w : World)
    : Prop :=
  J (db w) /\ L (log w).

(** [m] keeps [J] and [L], whether it returns or raises. *)
Definition keeps (J : Db -> Prop) (L : list Request -> Prop) {A} (m : M A)
    : Prop :=
  forall w, holds J L w ->
    match m w with
    | Returns _ w' => holds J L w'
    | Raises _ w' => holds J L w'
    | OutOfFuel => True
    end.

(** A workout summary that some page of the remote listing contains. *)
Definition served (env : Env) (w : RemoteWorkout) : Prop :=
  exists page ws, list_workouts env page 10 = inr ws /\ w ∈ ws.

(** The world after the requests [l] were sent. *)
Definition add_logs (l : list Request) (w : World) : World :=
  {| db := db w; log := log w ++ l; clock := clock w; frame := frame w |}.

(** The requests for [n] consecutive pages starting at [page]. *)
Definition list_reqs (page n : nat) : list Request :=
  (fun p => ReqListWorkouts p 10) <$> seq page n.

(** The ids the loop collects and the number of pages it requests; [None]
    when [fuel] rounds do not reach the end of the loop. *)
Fixpoint enum_from (env : Env) (fuel page : nat) (ids : gset string)
    : option (gset string * nat) :=
  match fuel with
  | 0 => None
  | S fuel' =>
      match list_workouts env page 10 with
      | inl _ => Some (ids, 1)
      | inr [] => Some (ids, 1)
      | inr ws =>
          if length ws <? 10 then Some (ids ∪ page_ids ws, 1)
          else
            match enum_from env fuel' (page + 1) (ids ∪ page_ids ws) with
            | Some (E, n) => Some (E, S n)
            | None => None
            end
      end
  end.

(** What the two [DELETE] statements leave. *)
Definition purge (ids : gset string) (d : Db) : Db :=
  delete_workouts ids (delete_sets_of ids d).

Definition rows_map (rows : list SetRow) : gmap string SetRow :=
  list_to_map ((fun r => (sr_id r, r)) <$> rows).

(** The state in which a run stopped, when it did. *)
Definition final_world {A} (o : outcome A) : option World :=
  match o with
  | Returns _ w => Some w
  | Raises _ w => Some w
  | OutOfFuel => None
  end.

(** A page with at least as many workouts as were asked for. *)
Definition full_page (env : Env) (page : nat) : Prop :=
  match list_workouts env page 10 with
  | inr ws => 10 <= length ws
  | inl _ => False
  end.

Definition page_fails (env : Env) (page : nat) : Prop :=
  match list_workouts env page 10 with
  | inr _ => False
  | inl _ => True
  end.

(** The truthy ids on the [n] pages starting at [page]. *)
Fixpoint ids_of_pages (env : Env) (page n : nat) : gset string :=
  match n with
  | 0 => ∅
  | S n' =>
      match list_workouts env page 10 with
      | inr ws => page_ids ws
      | inl _ => ∅
      end ∪ ids_of_pages env (page + 1) n'
  end.

(** Workout [a] is gone together with its sets. *)
Definition absent (a : string) (d : Db) : Prop :=
  (a ∉ dom (workouts d)) /\
  forall k r, sets d !! k = Some r -> sr_workout_id r <> a.

(** [halts m]: [m] contains no unbounded loop. *)
Definition halts {A} (m : M A) : Prop := forall w, m w <> OutOfFuel.

(** [quiet m]: no exception leaves [m]. *)
Definition quiet {A} (m : M A) : Prop := forall w e w', m w <> Raises e w'.

(** A page that ends a pagination loop: empty, or failing. *)
Definition ends_at (env : Env) (page : nat) : Prop :=
  match list_workouts env page 10 with
  | inr (_ :: _) => False
  | _ => True
  end.

(** The workout listing ends within [fuel] pages after [page]. *)
Definition listing_ends (env : Env) (page fuel : nat) : Prop :=
  exists p, page <= p < page + fuel /\ ends_at env p.

(** The template pagination accumulates nothing: its first page is empty
    or fails. *)
Definition no_templates (env : Env) : Prop :=
  match list_exercise_templates env 1 100 with
  | inr (_ :: _) => False
  | _ => True
  end.

Definition reliable (env : Env) : Prop := forall n, db_fault env n = None.

(** What the body of the upsert loop does to the tables when the store
    does not fail. *)
Definition apply_workout (env : Env) (d : Db) (w : RemoteWorkout) : Db :=
  match rw_id w with
  | Some id =>
      if truthy (Some id) then
        let d1 :=
          set_workouts
            (<[id := Repo._normalize_workout_params
                       (Mappers.to_workout_row w)]> (workouts d)) d in
        match get_workout env id with
        | inr detail =>
            set_sets
              (Repo.insert_sets_sql (Mappers.to_set_rows id detail) (sets d1))
              d1
        | inl _ => d1
        end
      else d
  | None => d
  end.

(** The rows handed to [insert_sets_bulk] for one workout. *)
Definition submitted_rows (env : Env) (w : RemoteWorkout) : list SetRow :=
  match rw_id w with
  | Some id =>
      if truthy (Some id) then
        match get_workout env id with
        | inr detail => Mappers.to_set_rows id detail
        | inl _ => []
        end
      else []
  | None => []
  end.

(** ... and to the counters. *)
Definition count_workout (env : Env) (c : Counters) (w : RemoteWorkout)
    : Counters :=
  {| seen := seen c + 1;
     upserted := upserted c + (if truthy (rw_id w) then 1 else 0);
     sets_total := sets_total c + length (submitted_rows env w) |}.

(** [acts m F G]: [m] returns, having applied [F] to the tables and [G] to
    the counters. *)
Definition acts (m : M unit) (F : Db -> Db) (G : Counters -> Counters)
    : Prop :=
  forall w, exists w',
    m w = Returns tt w' /\ db w' = F (db w) /\ frame w' = G (frame w).

(** The workouts the upsert loop goes through: the pages from [page] up to
    the first empty or failing one. *)
Fixpoint pages_from (env : Env) (fuel page : nat)
    : option (list RemoteWorkout) :=
  match fuel with
  | 0 => None
  | S fuel' =>
      match list_workouts env page 10 with
      | inr (x :: ws) =>
          match pages_from env fuel' (page + 1) with
          | Some rest => Some ((x :: ws) ++ rest)
          | None => None
          end
      | _ => Some []
      end
  end.

(** The (id, row) pairs written by [upsert_workout], in order. *)
Definition upserts (all : list RemoteWorkout) : list (string * WorkoutRow) :=
  omap (fun w =>
          match rw_id w with
          | Some id =>
              if truthy (Some id)
              then Some (id, Repo._normalize_workout_params
                               (Mappers.to_workout_row w))
              else None
          | None => None
          end) all.

(** Every row handed to [insert_sets_bulk], in order. *)
Definition submitted (env : Env) (all : list RemoteWorkout) : list SetRow :=
  all ≫= submitted_rows env.

Definition same_frame {A} (m : M A) : Prop :=
  forall w,
    match m w with
    | Returns _ w' => frame w' = frame w
    | Raises _ w' => frame w' = frame w
    | OutOfFuel => True
    end.

(** The pagination contract of the remote: a page shorter than the page
    size is the last one (the next page is empty or fails). *)
Definition paginated (env : Env) : Prop :=
  forall page x ws,
    list_workouts env page 10 = inr (x :: ws) ->
    length (x :: ws) < 10 ->
    ends_at env (page + 1).

(** The character [c] does not occur in [s]. *)
Fixpoint avoids (c : Ascii.ascii) (s : string) : bool :=
  match s with
  | EmptyString => true
  | String c' s' => negb (Ascii.eqb c' c) && avoids c s'
  end.

(** The pair of indices of each set of a detail, in the order of the
    payload. *)
Definition index_pairs (d : WorkoutDetail) : list (option Z * option Z) :=
  default [] (wd_exercises d) ≫=
    (fun ex => (fun s => (re_index ex, rs_index s)) <$> default [] (re_sets ex)).

(** The requests for [n] consecutive template pages starting at [page]. *)
Definition template_reqs (page n : nat) : list Request :=
  (fun p => ReqListTemplates p 100) <$> seq page n.

(** The templates the catalogue loop accumulates and the number of pages
    it requests; [None] when [fuel] rounds do not reach the end of the
    loop. *)
Fixpoint templates_from (env : Env) (fuel page : nat) (acc : list Template)
    : option (list Template * nat) :=
  match fuel with
  | 0 => None
  | S fuel' =>
      match list_exercise_templates env page 100 with
      | inr (t :: ts) =>
          if 100 <? page + 1 then Some (acc ++ t :: ts, 1)
          else
            match templates_from env fuel' (page + 1) (acc ++ t :: ts) with
            | Some (a, n) => Some (a, S n)
            | None => None
            end
      | _ => Some (acc, 1)
      end
  end.

(** The row a template is imported as, under its stripped title; [None]
    for a template that the import skips (no title, or a blank one). *)
Definition template_entry (t : Template) : option (string * ExerciseRow) :=
  match t_title t with
  | Val s =>
      if String.eqb (strip s) "" then None
      else
        Some (strip s,
              {| er_type := t_type t;
                 er_primary_muscle_group :=
                   primary_muscle (t_primary_muscle_group t);
                 er_secondary_muscle_group :=
                   secondary_muscle_group (t_secondary_muscle_groups t) |})
  | _ => None
  end.

(** Upserting the entries in order: the last entry of a title stays. *)
Definition upsert_entries (m : gmap string ExerciseRow)
    (l : list (string * ExerciseRow)) : gmap string ExerciseRow :=
  foldl (fun m kv => <[kv.1 := kv.2]> m) m l.

(** The catalogue that an import of [l] leaves. *)
Definition catalog_of (l : list Template) : gmap string ExerciseRow :=
  upsert_entries ∅ (omap template_entry l).

(** Some template of [l] has a JSON null as its title. *)
Definition has_null_title (l : list Template) : Prop :=
  exists t, t ∈ l /\ t_title t = Null.

(** Every set row points to a stored workout. *)
Definition no_orphans (d : Db) : Prop :=
  forall k r, sets d !! k = Some r -> sr_workout_id r ∈ dom (workouts d).

(** ** The columns of [app/models.py]

    The tables are typed: PostgreSQL rejects a value that is out of the
    range of its column and rounds a number to the scale of a [Numeric]
    column.  The predicates below say that a value is held by its column
    exactly as it was bound. *)

(** The number of characters of a text: the bytes of its UTF-8 encoding
    that are not continuation bytes (128..191). *)
Fixpoint char_length (s : string) : nat :=
  match s with
  | EmptyString => 0
  | String c s' =>
      let n := Ascii.nat_of_ascii c in
      (if (128 <=? n) && (n <=? 191) then 0 else 1) + char_length s'
  end.

(** [String(n)]: at most [n] characters, none of them NUL. *)
Definition fits_string (n : nat) (s : string) : bool :=
  (char_length s <=? n) && avoids (Ascii.ascii_of_nat 0) s.

Definition fits_opt_string (n : nat) (o : option string) : bool :=
  match o with
  | Some s => fits_string n s
  | None => true
  end.

(** [Integer]: a 32-bit signed integer. *)
Definition in_int4 (z : Z) : bool :=
  ((-2147483648 <=? z) && (z <=? 2147483647))%Z.

Definition fits_index (o : option Z) : bool :=
  match o with
  | Some z => in_int4 z
  | None => true
  end.

(** A JSON number bound to an [Integer] column: it is an integer in
    range. *)
Definition fits_integer (o : option number) : bool :=
  match o with
  | Some (NInt z) => in_int4 z
  | Some (NDec _ _) => false
  | None => true
  end.

(** A JSON number bound to a [Numeric(p, s)] column: it has at most [s]
    decimals and, scaled by [10^s], fewer than [p] digits more. *)
Definition fits_numeric (p s : nat) (o : option number) : bool :=
  match o with
  | Some (NInt z) =>
      (Z.abs z * 10 ^ Z.of_nat s <? 10 ^ Z.of_nat p)%Z
  | Some (NDec m e) =>
      ((- Z.of_nat s <=? e) &&
       (Z.abs m * 10 ^ (e + Z.of_nat s) <? 10 ^ Z.of_nat p))%Z
  | None => true
  end.

(** A row that the [sets] table holds as it is given. *)
Definition fits_columns (r : SetRow) : bool :=
  fits_string 64 (sr_id r) &&
  fits_string 64 (sr_workout_id r) &&
  fits_index (sr_exercise_index r) &&
  fits_index (sr_set_index r) &&
  fits_string 200 (sr_exercise_title r) &&
  fits_opt_string 100 (sr_type r) &&
  fits_numeric 10 3 (sr_weight_kg r) &&
  fits_integer (sr_reps r) &&
  fits_numeric 10 3 (sr_distance_meters r) &&
  fits_integer (sr_duration_seconds r) &&
  fits_numeric 4 2 (sr_rpe r) &&
  fits_opt_string 200 (sr_custom_metric r).

(** A template whose imported row, if it has one, the [exercises] table
    holds as it is given. *)
Definition fits_exercises (t : Template) : bool :=
  match template_entry t with
  | Some (title, row) =>
      fits_string 200 title &&
      fits_opt_string 100 (er_type row) &&
      fits_opt_string 100 (er_primary_muscle_group row) &&
      fits_opt_string 100 (er_secondary_muscle_group row)
  | None => true
  end.

(** ** The deletion transaction *)

(** The interactions with the store made by the deletion block: opening
    the transaction, the [SELECT], the two [DELETE]s when there is
    something to delete, the commit. *)
Definition deletion_steps (workouts_to_delete : gset string) : nat :=
  if decide (workouts_to_delete = ∅) then 3 else 5.

(** The row written last under [id] by the upsert pass over [all]. *)
Definition last_upsert (all : list RemoteWorkout) (id : string)
    : option WorkoutRow :=
  snd <$> last (filter (fun kv => kv.1 = id) (upserts all)).

(** The first of the [n] store interactions from tick [c] on that fails,
    with its exception. *)
Fixpoint first_fault (env : Env) (c n : nat) : option (nat * exn) :=
  match n with
  | 0 => None
  | S n' =>
      match db_fault env c with
      | Some e => Some (c, e)
      | None => first_fault env (S c) n'
      end
  end.

(** * Fixtures for concrete runs *)

Definition workout (id : string) : RemoteWorkout :=
  {| rw_id := Some id; rw_title := Some ("Session " +:+ id);
     rw_description := None; rw_notes := None;
     rw_start_time := Some "2024-05-01T10:00:00Z";
     rw_end_time := Some "2024-05-01T11:00:00Z";
     rw_created_at := None; rw_updated_at := None |}.

Definition one_set (index : option Z) (reps : Z) : RemoteSet :=
  {| rs_index := index; rs_type := Some "normal"; rs_weight_kg := None;
     rs_reps := Some (NInt reps); rs_distance_meters := None;
     rs_duration_seconds := None; rs_rpe := None;
     rs_custom_metric := None |}.

(** Two exercises with one set each, [reps] repetitions. *)
Definition two_exercises (reps : Z) : WorkoutDetail :=
  {| wd_exercises :=
       Some [ {| re_index := Some 0%Z; re_title := Some "Squat";
                 re_sets := Some [one_set (Some 0%Z) reps] |};
              {| re_index := Some 1%Z; re_title := Some "Bench Press";
                 re_sets := Some [one_set (Some 0%Z) reps] |} ] |}.

(** An exercise without [index] holding a set without [index]. *)
Definition no_indices : WorkoutDetail :=
  {| wd_exercises :=
       Some [ {| re_index := None; re_title := None;
                 re_sets := Some [one_set None 8] |} ] |}.

(** A remote holding the workouts B, C and D on one short page; B has two
    sets of 5 repetitions, the others none; the template list is empty. *)
Definition env_bcd : Env :=
  {| list_workouts := fun page _ =>
       if decide (page = 1) then inr [workout "B"; workout "C"; workout "D"]
       else inr [];
     get_workout := fun id =>
       if String.eqb id "B" then inr (two_exercises 5)
       else inr {| wd_exercises := None |};
     list_exercise_templates := fun _ _ => inr [];
     db_fault := fun _ => None |}.

(** The same remote, with a database that refuses the first interaction. *)
Definition env_store_down : Env :=
  {| list_workouts := list_workouts env_bcd;
     get_workout := get_workout env_bcd;
     list_exercise_templates := list_exercise_templates env_bcd;
     db_fault := fun n =>
       if decide (n = 0)
       then Some (Exn "OperationalError" "connection refused")
       else None |}.

(** A remote whose first page is full and whose second page fails. *)
Definition env_second_page_fails : Env :=
  {| list_workouts := fun page _ =>
       if decide (page = 1)
       then inr (workout <$> ["w0"; "w1"; "w2"; "w3"; "w4";
                              "w5"; "w6"; "w7"; "w8"; "w9"])
       else inl (Exn "HTTPStatusError" "502 Bad Gateway");
     get_workout := fun _ => inr {| wd_exercises := None |};
     list_exercise_templates := fun _ _ => inr [];
     db_fault := fun _ => None |}.

Definition stored (id : string) : WorkoutRow :=
  Repo._normalize_workout_params (Mappers.to_workout_row (workout id)).

(** The set 0 of exercise 0 of workout [id], stored with 1 repetition. *)
Definition stale_set (id : string) : SetRow :=
  Mappers.set_row id (Some 0%Z) "Squat" (one_set (Some 0%Z) 1).

(** A store holding the workouts A, B and C and one set of A and of B. *)
Definition db_abc : Db :=
  {| workouts :=
       <["A" := stored "A"]> (<["B" := stored "B"]> (<["C" := stored "C"]> ∅));
     sets := <["A:0:0" := stale_set "A"]> (<["B:0:0" := stale_set "B"]> ∅);
     exercises := ∅ |}.

Definition w_abc : World :=
  {| db := db_abc; log := []; clock := 0; frame := zero_counters |}.

(** A remote that breaks the pagination contract: a short first page
    followed by a second page that is not empty. *)
Definition env_short_then_more : Env :=
  {| list_workouts := fun page _ =>
       if decide (page = 1) then inr [workout "W1"]
       else if decide (page = 2) then inr [workout "W2"]
       else inr [];
     get_workout := fun _ => inr {| wd_exercises := None |};
     list_exercise_templates := fun _ _ => inr [];
     db_fault := fun _ => None |}.

(** A store with no workout and one set row that points to workout W2. *)
Definition w_orphan : World :=
  {| db := {| workouts := ∅;
              sets := <["W2:0:0" := stale_set "W2"]> ∅;
              exercises := ∅ |};
     log := []; clock := 0; frame := zero_counters |}.

Definition template (title : field string) (muscle : string) : Template :=
  {| t_title := title; t_type := Some "weight_reps";
     t_primary_muscle_group := Val muscle;
     t_secondary_muscle_groups := Val ["glutes"; "core"] |}.

(** The no-break space U+00A0 and the em space U+2003, in UTF-8. *)
Definition nbsp : string :=
  String (Ascii.ascii_of_nat 194) (String (Ascii.ascii_of_nat 160) "").
Definition em_space : string :=
  String (Ascii.ascii_of_nat 226)
    (String (Ascii.ascii_of_nat 128) (String (Ascii.ascii_of_nat 131) "")).

(** The templates of the catalogue below: a title with surrounding
    blanks, a blank title, no title, the first title again, a title between
    a no-break space and an em space, and a title that is a lone no-break
    space. *)
Definition catalog_templates : list Template :=
  [template (Val "  Squat ") "quadriceps";
   template (Val "   ") "none";
   template Absent "none";
   template (Val "Squat") "legs";
   template (Val (nbsp +:+ "Plank" +:+ em_space)) "core";
   template (Val nbsp) "none"].

(** A remote catalogue with these templates on one page. *)
Definition env_catalog : Env :=
  {| list_workouts := fun _ _ => inr [];
     get_workout := fun _ => inr {| wd_exercises := None |};
     list_exercise_templates := fun page _ =>
       if decide (page = 1) then inr catalog_templates else inr [];
     db_fault := fun _ => None |}.

(** The same catalogue with a template whose title is a JSON null. *)
Definition env_null_title : Env :=
  {| list_workouts := fun _ _ => inr [];
     get_workout := fun _ => inr {| wd_exercises := None |};
     list_exercise_templates := fun page _ =>
       if decide (page = 1)
       then inr [template (Val "Squat") "quadriceps";
                 template Null "chest"]
       else inr [];
     db_fault := fun _ => None |}.

(** A store whose catalogue holds one exercise. *)
Definition w_old_catalog : World :=
  {| db := {| workouts := ∅; sets := ∅;
              exercises :=
                <["Deadlift" := {| er_type := None;
                                   er_primary_muscle_group := Some "back";
                                   er_secondary_muscle_group := None |}]> ∅ |};
     log := []; clock := 0; frame := zero_counters |}.

(** The remote of [env_bcd] with a database whose sixth interaction fails:
    in a page transaction started at clock 0 that is the commit (begin,
    upsert B, insert the sets of B, upsert C, upsert D, commit). *)
Definition env_commit_fails : Env :=
  {| list_workouts := list_workouts env_bcd;
     get_workout := get_workout env_bcd;
     list_exercise_templates := list_exercise_templates env_bcd;
     db_fault := fun n =>
       if decide (n = 5)
       then Some (Exn "OperationalError" "server closed the connection")
       else None |}.

(** A remote that never runs out of full pages. *)
Definition env_endless : Env :=
  {| list_workouts := fun _ _ =>
       inr (workout <$> ["w0"; "w1"; "w2"; "w3"; "w4";
                         "w5"; "w6"; "w7"; "w8"; "w9"]);
     get_workout := fun _ => inr {| wd_exercises := None |};
     list_exercise_templates := fun _ _ => inr [];
     db_fault := fun _ => None |}.

(** A store without any row, and one with a set row that no workout
    owns. *)
Definition w_empty : World :=
  {| db := {| workouts := ∅; sets := ∅; exercises := ∅ |};
     log := []; clock := 0; frame := zero_counters |}.

(** A remote whose first page fails. *)
Definition env_first_page_fails : Env :=
  {| list_workouts := fun _ _ =>
       inl (Exn "HTTPStatusError" "503 Service Unavailable");
     get_workout := fun _ => inr {| wd_exercises := None |};
     list_exercise_templates := fun _ _ => inr [];
     db_fault := fun _ => None |}.

(** A remote with one full page followed by a short one. *)
Definition env_full_then_short : Env :=
  {| list_workouts := fun page _ =>
       if decide (page = 1)
       then inr (workout <$> ["w0"; "w1"; "w2"; "w3"; "w4";
                              "w5"; "w6"; "w7"; "w8"; "w9"])
       else if decide (page = 2) then inr [workout "w10"; workout "w11"]
       else inr [];
     get_workout := fun _ => inr {| wd_exercises := None |};
     list_exercise_templates := fun _ _ => inr [];
     db_fault := fun _ => None |}.

(** The remote of [env_bcd] with a database whose fourth interaction
    fails.  From an empty store the deletion transaction takes the first
    three (begin, [SELECT], commit), so the failure meets the opening of
    the first page transaction of the upsert pass. *)
Definition env_page_begin_fails : Env :=
  {| list_workouts := list_workouts env_bcd;
     get_workout := get_workout env_bcd;
     list_exercise_templates := list_exercise_templates env_bcd;
     db_fault := fun n =>
       if decide (n = 3)
       then Some (Exn "OperationalError" "connection refused")
       else None |}.

(** The remote of [env_bcd] with a database whose sixth interaction
    fails.  From the store [w_abc] the deletion transaction takes the first
    five (begin, [SELECT], the two [DELETE]s, commit), so the failure meets
    the opening of the first page transaction of the upsert pass. *)
Definition env_upsert_begin_fails : Env :=
  {| list_workouts := list_workouts env_bcd;
     get_workout := get_workout env_bcd;
     list_exercise_templates := list_exercise_templates env_bcd;
     db_fault := fun n =>
       if decide (n = 5)
       then Some (Exn "OperationalError" "connection refused")
       else None |}.

(** A remote that serves W1 on a short first page and W2, with two sets,
    on the second page. *)
Definition env_short_then_sets : Env :=
  {| list_workouts := list_workouts env_short_then_more;
     get_workout := fun id =>
       if String.eqb id "W2" then inr (two_exercises 5)
       else inr {| wd_exercises := None |};
     list_exercise_templates := fun _ _ => inr [];
     db_fault := fun _ => None |}.

(** * Reasoning principles *)

(** ** Invariants that survive every failure

    [keeps J L m]: whenever [m] stops, by returning or by raising, a
    property [J] of the tables and a property [L] of the request log that
    held before still hold.  Rolling a transaction back restores tables for
    which [J] held, which is why invariants are stated on the tables. *)

Section Keeps.

Variable env : Env.
Variable J : Db -> Prop.
Variable L : list Request -> Prop.

Lemma keeps_ret {A} (a : A) : keeps J L (ret a).
Proof. intros w Hw. exact Hw. Qed.

Lemma keeps_raise {A} (e : exn) : keeps J L (@raise A e).
Proof. intros w Hw. exact Hw. Qed.

Lemma keeps_out_of_fuel {A} : keeps J L (@out_of_fuel A).
Proof. intros w Hw. exact I. Qed.

Lemma keeps_bind {A B} (m : M A) (f : A -> M B) :
  keeps J L m -> (forall a, keeps J L (f a)) -> keeps J L (bind m f).
Proof.
  intros Hm Hf w Hw. unfold bind. specialize (Hm w Hw).
  destruct (m w) as [a w'|e w'|]; auto. apply Hf, Hm.
Qed.

Lemma keeps_try_except {A} (m : M A) (h : exn -> M A) :
  keeps J L m -> (forall e, keeps J L (h e)) -> keeps J L (try_except m h).
Proof.
  intros Hm Hh w Hw. unfold try_except. specialize (Hm w Hw).
  destruct (m w) as [a w'|e w'|]; auto. apply Hh, Hm.
Qed.

Lemma keeps_for_each {A} (body : A -> M unit) (l : list A) :
  (forall x, x ∈ l -> keeps J L (body x)) -> keeps J L (for_each body l).
Proof.
  induction l as [|x l IH]; intros Hb; simpl.
  - apply keeps_ret.
  - apply keeps_bind.
    + apply Hb. left.
    + intros _. apply IH. intros y Hy. apply Hb. now right.
Qed.

Lemma keeps_modify_frame f : keeps J L (modify_frame f).
Proof. intros w Hw. exact Hw. Qed.

Lemma keeps_get_frame : keeps J L get_frame.
Proof. intros w Hw. exact Hw. Qed.

Lemma keeps_db_exec {A} (f : Db -> option (A * Db)) :
  (forall d a d', J d -> f d = Some (a, d') -> J d') ->
  keeps J L (db_exec env f).
Proof.
  intros Hf w [HJ HL]. unfold db_exec.
  destruct (db_fault env (clock w)); [split; assumption|].
  destruct (f (db w)) as [[a d']|] eqn:E; split; simpl; eauto.
Qed.

Lemma keeps_get_db {A} (body : M A) : keeps J L body -> keeps J L (get_db env body).
Proof.
  intros Hb w Hw. unfold get_db.
  assert (K : keeps J L (db_exec env (fun d => Some (tt, d)) ;;;
                     r <~ body ;;
                     db_exec env (fun d => Some (tt, d)) ;;; ret r)).
  { apply keeps_bind; [apply keeps_db_exec; congruence|intros _].
    apply keeps_bind; [exact Hb|intros r].
    apply keeps_bind; [apply keeps_db_exec; congruence|intros _].
    apply keeps_ret. }
  specialize (K w Hw).
  match goal with |- match match ?o with _ => _ end with _ => _ end =>
    destruct o as [a w'|e w'|] end; auto.
  destruct Hw as [HJ _], K as [_ HL']. split; assumption.
Qed.

Hypothesis L_grows :
  forall l r, L l -> wellformed_request r -> L (l ++ [r]).

Lemma keeps_remote_call {A} (r : Request) (answer : exn + A) :
  wellformed_request r -> keeps J L (remote_call r answer).
Proof.
  intros Hr w [HJ HL]. unfold remote_call.
  destruct answer; split; simpl; auto.
Qed.

Lemma keeps_bind_remote {A B} (r : Request) (answer : exn + A)
    (f : A -> M B) :
  wellformed_request r ->
  (forall a, answer = inr a -> keeps J L (f a)) ->
  keeps J L (bind (remote_call r answer) f).
Proof.
  intros Hr Hf w [HJ HL]. unfold bind, remote_call.
  destruct answer as [e|a].
  - split; simpl; auto.
  - apply (Hf a eq_refl). split; simpl; auto.
Qed.

Lemma keeps_enumerate_ids fuel page ids :
  keeps J L (enumerate_ids env fuel page ids).
Proof.
  revert page ids. induction fuel as [|fuel IH]; intros page ids; simpl.
  - apply keeps_out_of_fuel.
  - apply keeps_bind.
    + apply keeps_try_except; [|intros _; apply keeps_ret].
      apply keeps_bind; [now apply keeps_remote_call|].
      intros [|x ws]; [apply keeps_ret|].
      destruct (_ <? _); apply keeps_ret.
    + intros [a|a]; [apply keeps_ret|apply IH].
Qed.

(** The catalogue sync only writes the [exercises] table. *)
Hypothesis J_exercises : forall d m, J d -> J (set_exercises m d).

Lemma keeps_fetch_templates fuel page acc :
  keeps J L (fetch_templates env fuel page acc).
Proof.
  revert page acc. induction fuel as [|fuel IH]; intros page acc; simpl.
  - apply keeps_out_of_fuel.
  - apply keeps_bind.
    + apply keeps_try_except; [|intros _; apply keeps_ret].
      apply keeps_bind; [now apply keeps_remote_call|].
      intros [|x ts]; [apply keeps_ret|].
      destruct (_ <? _); apply keeps_ret.
    + intros [a|a]; [apply keeps_ret|apply IH].
Qed.

Lemma keeps_import_templates n l : keeps J L (import_templates env n l).
Proof.
  revert n. induction l as [|t l IH]; intros n; simpl.
  - apply keeps_ret.
  - apply keeps_bind; [|intros m; apply IH].
    unfold import_template.
    destruct (t_title t); try apply keeps_raise;
      (destruct (String.eqb _ _); [apply keeps_ret|]);
      (apply keeps_bind; [|intros _; apply keeps_ret]);
      apply keeps_db_exec; intros d u d' Hd [= _ <-]; now apply J_exercises.
Qed.

Lemma keeps_sync_exercise_templates : keeps J L (sync_exercise_templates env).
Proof.
  unfold sync_exercise_templates.
  apply keeps_try_except; [|intros e; apply keeps_ret].
  apply keeps_bind; [apply keeps_fetch_templates|].
  intros [|t ts]; [apply keeps_ret|].
  apply keeps_bind; [|intros n; apply keeps_ret].
  apply keeps_get_db, keeps_bind; [|intros _; apply keeps_import_templates].
  apply keeps_db_exec. intros d u d' Hd [= _ <-]. now apply J_exercises.
Qed.

End Keeps.

Section KeepsUpsert.

Variable env : Env.
Variable J : Db -> Prop.
Variable L : list Request -> Prop.

Hypothesis L_grows :
  forall l r, L l -> wellformed_request r -> L (l ++ [r]).

(** What the two writes of the upsert pass do to [J]. *)
Hypothesis J_upsert :
  forall w id d, served env w -> rw_id w = Some id -> J d ->
    J (set_workouts
         (<[id := Repo._normalize_workout_params (Mappers.to_workout_row w)]>
            (workouts d)) d).
Hypothesis J_insert :
  forall w id detail d, served env w -> rw_id w = Some id -> J d ->
    J (set_sets
         (Repo.insert_sets_sql (Mappers.to_set_rows id detail) (sets d)) d).

Lemma keeps_process_workout w :
  served env w -> keeps J L (process_workout env w).
Proof.
  intros Hs. unfold process_workout.
  apply keeps_bind; [apply keeps_modify_frame|intros _].
  change (wr_id (Mappers.to_workout_row w)) with (rw_id w).
  destruct (rw_id w) as [id|] eqn:Hid; [|apply keeps_ret].
  destruct (negb _); [apply keeps_ret|].
  apply keeps_bind.
  { apply keeps_try_except; [|intros _; apply keeps_ret].
    apply keeps_bind; [|intros _; apply keeps_bind;
                        [apply keeps_modify_frame|intros _; apply keeps_ret]].
    apply keeps_db_exec. intros d u d' Hd.
    unfold Repo.upsert_workout_sql. simpl. rewrite Hid. simpl.
    intros [= _ <-]. now apply J_upsert. }
  intros [|]; simpl; [|apply keeps_ret].
  apply keeps_bind.
  { apply keeps_try_except; [|intros _; apply keeps_ret].
    apply keeps_bind; [|intros d; apply keeps_ret].
    now apply keeps_remote_call. }
  intros [detail|]; [|apply keeps_ret].
  apply keeps_try_except; [|intros _; apply keeps_ret].
  pose proof (fun d => J_insert w id detail d Hs Hid) as Hins.
  destruct (Mappers.to_set_rows id detail) as [|r rows];
    [apply keeps_ret|].
  apply keeps_bind; [|intros _; apply keeps_modify_frame].
  unfold insert_sets_bulk.
  apply keeps_bind; [|intros _; apply keeps_ret].
  apply keeps_db_exec. intros d u d' Hd [= _ <-]. now apply Hins.
Qed.

Lemma keeps_upsert_pages fuel page :
  keeps J L (upsert_pages env fuel page).
Proof.
  revert page. induction fuel as [|fuel IH]; intros page; simpl.
  - apply keeps_out_of_fuel.
  - apply keeps_bind; [|intros [a|a]; [apply keeps_ret|apply IH]].
    apply keeps_try_except; [|intros _; apply keeps_ret].
    apply keeps_bind_remote; [assumption|reflexivity|].
    intros [|x ws] Hpage; [apply keeps_ret|].
    apply keeps_bind; [|intros _; apply keeps_ret].
    apply keeps_get_db, keeps_for_each. intros y Hy.
    apply keeps_process_workout. now exists page, (x :: ws).
Qed.

End KeepsUpsert.

(** ** The enumeration loop, as a function of the remote alone *)

Lemma add_logs_nil w : add_logs [] w = w.
Proof. destruct w. unfold add_logs. simpl. now rewrite app_nil_r. Qed.

Lemma add_logs_cons r l w : add_logs (r :: l) w = add_logs l (add_log r w).
Proof. unfold add_logs, add_log. simpl. now rewrite <- app_assoc. Qed.

Lemma enumerate_ids_spec env fuel page ids w :
  enumerate_ids env fuel page ids w =
  match enum_from env fuel page ids with
  | Some (E, n) => Returns E (add_logs (list_reqs page n) w)
  | None => OutOfFuel
  end.
Proof.
  revert page ids w. induction fuel as [|fuel IH]; intros page ids w.
  - reflexivity.
  - simpl. unfold bind at 1. unfold try_except, bind, call_list_workouts,
      remote_call, fetch_page_size.
    destruct (list_workouts env page 10) as [e|[|x ws]].
    + unfold ret. unfold list_reqs. simpl.
      now rewrite add_logs_cons, add_logs_nil.
    + unfold ret, list_reqs. simpl. now rewrite add_logs_cons, add_logs_nil.
    + destruct (length (x :: ws) <? 10).
      * unfold ret, list_reqs. simpl.
        now rewrite add_logs_cons, add_logs_nil.
      * unfold ret. rewrite IH.
        destruct (enum_from env fuel (page + 1) _) as [[E n]|]; [|reflexivity].
        unfold list_reqs. simpl. rewrite add_logs_cons.
        now replace (page + 1) with (S page) by lia.
Qed.

(** Every collected id is an id that the remote serves. *)
Lemma enum_from_served env fuel page ids E n x :
  enum_from env fuel page ids = Some (E, n) -> x ∈ E ->
  x ∈ ids \/ exists w, served env w /\ rw_id w = Some x.
Proof.
  revert page ids E n. induction fuel as [|fuel IH]; intros page ids E n;
    [discriminate|]. simpl.
  destruct (list_workouts env page 10) as [e|[|y ws]] eqn:Hp.
  - intros [= <- _] Hx. now left.
  - intros [= <- _] Hx. now left.
  - assert (Hin : forall ids', x ∈ ids' ∪ page_ids (y :: ws) ->
        x ∈ ids' \/ exists w, served env w /\ rw_id w = Some x).
    { intros ids' [Hx|Hx]%elem_of_union; [now left|right].
      unfold page_ids in Hx. apply elem_of_list_to_set in Hx.
      apply list_elem_of_omap in Hx as (w & Hw & Hid).
      exists w. split; [now exists page, (y :: ws)|].
      destruct (truthy (rw_id w)); congruence. }
    destruct (length (y :: ws) <? 10).
    + intros [= <- _] Hx. now apply Hin.
    + destruct (enum_from env fuel (page + 1) _) as [[E' n']|] eqn:Hrec;
        [|discriminate].
      intros [= <- _] Hx.
      destruct (IH _ _ _ _ Hrec Hx) as [Hx'|Hx']; [now apply Hin|now right].
Qed.

(** ** The deletion block *)

Lemma purge_empty d : purge ∅ d = d.
Proof.
  destruct d as [W S X]. unfold purge, delete_workouts, delete_sets_of,
    set_workouts, set_sets. simpl. f_equal.
  - apply map_filter_id. intros k r _. set_solver.
  - apply map_filter_id. intros k r _. set_solver.
Qed.

(** The deletion block never leaves partial work behind: it returns after
    deleting exactly [local - remote], or raises with the tables intact. *)
Lemma reconcile_cases env hevy w :
  let loc := dom (workouts (db w)) in
  match reconcile env hevy w with
  | Returns r w' =>
      r = (size (loc ∖ hevy), loc) /\ db w' = purge (loc ∖ hevy) (db w) /\
      log w' = log w /\ frame w' = frame w
  | Raises e w' =>
      db w' = db w /\ log w' = log w /\ frame w' = frame w /\
      exists n, clock w <= n < clock w + 5 /\ db_fault env n = Some e
  | OutOfFuel => False
  end.
Proof.
  intros loc. unfold reconcile, get_db, bind, db_exec, ret. simpl.
  destruct (db_fault env (clock w)) as [e|] eqn:F0; simpl.
  { repeat split; auto. exists (clock w). split; [lia|assumption]. }
  destruct (db_fault env (S (clock w))) as [e|] eqn:F1; simpl.
  { repeat split; auto. exists (S (clock w)). split; [lia|assumption]. }
  fold loc. destruct (decide (loc ∖ hevy = ∅)) as [He|He]; simpl.
  - destruct (db_fault env (S (S (clock w)))) as [e|] eqn:F2; simpl.
    { repeat split; auto. exists (S (S (clock w))). split; [lia|assumption]. }
    rewrite He, size_empty, purge_empty. now destruct w as [[] ? ? ?].
  - destruct (db_fault env (S (S (clock w)))) as [e|] eqn:F2; simpl.
    { repeat split; auto. exists (S (S (clock w))). split; [lia|assumption]. }
    destruct (db_fault env (S (S (S (clock w))))) as [e|] eqn:F3; simpl.
    { repeat split; auto. exists (S (S (S (clock w)))).
      split; [lia|assumption]. }
    destruct (db_fault env (S (S (S (S (clock w)))))) as [e|] eqn:F4; simpl.
    { repeat split; auto. exists (S (S (S (S (clock w))))).
      split; [lia|assumption]. }
    repeat split; auto.
Qed.

(** * The mappers *)

Lemma to_set_rows_elem wid detail r :
  r ∈ Mappers.to_set_rows wid detail <->
  exists exs ex ss s,
    wd_exercises detail = Some exs /\ ex ∈ exs /\
    re_sets ex = Some ss /\ s ∈ ss /\
    r = Mappers.set_row wid (re_index ex) (or_str (re_title ex) "") s.
Proof.
  unfold Mappers.to_set_rows. rewrite list_elem_of_join. split.
  - intros (rows & Hr & Hrows). apply list_elem_of_fmap in Hrows
      as (ex & -> & Hex). unfold Mappers.exercise_rows in Hr.
    apply list_elem_of_fmap in Hr as (s & -> & Hs).
    destruct (wd_exercises detail) as [exs|]; simpl in Hex;
      [|now apply elem_of_nil in Hex].
    destruct (re_sets ex) as [ss|] eqn:Hss; simpl in Hs;
      [|now apply elem_of_nil in Hs].
    now exists exs, ex, ss, s.
  - intros (exs & ex & ss & s & Hexs & Hex & Hss & Hs & ->).
    exists (Mappers.exercise_rows wid ex). split.
    + unfold Mappers.exercise_rows. rewrite Hss. simpl.
      apply list_elem_of_fmap. now exists s.
    + rewrite Hexs. simpl. apply list_elem_of_fmap. now exists ex.
Qed.

Lemma to_set_rows_workout_id wid detail r :
  r ∈ Mappers.to_set_rows wid detail -> sr_workout_id r = wid.
Proof.
  intros (exs & ex & ss & s & _ & _ & _ & _ & ->)%to_set_rows_elem.
  reflexivity.
Qed.

(** C6. Every row built by [to_set_rows] carries the id computed by
    [set_id] from its own (workout_id, exercise_index, set_index) and
    nothing else, so rows of any two calls that agree on the triple have the
    same id; and every set of every exercise yields a row, with the text
    [None] standing in the id for an index that is missing. *)
Theorem set_id_is_function_of_indices :
  (forall wid detail r,
     r ∈ Mappers.to_set_rows wid detail ->
     sr_workout_id r = wid /\
     sr_id r =
       Mappers.set_id (sr_workout_id r) (sr_exercise_index r)
                      (sr_set_index r)) /\
  (forall wid1 detail1 wid2 detail2 r1 r2,
     r1 ∈ Mappers.to_set_rows wid1 detail1 ->
     r2 ∈ Mappers.to_set_rows wid2 detail2 ->
     wid1 = wid2 ->
     sr_exercise_index r1 = sr_exercise_index r2 ->
     sr_set_index r1 = sr_set_index r2 ->
     sr_id r1 = sr_id r2) /\
  (forall wid detail exs ex ss s,
     wd_exercises detail = Some exs -> ex ∈ exs ->
     re_sets ex = Some ss -> s ∈ ss ->
     exists r,
       r ∈ Mappers.to_set_rows wid detail /\
       sr_exercise_index r = re_index ex /\
       sr_set_index r = rs_index s /\
       sr_id r =
         wid +:+ ":" +:+ fmt_index (re_index ex) +:+ ":"
             +:+ fmt_index (rs_index s)) /\
  fmt_index None = "None".
Proof.
  assert (H1 : forall wid detail r,
     r ∈ Mappers.to_set_rows wid detail ->
     sr_workout_id r = wid /\
     sr_id r =
       Mappers.set_id (sr_workout_id r) (sr_exercise_index r)
                      (sr_set_index r)).
  { intros wid detail r
      (exs & ex & ss & s & _ & _ & _ & _ & ->)%to_set_rows_elem.
    split; reflexivity. }
  split; [exact H1|]. split; [|split; [|reflexivity]].
  - intros wid1 d1 wid2 d2 r1 r2 Hr1 Hr2 Hw He Hs.
    destruct (H1 _ _ _ Hr1) as [W1 ->], (H1 _ _ _ Hr2) as [W2 ->].
    now rewrite W1, W2, Hw, He, Hs.
  - intros wid detail exs ex ss s Hexs Hex Hss Hs.
    exists (Mappers.set_row wid (re_index ex) (or_str (re_title ex) "") s).
    split; [|repeat split].
    apply to_set_rows_elem. now exists exs, ex, ss, s.
Qed.

(** * The repository statements *)

Lemma insert_set_sql_union t r :
  Repo.insert_set_sql t r = t ∪ {[sr_id r := r]}.
Proof.
  unfold Repo.insert_set_sql. apply map_eq. intros k.
  destruct (t !! sr_id r) as [r0|] eqn:E.
  - rewrite lookup_union. destruct (decide (k = sr_id r)) as [->|Hk].
    + rewrite E, lookup_singleton_eq. reflexivity.
    + rewrite lookup_singleton_ne by congruence.
      now destruct (t !! k).
  - rewrite lookup_union, lookup_insert.
    destruct (decide (sr_id r = k)) as [<-|Hk].
    + now rewrite E, lookup_singleton_eq.
    + rewrite lookup_singleton_ne by congruence. now destruct (t !! k).
Qed.

(** The bulk insert adds, in order, the rows whose id is still free. *)
Lemma insert_sets_sql_union rows t :
  Repo.insert_sets_sql rows t = t ∪ rows_map rows.
Proof.
  unfold Repo.insert_sets_sql, rows_map. revert t.
  induction rows as [|r rows IH]; intros t; simpl.
  - now rewrite (right_id_L ∅ (∪)).
  - rewrite IH, insert_set_sql_union, <- (assoc_L (∪)).
    now rewrite <- insert_union_singleton_l.
Qed.

Lemma insert_sets_sql_keeps rows t k r :
  t !! k = Some r -> Repo.insert_sets_sql rows t !! k = Some r.
Proof.
  intros H. rewrite insert_sets_sql_union. now apply lookup_union_Some_l.
Qed.

Lemma rows_map_lookup rows k r :
  rows_map rows !! k = Some r -> r ∈ rows /\ sr_id r = k.
Proof.
  unfold rows_map. intros H. apply elem_of_list_to_map_2 in H.
  apply list_elem_of_fmap in H as (r' & [= -> ->] & Hr). auto.
Qed.

Lemma insert_sets_sql_lookup rows t k r :
  Repo.insert_sets_sql rows t !! k = Some r ->
  t !! k = Some r \/ r ∈ rows.
Proof.
  rewrite insert_sets_sql_union. intros [H|[_ H]]%lookup_union_Some_raw.
  - now left.
  - right. now apply rows_map_lookup in H as [H _].
Qed.

(** * The entry point, phase by phase *)

(** A run that returns went through the four phases in order. *)
Lemma sync_first_page_returns env page page_size fuel w s w' :
  sync_first_page env page page_size fuel w = Returns s w' ->
  let loc := dom (workouts (db w)) in
  exists E k w2 w3 es,
    enum_from env fuel 1 ∅ = Some (E, k) /\
    reconcile env E (add_logs (list_reqs 1 k) w)
      = Returns (size (loc ∖ E), loc) w2 /\
    db w2 = purge (loc ∖ E) (db w) /\
    upsert_pages env fuel 1 (set_frame zero_counters w2) = Returns tt w3 /\
    sync_exercise_templates env w3 = Returns es w' /\
    s = {| sync_type := "unified_with_deletion";
           workouts_seen := seen (frame w');
           workouts_upserted := upserted (frame w');
           sets_inserted := sets_total (frame w');
           workouts_deleted := size (loc ∖ E);
           total_hevy_workouts := size E;
           total_local_before := size loc;
           exercise_sync := es |}.
Proof.
  intros H loc. unfold sync_first_page, bind in H.
  rewrite enumerate_ids_spec in H.
  destruct (enum_from env fuel 1 ∅) as [[E k]|]; [|discriminate].
  exists E, k. unfold sync_after_enumeration, bind in H.
  pose proof (reconcile_cases env E (add_logs (list_reqs 1 k) w)) as R.
  simpl in R. fold loc in R.
  destruct (reconcile env E _) as [r w2|e w2|]; [|discriminate|discriminate].
  destruct R as (-> & Hdb & _ & _). exists w2.
  unfold sync_after_deletion, bind, modify_frame in H.
  destruct (upsert_pages env fuel 1 _) as [[] w3|e w3|] eqn:U;
    [|discriminate|discriminate].
  exists w3.
  destruct (sync_exercise_templates env w3) as [es w4|e w4|] eqn:X;
    [|discriminate|discriminate].
  exists es. unfold get_frame, ret in H. injection H as <- <-.
  repeat split; assumption.
Qed.

(** * C9: the [page] and [page_size] arguments *)

Lemma keeps_reconcile env J L hevy :
  (forall ids d, J d -> J (delete_sets_of ids d)) ->
  (forall ids d, J d -> J (delete_workouts ids d)) ->
  keeps J L (reconcile env hevy).
Proof.
  intros Hs Hw. unfold reconcile. apply keeps_get_db, keeps_bind.
  - apply keeps_db_exec. now intros d a d' Hd [= _ <-].
  - intros loc. destruct (decide _); [apply keeps_ret|].
    apply keeps_bind; [apply keeps_db_exec; intros d a d' Hd [= _ <-]; auto|].
    intros _.
    apply keeps_bind; [apply keeps_db_exec; intros d a d' Hd [= _ <-]; auto|].
    intros _. apply keeps_ret.
Qed.

(** Steps 3 and 4 keep every invariant that the two writes of the upsert
    pass and the catalogue reload keep. *)
Lemma keeps_sync_after_deletion env J L fuel hevy n loc :
  (forall l r, L l -> wellformed_request r -> L (l ++ [r])) ->
  (forall w id d, served env w -> rw_id w = Some id -> J d ->
     J (set_workouts
          (<[id := Repo._normalize_workout_params (Mappers.to_workout_row w)]>
             (workouts d)) d)) ->
  (forall w id detail d, served env w -> rw_id w = Some id -> J d ->
     J (set_sets
          (Repo.insert_sets_sql (Mappers.to_set_rows id detail) (sets d)) d)) ->
  (forall d m, J d -> J (set_exercises m d)) ->
  keeps J L (sync_after_deletion env fuel hevy n loc).
Proof.
  intros HL Hu Hi Hx. unfold sync_after_deletion.
  apply keeps_bind; [apply keeps_modify_frame|intros _].
  apply keeps_bind; [now apply keeps_upsert_pages|intros _].
  apply keeps_bind; [now apply keeps_sync_exercise_templates|intros es].
  apply keeps_bind; [apply keeps_get_frame|intros c]. apply keeps_ret.
Qed.

Lemma keeps_sync_first_page env J L page page_size fuel :
  (forall l r, L l -> wellformed_request r -> L (l ++ [r])) ->
  (forall d d', J d -> J d') ->
  keeps J L (sync_first_page env page page_size fuel).
Proof.
  intros HL HJ. unfold sync_first_page.
  apply keeps_bind; [now apply keeps_enumerate_ids|intros E].
  unfold sync_after_enumeration.
  apply keeps_bind; [apply keeps_reconcile; eauto|intros del].
  apply keeps_sync_after_deletion; eauto.
Qed.

(** C9. [sync_first_page] does not depend on its [page] and [page_size]
    arguments: two calls that differ only there have the same outcome
    (same summary, same tables, same request log), and every workout-list
    request that a call adds to the log asks for pages of 10. *)
Theorem sync_ignores_page_arguments env page page_size page' page_size'
    fuel w :
  sync_first_page env page page_size fuel w
    = sync_first_page env page' page_size' fuel w /\
  forall w' p sz,
    final_world (sync_first_page env page page_size fuel w) = Some w' ->
    ReqListWorkouts p sz ∈ log w' ->
    ReqListWorkouts p sz ∈ log w \/ sz = 10.
Proof.
  split; [reflexivity|]. intros w' p sz Hw'.
  set (L := fun l : list Request =>
              forall p sz, ReqListWorkouts p sz ∈ l ->
                           ReqListWorkouts p sz ∈ log w \/ sz = 10).
  assert (HL : forall l r, L l -> wellformed_request r -> L (l ++ [r])).
  { intros l r Hl Hr p0 sz0
      [Hin|Hin%list_elem_of_singleton]%elem_of_app; [now apply Hl|].
    subst r. right. exact Hr. }
  pose proof (keeps_sync_first_page env (fun _ => True) L
                page page_size fuel HL (fun _ _ _ => I) w) as K.
  assert (Hk : holds (fun _ => True) L w').
  { destruct (sync_first_page env page page_size fuel w) as [s w1|e w1|];
      simpl in Hw'; try discriminate; injection Hw' as <-;
      apply K; split; auto; intros ? ? ?; now left. }
  apply Hk.
Qed.

(** * C5: a page that fails during enumeration *)

Lemma enum_from_fail env k fuel page ids :
  (forall i, i < k -> full_page env (page + i)) ->
  page_fails env (page + k) ->
  k < fuel ->
  enum_from env fuel page ids = Some (ids ∪ ids_of_pages env page k, S k).
Proof.
  revert fuel page ids. induction k as [|k IH]; intros fuel page ids Hfull Hfail Hk.
  - destruct fuel as [|fuel]; [lia|]. simpl. unfold page_fails in Hfail.
    replace (page + 0) with page in Hfail by lia.
    destruct (list_workouts env page 10); [|contradiction].
    now rewrite (right_id_L ∅ (∪)).
  - destruct fuel as [|fuel]; [lia|]. simpl.
    pose proof (Hfull 0 ltac:(lia)) as H0. unfold full_page in H0.
    replace (page + 0) with page in H0 by lia.
    destruct (list_workouts env page 10) as [e|ws]; [contradiction|].
    destruct ws as [|x ws]; [simpl in H0; lia|].
    destruct (length (x :: ws) <? 10) eqn:Hlt;
      [apply Nat.ltb_lt in Hlt; lia|].
    rewrite IH.
    + now rewrite (assoc_L (∪)).
    + intros i Hi. replace (page + 1 + i) with (page + S i) by lia.
      apply Hfull. lia.
    + now replace (page + 1 + k) with (page + S k) by lia.
    + lia.
Qed.

(** C5. When pages 1..k are full and fetching page k+1 raises, the
    enumeration loop stops there: it has requested pages 1..k+1 once each,
    returns exactly the ids of pages 1..k, and the run goes on with the
    deletion block on those ids (so the summary reports them as the remote
    total and deletes the local ids outside them).  With k = 0, a failure on
    the first page, the collected set is empty. *)
Theorem enumeration_failure_keeps_partial_ids env k fuel page page_size w :
  (forall i, i < k -> full_page env (1 + i)) ->
  page_fails env (1 + k) ->
  k < fuel ->
  let E := ids_of_pages env 1 k in
  let w1 := add_logs (list_reqs 1 (S k)) w in
  enumerate_ids env fuel 1 ∅ w = Returns E w1 /\
  sync_first_page env page page_size fuel w
    = sync_after_enumeration env fuel E w1 /\
  (forall s w', sync_first_page env page page_size fuel w = Returns s w' ->
     total_hevy_workouts s = size E /\
     workouts_deleted s = size (dom (workouts (db w)) ∖ E)) /\
  (k = 0 -> E = ∅).
Proof.
  intros Hfull Hfail Hk E w1.
  pose proof (enum_from_fail env k fuel 1 ∅ Hfull Hfail Hk) as He.
  rewrite (left_id_L ∅ (∪)) in He. fold E in He.
  assert (H1 : enumerate_ids env fuel 1 ∅ w = Returns E w1).
  { now rewrite enumerate_ids_spec, He. }
  split; [exact H1|]. split; [|split].
  - unfold sync_first_page, bind. now rewrite H1.
  - intros s w' Hs.
    apply sync_first_page_returns in Hs
      as (E' & k' & w2 & w3 & es & He' & _ & _ & _ & _ & ->).
    rewrite He in He'. injection He' as <- <-. simpl. split; reflexivity.
  - intros ->. reflexivity.
Qed.

(** * C1: what the deletion pass removes *)

Lemma purge_dom ids d : dom (workouts (purge ids d)) = dom (workouts d) ∖ ids.
Proof.
  unfold purge, delete_workouts, delete_sets_of, set_workouts. simpl.
  apply set_eq. intros x. rewrite elem_of_difference, !elem_of_dom.
  unfold is_Some. split.
  - intros [r [Hr Hx]%map_lookup_filter_Some]. eauto.
  - intros [[r Hr] Hx]. exists r. now apply map_lookup_filter_Some.
Qed.

Lemma purge_sets ids d k r :
  sets (purge ids d) !! k = Some r <->
  sets d !! k = Some r /\ (sr_workout_id r ∉ ids).
Proof.
  unfold purge, delete_workouts, delete_sets_of, set_workouts. simpl.
  apply map_lookup_filter_Some.
Qed.

Lemma purge_absent ids d a : a ∈ ids -> absent a (purge ids d).
Proof.
  intros Ha. split.
  - rewrite purge_dom. set_solver.
  - intros k r [_ Hr]%purge_sets Heq. rewrite Heq in Hr. contradiction.
Qed.

Lemma keeps_final {A} J L (m : M A) w w' :
  keeps J L m -> holds J L w -> final_world (m w) = Some w' -> holds J L w'.
Proof.
  intros K Hw Hf. specialize (K w Hw).
  destruct (m w); simpl in Hf; try discriminate; injection Hf as <-; exact K.
Qed.

(** The writes of the upsert pass cannot bring back a workout that the
    remote does not serve. *)
Lemma absent_upsert env a w id d :
  (forall x, served env x -> rw_id x <> Some a) ->
  served env w -> rw_id w = Some id -> absent a d ->
  absent a (set_workouts
    (<[id := Repo._normalize_workout_params (Mappers.to_workout_row w)]>
       (workouts d)) d).
Proof.
  intros Hns Hs Hid [Hd Hsets]. split; [|exact Hsets]. simpl.
  rewrite dom_insert_L. pose proof (Hns w Hs). set_solver.
Qed.

Lemma absent_insert env a w id detail d :
  (forall x, served env x -> rw_id x <> Some a) ->
  served env w -> rw_id w = Some id -> absent a d ->
  absent a (set_sets
    (Repo.insert_sets_sql (Mappers.to_set_rows id detail) (sets d)) d).
Proof.
  intros Hns Hs Hid [Hd Hsets]. split; [exact Hd|]. simpl.
  intros k r [Hr|Hr]%insert_sets_sql_lookup; [now apply (Hsets k)|].
  apply to_set_rows_workout_id in Hr. rewrite Hr. intros ->.
  now apply (Hns w Hs).
Qed.

(** C1. In a run that returns, the deletion block received the ids [E]
    collected by the enumeration loop, read the local ids [loc], and removed
    exactly the workouts in [loc - E] together with the set rows that point
    to them (the summary counts them); and a local workout that the remote
    does not serve at all is absent at the end of the run, with all its
    sets (as in a run on local ids A, B, C against remote ids B, C, D). *)
Theorem reconciliation_deletes_local_minus_remote
    env page page_size fuel w s w' :
  sync_first_page env page page_size fuel w = Returns s w' ->
  let loc := dom (workouts (db w)) in
  exists E k w2,
    enum_from env fuel 1 ∅ = Some (E, k) /\
    reconcile env E (add_logs (list_reqs 1 k) w)
      = Returns (size (loc ∖ E), loc) w2 /\
    loc ∖ dom (workouts (db w2)) = loc ∖ E /\
    dom (workouts (db w2)) = loc ∖ (loc ∖ E) /\
    (forall i r, sets (db w2) !! i = Some r <->
                 sets (db w) !! i = Some r /\ (sr_workout_id r ∉ loc ∖ E)) /\
    workouts_deleted s = size (loc ∖ E) /\
    forall a,
      a ∈ loc ->
      (forall x, served env x -> rw_id x <> Some a) ->
      (a ∉ dom (workouts (db w'))) /\
      forall i r, sets (db w') !! i = Some r -> sr_workout_id r <> a.
Proof.
  intros Hrun loc.
  destruct (sync_first_page_returns _ _ _ _ _ _ _ Hrun)
    as (E & k & w2 & w3 & es & He & Hrec & Hdb & Hup & Hex & ->).
  fold loc in Hrec, Hdb.
  exists E, k, w2. rewrite Hdb, purge_dom.
  split; [exact He|]. split; [exact Hrec|].
  split; [apply set_eq; intros x; set_solver|].
  split; [reflexivity|].
  split; [intros i r; apply purge_sets|].
  split; [reflexivity|].
  intros a Ha Hns. revert a Ha Hns.
  - assert (forall a, a ∈ loc ->
      (forall x, served env x -> rw_id x <> Some a) -> absent a (db w'))
      as Hfin; [|intros a Ha Hns; exact (Hfin a Ha Hns)].
    intros a Ha Hns.
    assert (HaE : a ∉ E).
    { intros Hin. destruct (enum_from_served _ _ _ _ _ _ _ He Hin)
        as [Hin'|(x & Hx & Hid)]; [set_solver|]. now apply (Hns x). }
    assert (H2 : absent a (db w2)).
    { rewrite Hdb. apply purge_absent. set_solver. }
    assert (HL : forall (l : list Request) (r : Request),
              True -> wellformed_request r -> True) by auto.
    assert (H3 : holds (absent a) (fun _ => True) w3).
    { eapply (keeps_final _ _ (upsert_pages env fuel 1)
                (set_frame zero_counters w2)).
      - apply keeps_upsert_pages; [exact HL| |].
        + intros x id d. now apply absent_upsert.
        + intros x id detail d. now apply absent_insert.
      - split; [exact H2|exact I].
      - now rewrite Hup. }
    assert (H4 : holds (absent a) (fun _ => True) w').
    { eapply (keeps_final _ _ (sync_exercise_templates env)).
      - apply keeps_sync_exercise_templates; [exact HL|].
        intros d m Hd. exact Hd.
      - exact H3.
      - now rewrite Hex. }
    apply H4.
Qed.

(** * C7: set rows already stored *)

(** C7. A stored set row is never changed or removed by the bulk insert:
    the statement alone, the repository call under any failure, and the
    whole run keep it as it is.  The only way a run loses the row is the
    deletion block removing its owning workout, which was then a local
    workout outside the ids collected from the remote.  Whatever values the
    remote now reports for that id do not reach the stored row. *)
Theorem stored_sets_are_never_rewritten :
  (forall rows t i r,
     t !! i = Some r -> Repo.insert_sets_sql rows t !! i = Some r) /\
  (forall env rows w w' i r,
     sets (db w) !! i = Some r ->
     final_world (insert_sets_bulk env rows w) = Some w' ->
     sets (db w') !! i = Some r) /\
  (forall env page page_size fuel w w' i r,
     sets (db w) !! i = Some r ->
     final_world (sync_first_page env page page_size fuel w) = Some w' ->
     sets (db w') !! i = Some r \/
     exists E n,
       enum_from env fuel 1 ∅ = Some (E, n) /\
       sr_workout_id r ∈ dom (workouts (db w)) ∖ E).
Proof.
  split; [exact insert_sets_sql_keeps|]. split.
  - intros env rows w w' i r Hr Hf.
    unfold insert_sets_bulk in Hf. destruct rows as [|x rows].
    + unfold ret in Hf. simpl in Hf. injection Hf as <-. exact Hr.
    + unfold bind, db_exec, ret in Hf.
      destruct (db_fault env (clock w)); simpl in Hf; injection Hf as <-;
        simpl; [exact Hr|].
      exact (insert_sets_sql_keeps (x :: rows) _ _ _ Hr).
  - intros env page page_size fuel w w' i r Hr Hf.
    unfold sync_first_page, bind in Hf. rewrite enumerate_ids_spec in Hf.
    destruct (enum_from env fuel 1 ∅) as [[E n]|] eqn:He; [|discriminate].
    destruct (decide (sr_workout_id r ∈ dom (workouts (db w)) ∖ E))
      as [Hin|Hout]; [right; now exists E, n|left].
    set (J := fun d : Db => sets d !! i = Some r).
    assert (HL : forall (l : list Request) (r : Request),
              True -> wellformed_request r -> True) by auto.
    unfold sync_after_enumeration, bind in Hf.
    pose proof (reconcile_cases env E (add_logs (list_reqs 1 n) w)) as R.
    simpl in R.
    destruct (reconcile env E _) as [del w2|e w2|]; [| |contradiction].
    + destruct R as (-> & Hdb & _ & _). simpl in Hf.
      assert (H2 : holds J (fun _ => True) w2).
      { split; [|exact I]. unfold J. rewrite Hdb. now apply purge_sets. }
      eapply (keeps_final J (fun _ => True)) in Hf; [apply Hf| |exact H2].
      apply keeps_sync_after_deletion; [exact HL| | |]; unfold J.
      * intros x id d _ _ Hd. exact Hd.
      * intros x id detail d _ _ Hd. simpl. now apply insert_sets_sql_keeps.
      * intros d m Hd. exact Hd.
    + destruct R as (Hdb & _). simpl in Hf. injection Hf as <-.
      now rewrite Hdb.
Qed.

(** * Termination and absorbed exceptions *)

Lemma halts_ret {A} (a : A) : halts (ret a).
Proof. intros w. discriminate. Qed.

Lemma halts_raise {A} e : halts (@raise A e).
Proof. intros w. discriminate. Qed.

Lemma halts_bind {A B} (m : M A) (f : A -> M B) :
  halts m -> (forall a, halts (f a)) -> halts (bind m f).
Proof.
  intros Hm Hf w. unfold bind. specialize (Hm w).
  destruct (m w); [apply Hf|discriminate|contradiction].
Qed.

Lemma halts_try_except {A} (m : M A) h :
  halts m -> (forall e, halts (h e)) -> halts (try_except m h).
Proof.
  intros Hm Hh w. unfold try_except. specialize (Hm w).
  destruct (m w); [discriminate|apply Hh|contradiction].
Qed.

Lemma halts_for_each {A} (body : A -> M unit) l :
  (forall x, halts (body x)) -> halts (for_each body l).
Proof.
  intros Hb. induction l as [|x l IH]; simpl.
  - apply halts_ret.
  - apply halts_bind; [apply Hb|intros _; exact IH].
Qed.

Lemma halts_modify_frame f : halts (modify_frame f).
Proof. intros w. discriminate. Qed.

Lemma halts_db_exec env {A} (f : Db -> option (A * Db)) :
  halts (db_exec env f).
Proof.
  intros w. unfold db_exec. destruct (db_fault env (clock w)); [discriminate|].
  destruct (f (db w)) as [[a d]|]; discriminate.
Qed.

Lemma halts_get_db env {A} (body : M A) : halts body -> halts (get_db env body).
Proof.
  intros Hb w. unfold get_db.
  assert (K : halts (db_exec env (fun d => Some (tt, d)) ;;;
                     r <~ body ;;
                     db_exec env (fun d => Some (tt, d)) ;;; ret r)).
  { apply halts_bind; [apply halts_db_exec|intros _].
    apply halts_bind; [exact Hb|intros r].
    apply halts_bind; [apply halts_db_exec|intros _; apply halts_ret]. }
  specialize (K w).
  match goal with |- match ?o with _ => _ end <> _ =>
    destruct o end; [discriminate|discriminate|contradiction].
Qed.

Lemma halts_remote_call {A} r (answer : exn + A) :
  halts (remote_call r answer).
Proof. intros w. unfold remote_call. destruct answer; discriminate. Qed.

Lemma quiet_try_ret {A} (m : M A) (f : exn -> A) :
  quiet (try_except m (fun e => ret (f e))).
Proof.
  intros w e w'. unfold try_except. destruct (m w); discriminate.
Qed.

Lemma halts_process_workout env w : halts (process_workout env w).
Proof.
  unfold process_workout.
  apply halts_bind; [apply halts_modify_frame|intros _].
  destruct (wr_id _) as [id|]; [|apply halts_ret].
  destruct (negb _); [apply halts_ret|].
  apply halts_bind.
  { apply halts_try_except; [|intros _; apply halts_ret].
    apply halts_bind; [apply halts_db_exec|intros _].
    apply halts_bind; [apply halts_modify_frame|intros _; apply halts_ret]. }
  intros [|]; simpl; [|apply halts_ret].
  apply halts_bind.
  { apply halts_try_except; [|intros _; apply halts_ret].
    apply halts_bind; [apply halts_remote_call|intros d; apply halts_ret]. }
  intros [detail|]; [|apply halts_ret].
  apply halts_try_except; [|intros _; apply halts_ret].
  destruct (Mappers.to_set_rows id detail); [apply halts_ret|].
  apply halts_bind; [|intros _; apply halts_modify_frame].
  unfold insert_sets_bulk.
  apply halts_bind; [apply halts_db_exec|intros _; apply halts_ret].
Qed.

(** The catalogue loop stops by itself: the page counter is capped at 100. *)
Lemma halts_fetch_templates env fuel page acc :
  page <= 100 -> 100 < fuel + page ->
  forall w, fetch_templates env fuel page acc w <> OutOfFuel.
Proof.
  revert page acc. induction fuel as [|fuel IH]; intros page acc Hp Hf w;
    [simpl in Hf; lia|].
  simpl. unfold bind at 1. unfold try_except, bind,
    call_list_exercise_templates, remote_call.
  destruct (list_exercise_templates env page 100) as [e|[|t ts]];
    try discriminate.
  destruct (100 <? page + 1) eqn:Hlt; [discriminate|].
  apply Nat.ltb_ge in Hlt. unfold ret. apply IH; lia.
Qed.

Lemma halts_import_templates env n l : halts (import_templates env n l).
Proof.
  revert n. induction l as [|t l IH]; intros n; simpl.
  - apply halts_ret.
  - apply halts_bind; [|intros m; apply IH].
    unfold import_template.
    destruct (t_title t); try apply halts_raise;
      (destruct (String.eqb _ _); [apply halts_ret|]);
      (apply halts_bind; [apply halts_db_exec|intros _; apply halts_ret]).
Qed.

(** The catalogue sync always returns a result. *)
Lemma sync_exercise_templates_returns env w :
  exists es w', sync_exercise_templates env w = Returns es w'.
Proof.
  assert (H : halts (sync_exercise_templates env)).
  { unfold sync_exercise_templates.
    apply halts_try_except; [|intros e; apply halts_ret].
    apply halts_bind; [intros w0; apply halts_fetch_templates; lia|].
    intros [|t ts]; [apply halts_ret|].
    apply halts_bind; [|intros n; apply halts_ret].
    apply halts_get_db, halts_bind; [apply halts_db_exec|intros _].
    apply halts_import_templates. }
  specialize (H w).
  pose proof (quiet_try_ret
    (all_templates <~ fetch_templates env 100 1 [] ;;
       match all_templates with
       | [] => ret no_templates_result
       | _ =>
           imported_count <~
             get_db env
               (db_exec env (fun d => Some (tt, set_exercises ∅ d)) ;;;
                import_templates env 0 all_templates) ;;
           ret {| es_status := "success";
                  es_imported_count := imported_count;
                  es_total_templates := length all_templates;
                  es_message :=
                    "Successfully imported " +:+ pretty imported_count
                    +:+ " exercise templates from Hevy API" |}
       end)
    (fun e => {| es_status := "error";
                es_message := "Sync failed: " +:+ exn_msg e;
                es_imported_count := 0;
                es_total_templates := 0 |}) w) as Q.
  change (try_except _ _ w) with (sync_exercise_templates env w) in Q.
  destruct (sync_exercise_templates env w) as [es w'|e w'|].
  - now exists es, w'.
  - now destruct (Q e w').
  - contradiction.
Qed.

Lemma enum_from_ends env fuel page ids :
  listing_ends env page fuel ->
  exists E n, enum_from env fuel page ids = Some (E, n).
Proof.
  revert page ids. induction fuel as [|fuel IH]; intros page ids (p & Hp & He);
    [lia|]. simpl.
  destruct (list_workouts env page 10) as [e|[|x ws]] eqn:Hpage; eauto.
  destruct (length (x :: ws) <? 10); eauto.
  destruct (IH (page + 1) (ids ∪ page_ids (x :: ws))) as (E & n & ->); eauto.
  exists p. split; [|exact He].
  destruct (decide (p = page)) as [->|Hne]; [|lia].
  unfold ends_at in He. now rewrite Hpage in He.
Qed.

(** The upsert loop absorbs every exception, and returns once the listing
    ends. *)
Lemma upsert_pages_quiet env fuel page : quiet (upsert_pages env fuel page).
Proof.
  revert page. induction fuel as [|fuel IH]; intros page w e w'; simpl;
    [discriminate|].
  unfold bind at 1.
  match goal with |- context [try_except ?m ?h w] =>
    pose proof (quiet_try_ret m (fun _ => Break tt) w) as Q;
    change (try_except m h w) with
      (try_except m (fun e => ret ((fun _ => Break tt) e)) w);
    destruct (try_except m (fun e => ret ((fun _ => Break tt) e)) w)
      as [[a|a] w1|e1 w1|]
  end.
  - discriminate.
  - apply IH.
  - now destruct (Q e1 w1).
  - discriminate.
Qed.

Lemma upsert_pages_returns env fuel page w :
  listing_ends env page fuel ->
  exists w', upsert_pages env fuel page w = Returns tt w'.
Proof.
  revert page w. induction fuel as [|fuel IH]; intros page w (p & Hp & He);
    [lia|]. simpl.
  unfold bind at 1. unfold try_except. unfold bind at 1.
  unfold call_list_workouts, remote_call.
  destruct (list_workouts env page 10) as [e|[|x ws]] eqn:Hpage;
    try (eexists; reflexivity).
  assert (Hnext : listing_ends env (page + 1) fuel).
  { exists p. split; [|exact He].
    destruct (decide (p = page)) as [->|Hne]; [|lia].
    unfold ends_at in He. now rewrite Hpage in He. }
  unfold bind.
  pose proof (halts_get_db env _
    (halts_for_each _ (x :: ws) (halts_process_workout env))
    (add_log (ReqListWorkouts page 10) w)) as Hh.
  destruct (get_db env (for_each (process_workout env) (x :: ws)) _)
    as [[] w1|e w1|]; [|eexists; reflexivity|contradiction].
  unfold ret. apply IH, Hnext.
Qed.

Lemma sync_after_deletion_cases env fuel hevy n loc w :
  match sync_after_deletion env fuel hevy n loc w with
  | Returns s w' => True
  | Raises _ _ => False
  | OutOfFuel => ~ listing_ends env 1 fuel
  end.
Proof.
  unfold sync_after_deletion, bind, modify_frame.
  pose proof (upsert_pages_quiet env fuel 1 (set_frame zero_counters w)) as Q.
  destruct (upsert_pages env fuel 1 _) as [[] w3|e w3|] eqn:U.
  - destruct (sync_exercise_templates_returns env w3) as (es & w4 & ->).
    exact I.
  - now destruct (Q e w3).
  - intros Hl.
    destruct (upsert_pages_returns env fuel 1 (set_frame zero_counters w) Hl)
      as [w' Hw']. congruence.
Qed.

(** With a deletion transaction that meets no failure and a listing that
    ends, the run returns. *)
Lemma sync_first_page_total env page page_size fuel w :
  (forall n, clock w <= n < clock w + 5 -> db_fault env n = None) ->
  listing_ends env 1 fuel ->
  exists s w', sync_first_page env page page_size fuel w = Returns s w'.
Proof.
  intros Hok Hends. unfold sync_first_page, bind.
  rewrite enumerate_ids_spec.
  destruct (enum_from_ends env fuel 1 ∅ Hends) as (E & k & ->).
  unfold sync_after_enumeration, bind.
  pose proof (reconcile_cases env E (add_logs (list_reqs 1 k) w)) as R.
  simpl in R.
  destruct (reconcile env E _) as [del w2|e2 w2|]; [| |contradiction].
  + pose proof (sync_after_deletion_cases env fuel E del.1 del.2 w2) as C.
    destruct (sync_after_deletion env fuel E del.1 del.2 w2)
      as [s w'|e w'|]; [eauto|contradiction|contradiction].
  + destruct R as (_ & _ & _ & n & Hn & Hf). rewrite Hok in Hf by exact Hn.
    discriminate.
Qed.

(** * C3: which exceptions reach the caller *)

Lemma first_fault_Some env c n t e :
  first_fault env c n = Some (t, e) <->
  c <= t < c + n /\ db_fault env t = Some e /\
  forall m, c <= m < t -> db_fault env m = None.
Proof.
  revert c. induction n as [|n IH]; intros c; simpl.
  - split; [discriminate|]. intros [? _]. lia.
  - destruct (db_fault env c) as [e0|] eqn:F.
    + split.
      * intros [= <- <-]. split; [lia|]. split; [exact F|]. intros m Hm. lia.
      * intros (Ht & Hf & Hm).
        destruct (decide (t = c)) as [->|Hne]; [congruence|].
        rewrite (Hm c) in F by lia. discriminate.
    + rewrite IH. split.
      * intros (Ht & Hf & Hm). split; [lia|]. split; [exact Hf|].
        intros m Hlt. destruct (decide (m = c)) as [->|Hne]; [exact F|].
        apply Hm. lia.
      * intros (Ht & Hf & Hm).
        assert (t <> c) by congruence.
        split; [lia|]. split; [exact Hf|]. intros m Hlt. apply Hm. lia.
Qed.

Lemma first_fault_None env c n :
  first_fault env c n = None <->
  forall m, c <= m < c + n -> db_fault env m = None.
Proof.
  revert c. induction n as [|n IH]; intros c; simpl.
  - split; [intros _ m Hm; lia|reflexivity].
  - destruct (db_fault env c) as [e0|] eqn:F.
    + split; [discriminate|]. intros H. rewrite (H c) in F by lia.
      discriminate.
    + rewrite IH. split; intros H m Hm.
      * destruct (decide (m = c)) as [->|Hne]; [exact F|]. apply H. lia.
      * apply H. lia.
Qed.

(** The deletion block, interaction by interaction: it raises the first
    failure met among its three or five interactions, with the tables
    rolled back, and otherwise returns with [local - remote] deleted. *)
Lemma reconcile_exact env hevy w :
  reconcile env hevy w =
  let loc := dom (workouts (db w)) in
  match first_fault env (clock w) (deletion_steps (loc ∖ hevy)) with
  | Some (t, e) =>
      Raises e {| db := db w; log := log w; clock := S t; frame := frame w |}
  | None =>
      Returns (size (loc ∖ hevy), loc)
              {| db := purge (loc ∖ hevy) (db w); log := log w;
                 clock := clock w + deletion_steps (loc ∖ hevy);
                 frame := frame w |}
  end.
Proof.
  unfold reconcile, get_db, bind, db_exec, ret, deletion_steps. cbv zeta.
  destruct w as [d l c f]. simpl.
  destruct (decide (dom (workouts d) ∖ hevy = ∅)) as [He|He]; simpl.
  - destruct (db_fault env c) as [e|]; simpl; [reflexivity|].
    destruct (db_fault env (S c)) as [e|]; simpl; [reflexivity|].
    destruct (decide (dom (workouts d) ∖ hevy = ∅)) as [Hd|Hd];
      [|contradiction].
    simpl. destruct (db_fault env (S (S c))) as [e|]; simpl; [reflexivity|].
    rewrite He, size_empty, purge_empty. unfold tick, set_db. simpl.
    do 2 f_equal. lia.
  - destruct (db_fault env c) as [e|]; simpl; [reflexivity|].
    destruct (db_fault env (S c)) as [e|]; simpl; [reflexivity|].
    destruct (decide (dom (workouts d) ∖ hevy = ∅)) as [Hd|Hd];
      [contradiction|].
    simpl. destruct (db_fault env (S (S c))) as [e|]; simpl; [reflexivity|].
    destruct (db_fault env (S (S (S c)))) as [e|]; simpl; [reflexivity|].
    destruct (db_fault env (S (S (S (S c))))) as [e|]; simpl; [reflexivity|].
    unfold tick, set_db, purge. simpl. do 2 f_equal. lia.
Qed.

(** C3 (as the code has it). An exception leaves [sync_first_page]
    exactly when the store fails inside the deletion transaction, that is
    at one of its interactions (opening it, reading the local ids, the two
    deletes when [local - remote] is not empty, the commit): the first such
    failure propagates, with the tables rolled back.  Nothing else reaches
    the caller: when the deletion transaction meets no failure and the
    workout listing ends, the run returns a summary, whatever the remote
    does and whatever store failures follow in the upsert pass or in the
    catalogue sync.  [E] is the set of ids the enumeration collected. *)
Theorem sync_raises_only_from_deletion env page page_size fuel w E k :
  enum_from env fuel 1 ∅ = Some (E, k) ->
  let steps := deletion_steps (dom (workouts (db w)) ∖ E) in
  (forall e w',
     sync_first_page env page page_size fuel w = Raises e w' <->
     exists t,
       clock w <= t < clock w + steps /\
       db_fault env t = Some e /\
       (forall m, clock w <= m < t -> db_fault env m = None) /\
       w' = {| db := db w; log := log w ++ list_reqs 1 k;
               clock := S t; frame := frame w |}) /\
  ((forall t, clock w <= t < clock w + steps -> db_fault env t = None) ->
   listing_ends env 1 fuel ->
   exists s w', sync_first_page env page page_size fuel w = Returns s w').
Proof.
  intros He steps.
  assert (Hrun : sync_first_page env page page_size fuel w =
                 sync_after_enumeration env fuel E
                   (add_logs (list_reqs 1 k) w)).
  { unfold sync_first_page, bind. now rewrite enumerate_ids_spec, He. }
  rewrite Hrun. unfold sync_after_enumeration, bind.
  rewrite reconcile_exact. cbv zeta.
  change (db (add_logs (list_reqs 1 k) w)) with (db w).
  change (clock (add_logs (list_reqs 1 k) w)) with (clock w).
  change (log (add_logs (list_reqs 1 k) w)) with (log w ++ list_reqs 1 k).
  change (frame (add_logs (list_reqs 1 k) w)) with (frame w).
  fold steps.
  destruct (first_fault env (clock w) steps) as [[t0 e0]|] eqn:F.
  - apply first_fault_Some in F as (Ht & Hf & Hm). split.
    + intros e w'. split.
      * intros [= <- <-]. exists t0. auto.
      * intros (t & Ht' & Hf' & Hm' & ->).
        assert (t = t0) as ->.
        { destruct (Nat.lt_trichotomy t t0) as [Hlt|[->|Hgt]];
            [|reflexivity|].
          - rewrite (Hm t) in Hf' by lia. discriminate.
          - rewrite (Hm' t0) in Hf by lia. discriminate. }
        congruence.
    + intros Hok. rewrite (Hok t0 Ht) in Hf. discriminate.
  - pose proof (proj1 (first_fault_None _ _ _) F) as Hnone. simpl.
    match goal with |- context [sync_after_deletion env fuel E ?a ?b ?w0] =>
      pose proof (sync_after_deletion_cases env fuel E a b w0) as C;
      destruct (sync_after_deletion env fuel E a b w0) as [s w1|e1 w1|]
    end.
    + split.
      * intros e w'. split; [discriminate|].
        intros (t & Ht & Hf & _). rewrite (Hnone t Ht) in Hf. discriminate.
      * intros _ _. eauto.
    + contradiction.
    + split.
      * intros e w'. split; [discriminate|].
        intros (t & Ht & Hf & _). rewrite (Hnone t Ht) in Hf. discriminate.
      * intros _ Hends. contradiction.
Qed.

(** * C8: an empty exercise catalogue *)

Lemma fetch_templates_empty env fuel w :
  no_templates env ->
  fetch_templates env (S fuel) 1 [] w
    = Returns [] (add_log (ReqListTemplates 1 100) w).
Proof.
  unfold no_templates. intros H. simpl. unfold bind at 1.
  unfold try_except, bind, call_list_exercise_templates, remote_call.
  destruct (list_exercise_templates env 1 100) as [e|[|t ts]];
    [reflexivity|reflexivity|contradiction].
Qed.

Lemma sync_exercise_templates_empty env w :
  no_templates env ->
  sync_exercise_templates env w
    = Returns no_templates_result (add_log (ReqListTemplates 1 100) w).
Proof.
  intros H. unfold sync_exercise_templates, try_except, bind.
  now rewrite (fetch_templates_empty env 99 w H).
Qed.

(** C8. When the template pagination accumulates nothing, the catalogue
    sync returns the result with status [error] and [imported_count] 0 and
    has not talked to the database at all; a run that returns carries that
    result in its summary and leaves the [exercises] table as it was; and
    the empty catalogue does not keep the run from returning. *)
Theorem empty_catalog_is_reported_not_fatal env :
  no_templates env ->
  (forall w,
     sync_exercise_templates env w
       = Returns no_templates_result (add_log (ReqListTemplates 1 100) w)) /\
  es_status no_templates_result = "error" /\
  es_imported_count no_templates_result = 0 /\
  (forall page page_size fuel w s w',
     sync_first_page env page page_size fuel w = Returns s w' ->
     exercise_sync s = no_templates_result /\
     exercises (db w') = exercises (db w)) /\
  (forall page page_size fuel w,
     (forall n, clock w <= n < clock w + 5 -> db_fault env n = None) ->
     listing_ends env 1 fuel ->
     exists s w',
       sync_first_page env page page_size fuel w = Returns s w' /\
       exercise_sync s = no_templates_result).
Proof.
  intros Hno.
  assert (Hrun : forall page page_size fuel w s w',
     sync_first_page env page page_size fuel w = Returns s w' ->
     exercise_sync s = no_templates_result /\
     exercises (db w') = exercises (db w)).
  { intros page page_size fuel w s w' Hs.
    destruct (sync_first_page_returns _ _ _ _ _ _ _ Hs)
      as (E & k & w2 & w3 & es & He & Hrec & Hdb & Hup & Hex & ->).
    rewrite (sync_exercise_templates_empty env w3 Hno) in Hex.
    injection Hex as <- <-. split; [reflexivity|]. simpl.
    set (J := fun d : Db => exercises d = exercises (db w)).
    assert (HL : forall (l : list Request) (r : Request),
              True -> wellformed_request r -> True) by auto.
    assert (H3 : holds J (fun _ => True) w3).
    { eapply (keeps_final _ _ (upsert_pages env fuel 1)
                (set_frame zero_counters w2)).
      - apply keeps_upsert_pages; [exact HL| |]; unfold J.
        + intros x id d _ _ Hd. exact Hd.
        + intros x id detail d _ _ Hd. exact Hd.
      - split; [|exact I]. unfold J. simpl. now rewrite Hdb.
      - now rewrite Hup. }
    apply H3. }
  split; [intros w; now apply sync_exercise_templates_empty|].
  split; [reflexivity|]. split; [reflexivity|]. split; [exact Hrun|].
  intros page page_size fuel w Hok Hends.
  destruct (sync_first_page_total env page page_size fuel w Hok Hends)
    as (s & w' & Hs).
  exists s, w'. split; [exact Hs|]. now apply (Hrun _ _ _ _ _ _ Hs).
Qed.

(** * Runs on a store that does not fail *)

Lemma acts_ret : acts (ret tt) (fun d => d) (fun c => c).
Proof. intros w. now exists w. Qed.

Lemma acts_seq m1 m2 F1 G1 F2 G2 :
  acts m1 F1 G1 -> acts m2 F2 G2 ->
  acts (m1 ;;; m2) (fun d => F2 (F1 d)) (fun c => G2 (G1 c)).
Proof.
  intros H1 H2 w. destruct (H1 w) as (w1 & E1 & D1 & C1).
  destruct (H2 w1) as (w2 & E2 & D2 & C2).
  exists w2. unfold bind. rewrite E1, E2, D2, C2, D1, C1. auto.
Qed.

Lemma acts_ext m F G F' G' :
  acts m F G -> (forall d, F d = F' d) -> (forall c, G c = G' c) ->
  acts m F' G'.
Proof.
  intros H HF HG w. destruct (H w) as (w' & E & D & C).
  exists w'. now rewrite <- HF, <- HG.
Qed.

Lemma acts_for_each {A} (body : A -> M unit) (F : Db -> A -> Db)
    (G : Counters -> A -> Counters) l :
  (forall x, acts (body x) (fun d => F d x) (fun c => G c x)) ->
  acts (for_each body l) (fun d => foldl F d l) (fun c => foldl G c l).
Proof.
  intros Hb. induction l as [|x l IH]; simpl.
  - apply acts_ret.
  - eapply acts_ext; [apply (acts_seq _ _ _ _ _ _ (Hb x) IH)| |]; reflexivity.
Qed.

Lemma acts_db_exec env f F :
  reliable env -> (forall d, f d = Some (tt, F d)) ->
  acts (db_exec env f) F (fun c => c).
Proof.
  intros Hr Hf w. unfold db_exec. rewrite Hr, Hf.
  eexists. split; [reflexivity|]. split; reflexivity.
Qed.

Lemma acts_get_db env m F G :
  reliable env -> acts m F G -> acts (get_db env m) F G.
Proof.
  intros Hr Hm w. unfold get_db, bind, db_exec. rewrite Hr. simpl.
  destruct (Hm (tick (set_db (db w) w))) as (w1 & E1 & D1 & C1).
  rewrite E1, Hr. simpl. eexists. split; [reflexivity|].
  simpl. rewrite D1, C1. split; reflexivity.
Qed.

Lemma acts_modify_frame g : acts (modify_frame g) (fun d => d) g.
Proof. intros w. eexists. split; [reflexivity|]. split; reflexivity. Qed.

Lemma acts_process_workout env x :
  reliable env ->
  acts (process_workout env x) (fun d => apply_workout env d x)
       (fun c => count_workout env c x).
Proof.
  intros Hr w. unfold process_workout, apply_workout, count_workout,
    submitted_rows.
  change (wr_id (Mappers.to_workout_row x)) with (rw_id x).
  unfold bind at 1. unfold incr_seen, modify_frame.
  destruct (rw_id x) as [id|] eqn:Hid.
  2:{ eexists. split; [reflexivity|]. simpl. split; [reflexivity|].
      f_equal; lia. }
  destruct (truthy (Some id)) eqn:Ht; simpl.
  2:{ eexists. split; [reflexivity|]. simpl. split; [reflexivity|].
      f_equal; lia. }
  unfold bind at 1. unfold try_except. unfold bind at 1.
  unfold upsert_workout, db_exec. rewrite Hr. simpl.
  unfold Repo.upsert_workout_sql. simpl. rewrite Hid. simpl.
  unfold bind at 1. unfold incr_upserted, modify_frame. simpl.
  unfold bind at 1. unfold try_except. unfold bind at 1.
  unfold call_get_workout, remote_call.
  destruct (get_workout env id) as [e|detail]; simpl.
  { eexists. split; [reflexivity|]. simpl. split; [reflexivity|].
    f_equal; lia. }
  unfold try_except.
  destruct (Mappers.to_set_rows id detail) as [|r rows] eqn:Hrows.
  { eexists. split; [reflexivity|]. simpl. split; [reflexivity|].
    f_equal; lia. }
  unfold insert_sets_bulk, bind, db_exec. simpl. rewrite Hr. simpl.
  eexists. split; [reflexivity|]. simpl. split; [reflexivity|].
  f_equal; lia.
Qed.

Lemma pages_from_ends env fuel page :
  listing_ends env page fuel -> exists all, pages_from env fuel page = Some all.
Proof.
  revert page. induction fuel as [|fuel IH]; intros page (p & Hp & He); [lia|].
  simpl. destruct (list_workouts env page 10) as [e|[|x ws]] eqn:Hpage; eauto.
  destruct (IH (page + 1)) as (rest & ->); eauto.
  exists p. split; [|exact He].
  destruct (decide (p = page)) as [->|Hne]; [|lia].
  unfold ends_at in He. now rewrite Hpage in He.
Qed.

Lemma pages_from_served env fuel page all x :
  pages_from env fuel page = Some all -> x ∈ all -> served env x.
Proof.
  revert page all. induction fuel as [|fuel IH]; intros page all;
    [discriminate|]. simpl.
  destruct (list_workouts env page 10) as [e|[|y ws]] eqn:Hpage;
    try (intros [= <-] Hx; now apply elem_of_nil in Hx).
  destruct (pages_from env fuel (page + 1)) as [rest|] eqn:Hrest;
    [|discriminate].
  intros [= <-] Hx. change (x ∈ (y :: ws) ++ rest) in Hx.
  apply elem_of_app in Hx as [Hx|Hx].
  - now exists page, (y :: ws).
  - eapply IH; eauto.
Qed.

Lemma acts_upsert_pages env fuel page all :
  reliable env -> pages_from env fuel page = Some all ->
  acts (upsert_pages env fuel page)
       (fun d => foldl (apply_workout env) d all)
       (fun c => foldl (count_workout env) c all).
Proof.
  intros Hr. revert page all.
  induction fuel as [|fuel IH]; intros page all; [discriminate|]. simpl.
  intros Hall w. unfold bind at 1. unfold try_except. unfold bind at 1.
  unfold call_list_workouts, remote_call.
  destruct (list_workouts env page 10) as [e|[|x ws]] eqn:Hpage.
  - injection Hall as <-. eexists. split; [reflexivity|]. split; reflexivity.
  - injection Hall as <-. eexists. split; [reflexivity|]. split; reflexivity.
  - destruct (pages_from env fuel (page + 1)) as [rest|] eqn:Hrest;
      [|discriminate]. injection Hall as <-.
    unfold bind at 1.
    destruct (acts_get_db env _ _ _ Hr
                (acts_for_each _ _ _ (x :: ws)
                   (fun y => acts_process_workout env y Hr))
                (add_log (ReqListWorkouts page 10) w))
      as (w1 & E1 & D1 & C1).
    rewrite E1. unfold ret.
    destruct (IH _ _ Hrest w1) as (w2 & E2 & D2 & C2).
    exists w2. change (x :: ws ++ rest) with ((x :: ws) ++ rest).
    rewrite !foldl_app, D2, C2, D1, C1. auto.
Qed.

(** ** The tables after the upsert pass, in closed form *)

Lemma apply_workout_workouts env d w :
  workouts (apply_workout env d w)
    = list_to_map (reverse (upserts [w])) ∪ workouts d.
Proof.
  unfold apply_workout, upserts. simpl.
  destruct (rw_id w) as [id|]; simpl;
    [|now rewrite (left_id_L ∅ (∪))].
  destruct (negb (String.eqb id "")); simpl;
    [|now rewrite (left_id_L ∅ (∪))].
  rewrite insert_empty, <- insert_union_singleton_l.
  now destruct (get_workout env id).
Qed.

Lemma apply_workout_sets env d w :
  sets (apply_workout env d w) = sets d ∪ rows_map (submitted_rows env w).
Proof.
  unfold apply_workout, submitted_rows, rows_map.
  destruct (rw_id w) as [id|]; simpl;
    [|now rewrite (right_id_L ∅ (∪))].
  destruct (negb (String.eqb id "")); simpl;
    [|now rewrite (right_id_L ∅ (∪))].
  destruct (get_workout env id) as [e|detail]; simpl.
  - now rewrite (right_id_L ∅ (∪)).
  - apply insert_sets_sql_union.
Qed.

Lemma apply_workout_exercises env d w :
  exercises (apply_workout env d w) = exercises d.
Proof.
  unfold apply_workout. destruct (rw_id w) as [id|]; [|reflexivity].
  destruct (truthy (Some id)); [|reflexivity].
  now destruct (get_workout env id).
Qed.

Lemma upserts_cons w all : upserts (w :: all) = upserts [w] ++ upserts all.
Proof.
  unfold upserts. simpl. destruct (rw_id w) as [id|]; [|reflexivity].
  simpl. now destruct (negb (String.eqb id "")).
Qed.

Lemma rows_map_app l1 l2 : rows_map (l1 ++ l2) = rows_map l1 ∪ rows_map l2.
Proof. unfold rows_map. now rewrite fmap_app, list_to_map_app. Qed.

Lemma foldl_apply_workouts env all d :
  workouts (foldl (apply_workout env) d all)
    = list_to_map (reverse (upserts all)) ∪ workouts d.
Proof.
  revert d. induction all as [|w all IH]; intros d.
  - simpl. now rewrite (left_id_L ∅ (∪)).
  - cbn [foldl].
    rewrite IH, apply_workout_workouts, (upserts_cons w all), reverse_app,
      list_to_map_app. now rewrite (assoc_L (∪)).
Qed.

Lemma foldl_apply_sets env all d :
  sets (foldl (apply_workout env) d all)
    = sets d ∪ rows_map (submitted env all).
Proof.
  revert d. induction all as [|w all IH]; intros d.
  - change (rows_map (submitted env [])) with (∅ : gmap string SetRow).
    simpl. now rewrite (right_id_L ∅ (∪)).
  - cbn [foldl]. rewrite IH, apply_workout_sets.
    change (submitted env (w :: all))
      with (submitted_rows env w ++ submitted env all).
    now rewrite rows_map_app, (assoc_L (∪)).
Qed.

Lemma foldl_apply_exercises env all d :
  exercises (foldl (apply_workout env) d all) = exercises d.
Proof.
  revert d. induction all as [|w all IH]; intros d; simpl; [reflexivity|].
  now rewrite IH, apply_workout_exercises.
Qed.

Lemma foldl_count_sets_total env all c :
  sets_total (foldl (count_workout env) c all)
    = sets_total c + length (submitted env all).
Proof.
  revert c. induction all as [|w all IH]; intros c; [simpl; lia|].
  cbn [foldl]. rewrite IH.
  change (submitted env (w :: all))
    with (submitted_rows env w ++ submitted env all).
  rewrite length_app. simpl. lia.
Qed.

Lemma Db_eq d d' :
  workouts d = workouts d' -> sets d = sets d' ->
  exercises d = exercises d' -> d = d'.
Proof. destruct d, d'. simpl. now intros -> -> ->. Qed.

(** Running the upsert pass again over the tables it produced changes
    nothing. *)
Lemma foldl_apply_idempotent env all d :
  foldl (apply_workout env) (foldl (apply_workout env) d all) all
    = foldl (apply_workout env) d all.
Proof.
  apply Db_eq.
  - rewrite (foldl_apply_workouts env all (foldl _ _ _)), foldl_apply_workouts.
    now rewrite (assoc_L (∪)), (idemp_L (∪)).
  - rewrite (foldl_apply_sets env all (foldl _ _ _)), foldl_apply_sets.
    now rewrite <- (assoc_L (∪)), (idemp_L (∪)).
  - now rewrite !foldl_apply_exercises.
Qed.

(** ** The catalogue sync leaves the counters alone *)

Lemma same_frame_ret {A} (a : A) : same_frame (ret a).
Proof. intros w. reflexivity. Qed.

Lemma same_frame_raise {A} e : same_frame (@raise A e).
Proof. intros w. reflexivity. Qed.

Lemma same_frame_bind {A B} (m : M A) (f : A -> M B) :
  same_frame m -> (forall a, same_frame (f a)) -> same_frame (bind m f).
Proof.
  intros Hm Hf w. unfold bind. specialize (Hm w).
  destruct (m w) as [a w1|e w1|]; auto.
  specialize (Hf a w1). destruct (f a w1); congruence.
Qed.

Lemma same_frame_try_except {A} (m : M A) h :
  same_frame m -> (forall e, same_frame (h e)) -> same_frame (try_except m h).
Proof.
  intros Hm Hh w. unfold try_except. specialize (Hm w).
  destruct (m w) as [a w1|e w1|]; auto.
  specialize (Hh e w1). destruct (h e w1); congruence.
Qed.

Lemma same_frame_db_exec env {A} (f : Db -> option (A * Db)) :
  same_frame (db_exec env f).
Proof.
  intros w. unfold db_exec. destruct (db_fault env (clock w)); [reflexivity|].
  destruct (f (db w)) as [[a d]|]; reflexivity.
Qed.

Lemma same_frame_get_db env {A} (body : M A) :
  same_frame body -> same_frame (get_db env body).
Proof.
  intros Hb w. unfold get_db.
  assert (K : same_frame (db_exec env (fun d => Some (tt, d)) ;;;
                          r <~ body ;;
                          db_exec env (fun d => Some (tt, d)) ;;; ret r)).
  { apply same_frame_bind; [apply same_frame_db_exec|intros _].
    apply same_frame_bind; [exact Hb|intros r].
    apply same_frame_bind; [apply same_frame_db_exec|intros _].
    apply same_frame_ret. }
  specialize (K w).
  match goal with |- match match ?o with _ => _ end with _ => _ end =>
    destruct o end; auto.
Qed.

Lemma same_frame_remote_call {A} r (answer : exn + A) :
  same_frame (remote_call r answer).
Proof. intros w. unfold remote_call. destruct answer; reflexivity. Qed.

Lemma same_frame_sync_exercise_templates env :
  same_frame (sync_exercise_templates env).
Proof.
  unfold sync_exercise_templates.
  apply same_frame_try_except; [|intros e; apply same_frame_ret].
  apply same_frame_bind.
  - generalize 100 at 1. generalize 1. generalize (@nil Template).
    intros acc page fuel. revert page acc.
    induction fuel as [|fuel IH]; intros page acc; simpl.
    + intros w. exact I.
    + apply same_frame_bind.
      * apply same_frame_try_except; [|intros _; apply same_frame_ret].
        apply same_frame_bind; [apply same_frame_remote_call|].
        intros [|t ts]; [apply same_frame_ret|].
        destruct (_ <? _); apply same_frame_ret.
      * intros [a|a]; [apply same_frame_ret|apply IH].
  - intros [|t ts]; [apply same_frame_ret|].
    apply same_frame_bind; [|intros n; apply same_frame_ret].
    apply same_frame_get_db, same_frame_bind;
      [apply same_frame_db_exec|intros _].
    generalize 0. induction (t :: ts) as [|x l IH]; intros n; simpl.
    + apply same_frame_ret.
    + apply same_frame_bind; [|intros m; apply IH].
      unfold import_template.
      destruct (t_title x); try apply same_frame_raise;
        (destruct (String.eqb _ _); [apply same_frame_ret|]);
        (apply same_frame_bind;
           [apply same_frame_db_exec|intros _; apply same_frame_ret]).
Qed.

(** ** The whole run on a reliable store *)

Lemma sync_first_page_reliable env page page_size fuel w E n all :
  reliable env ->
  enum_from env fuel 1 ∅ = Some (E, n) ->
  pages_from env fuel 1 = Some all ->
  let d' := foldl (apply_workout env)
                  (purge (dom (workouts (db w)) ∖ E) (db w)) all in
  exists s w',
    sync_first_page env page page_size fuel w = Returns s w' /\
    workouts (db w') = workouts d' /\
    sets (db w') = sets d' /\
    sets_inserted s = length (submitted env all) /\
    workouts_deleted s = size (dom (workouts (db w)) ∖ E).
Proof.
  intros Hr He Hall d'. unfold sync_first_page, bind.
  rewrite enumerate_ids_spec, He.
  unfold sync_after_enumeration, bind.
  pose proof (reconcile_cases env E (add_logs (list_reqs 1 n) w)) as R.
  simpl in R.
  destruct (reconcile env E _) as [del w2|e2 w2|]; [| |contradiction].
  2:{ destruct R as (_ & _ & _ & k & _ & Hk). now rewrite Hr in Hk. }
  destruct R as (-> & Hdb & _ & _). simpl.
  unfold sync_after_deletion, bind, modify_frame.
  destruct (acts_upsert_pages env fuel 1 all Hr Hall
              (set_frame zero_counters w2)) as (w3 & -> & D3 & C3).
  simpl in D3, C3.
  destruct (sync_exercise_templates_returns env w3) as (es & w4 & Hx).
  pose proof (same_frame_sync_exercise_templates env w3) as F4.
  rewrite Hx in F4 |- *.
  assert (H4 : holds (fun d => workouts d = workouts (db w3) /\
                               sets d = sets (db w3)) (fun _ => True) w4).
  { eapply (keeps_final _ _ (sync_exercise_templates env) w3).
    - apply keeps_sync_exercise_templates; [auto|]. intros d m Hd. exact Hd.
    - repeat split.
    - now rewrite Hx. }
  destruct H4 as [[HW HS] _].
  unfold get_frame, ret. eexists. eexists. split; [reflexivity|]. simpl.
  rewrite HW, HS, D3, Hdb, F4, C3, foldl_count_sets_total. auto.
Qed.

(** * C10: what a second run over the same remote counts *)

Lemma enum_from_mono env fuel page ids E n :
  enum_from env fuel page ids = Some (E, n) -> ids ⊆ E.
Proof.
  revert page ids E n. induction fuel as [|fuel IH]; intros page ids E n;
    [discriminate|]. simpl.
  destruct (list_workouts env page 10) as [e|[|x ws]].
  - now intros [= <- _].
  - now intros [= <- _].
  - destruct (length (x :: ws) <? 10).
    + intros [= <- _]. set_solver.
    + destruct (enum_from env fuel (page + 1) _) as [[E' n']|] eqn:Hrec;
        [|discriminate].
      intros [= <- _]. apply IH in Hrec. set_solver.
Qed.

Lemma page_ids_elem ws w id :
  w ∈ ws -> rw_id w = Some id -> truthy (Some id) = true -> id ∈ page_ids ws.
Proof.
  intros Hw Hid Ht. unfold page_ids. apply elem_of_list_to_set.
  apply list_elem_of_omap. exists w. split; [exact Hw|].
  now rewrite Hid, Ht.
Qed.

(** Under the contract both traversals see the same workouts: every id the
    upsert pass writes was collected by the enumeration. *)
Lemma enum_covers env fuel page ids E n all w id :
  paginated env ->
  enum_from env fuel page ids = Some (E, n) ->
  pages_from env fuel page = Some all ->
  w ∈ all -> rw_id w = Some id -> truthy (Some id) = true -> id ∈ E.
Proof.
  intros Hc. revert page ids E n all.
  induction fuel as [|fuel IH]; intros page ids E n all; [discriminate|].
  simpl.
  destruct (list_workouts env page 10) as [e|[|x ws]] eqn:Hpage.
  - intros _ [= <-] Hw. now apply elem_of_nil in Hw.
  - intros _ [= <-] Hw. now apply elem_of_nil in Hw.
  - destruct (pages_from env fuel (page + 1)) as [rest|] eqn:Hrest;
      [|discriminate].
    destruct (length (x :: ws) <? 10) eqn:Hlt.
    + intros [= <- _] [= <-] Hw Hid Ht.
      apply Nat.ltb_lt in Hlt. pose proof (Hc _ _ _ Hpage Hlt) as Hend.
      assert (rest = []) as ->.
      { destruct fuel as [|fuel']; [discriminate|]. simpl in Hrest.
        unfold ends_at in Hend.
        destruct (list_workouts env (page + 1) 10) as [e|[|y ys]];
          [congruence|congruence|contradiction]. }
      rewrite app_nil_r in Hw. apply elem_of_union_r.
      eapply page_ids_elem; eauto.
    + destruct (enum_from env fuel (page + 1) _) as [[E' n']|] eqn:Hrec;
        [|discriminate].
      intros [= <- _] [= <-] Hw Hid Ht.
      change (w ∈ (x :: ws) ++ rest) in Hw.
      apply elem_of_app in Hw as [Hw|Hw].
      * apply (enum_from_mono _ _ _ _ _ _ Hrec). apply elem_of_union_r.
        eapply page_ids_elem; eauto.
      * eapply IH; eauto.
Qed.

Lemma upserts_elem all k v :
  (k, v) ∈ upserts all ->
  exists w, w ∈ all /\ rw_id w = Some k /\ truthy (Some k) = true.
Proof.
  unfold upserts. intros (w & Hw & Hf)%list_elem_of_omap.
  exists w. split; [exact Hw|].
  destruct (rw_id w) as [id|]; [|discriminate].
  destruct (truthy (Some id)) eqn:Ht; [|discriminate].
  injection Hf as -> _. auto.
Qed.

(** Two runs in a row over the same remote, with a store that does not
    fail. *)
Lemma two_runs env page page_size fuel E n all w :
  reliable env -> paginated env ->
  enum_from env fuel 1 ∅ = Some (E, n) ->
  pages_from env fuel 1 = Some all ->
  exists s1 w1 s2 w2,
    sync_first_page env page page_size fuel w = Returns s1 w1 /\
    sync_first_page env page page_size fuel w1 = Returns s2 w2 /\
    workouts (db w2) = workouts (db w1) /\
    sets (db w2) = sets (db w1) /\
    workouts_deleted s2 = 0 /\
    sets_inserted s1 = length (submitted env all) /\
    sets_inserted s2 = length (submitted env all) /\
    (forall r, r ∈ submitted env all -> is_Some (sets (db w1) !! sr_id r)).
Proof.
  intros Hr Hc He Hall.
  destruct (sync_first_page_reliable env page page_size fuel w E n all
              Hr He Hall) as (s1 & w1 & R1 & W1 & S1 & I1 & _).
  destruct (sync_first_page_reliable env page page_size fuel w1 E n all
              Hr He Hall) as (s2 & w2 & R2 & W2 & S2 & I2 & D2).
  exists s1, w1, s2, w2.
  rewrite foldl_apply_workouts in W1. rewrite foldl_apply_sets in S1.
  assert (Hdel : dom (workouts (db w1)) ∖ E = ∅).
  { apply set_eq. intros k. split; [|set_solver].
    rewrite elem_of_difference. intros [Hk HkE]. exfalso. apply HkE.
    rewrite W1, dom_union_L, elem_of_union, purge_dom in Hk.
    destruct Hk as [Hk|Hk]; [|set_solver].
    apply elem_of_dom in Hk as [v Hv]. apply elem_of_list_to_map_2 in Hv.
    rewrite elem_of_reverse in Hv.
    apply upserts_elem in Hv as (x & Hx & Hid & Ht).
    eapply enum_covers; eauto. }
  rewrite Hdel, purge_empty in W2, S2. rewrite Hdel, size_empty in D2.
  rewrite foldl_apply_workouts in W2. rewrite foldl_apply_sets in S2.
  repeat split; try assumption.
  - rewrite W2, W1. now rewrite (assoc_L (∪)), (idemp_L (∪)).
  - rewrite S2, S1. now rewrite <- (assoc_L (∪)), (idemp_L (∪)).
  - intros r Hin. rewrite S1. apply elem_of_dom. rewrite dom_union_L.
    apply elem_of_union_r. unfold rows_map. rewrite dom_list_to_map_L.
    apply elem_of_list_to_set. rewrite <- list_fmap_compose.
    apply list_elem_of_fmap. now exists r.
Qed.

(** C10. [sets_inserted] is the number of rows handed to the bulk insert,
    whatever the store already holds: every run over the same remote
    reports the total length of the mapped row lists, and a second run
    reports the same number as the first although it adds no set row. *)
Theorem sets_inserted_counts_submitted_rows env page page_size fuel :
  reliable env -> listing_ends env 1 fuel ->
  exists all,
    pages_from env fuel 1 = Some all /\
    (forall w, exists s w',
       sync_first_page env page page_size fuel w = Returns s w' /\
       sets_inserted s = length (submitted env all)) /\
    (paginated env ->
     forall w, exists s1 w1 s2 w2,
       sync_first_page env page page_size fuel w = Returns s1 w1 /\
       sync_first_page env page page_size fuel w1 = Returns s2 w2 /\
       sets_inserted s2 = sets_inserted s1 /\
       sets_inserted s2 = length (submitted env all) /\
       sets (db w2) = sets (db w1) /\
       size (sets (db w2)) = size (sets (db w1))).
Proof.
  intros Hr Hends.
  destruct (enum_from_ends env fuel 1 ∅ Hends) as (E & n & He).
  destruct (pages_from_ends env fuel 1 Hends) as (all & Hall).
  exists all. split; [exact Hall|]. split.
  - intros w.
    destruct (sync_first_page_reliable env page page_size fuel w E n all
                Hr He Hall) as (s & w' & R & _ & _ & Hi & _).
    now exists s, w'.
  - intros Hc w.
    destruct (two_runs env page page_size fuel E n all w Hr Hc He Hall)
      as (s1 & w1 & s2 & w2 & R1 & R2 & _ & HS & _ & I1 & I2 & _).
    exists s1, w1, s2, w2. rewrite HS, I1, I2. repeat split; assumption.
Qed.

(** * Concrete runs *)

Lemma env_bcd_reliable : reliable env_bcd.
Proof. intros n. reflexivity. Qed.

Lemma env_bcd_paginated : paginated env_bcd.
Proof.
  intros page x ws H _. unfold ends_at. simpl in *.
  destruct (decide (page = 1)) as [->|Hp]; [|discriminate].
  exact I.
Qed.

Lemma env_bcd_ends : listing_ends env_bcd 1 5.
Proof. exists 2. split; [lia|exact I]. Qed.

Lemma env_bcd_served x :
  served env_bcd x -> x = workout "B" \/ x = workout "C" \/ x = workout "D".
Proof.
  intros (page & ws & H & Hx). simpl in H.
  destruct (decide (page = 1)); injection H as <-.
  - set_solver.
  - now apply elem_of_nil in Hx.
Qed.

Lemma env_bcd_ids :
  enum_from env_bcd 5 1 ∅ = Some ({["B"; "C"; "D"]}, 1).
Proof. vm_compute. reflexivity. Qed.

(** C4 (the code at the failing input). The remote answers page 1 with
    three workouts, a short page; the upsert pass then asks for page 2.  The
    log of the run: page 1 for the enumeration, page 1 again for the upsert
    pass, the three details, page 2, the templates. *)
Theorem upsert_pass_requests_page_after_short_page :
  list_workouts env_bcd 1 10 = inr [workout "B"; workout "C"; workout "D"] /\
  log <$> final_world (sync_first_page env_bcd 1 10 5 w_abc)
    = Some [ReqListWorkouts 1 10; ReqListWorkouts 1 10;
            ReqGetWorkout "B"; ReqGetWorkout "C"; ReqGetWorkout "D";
            ReqListWorkouts 2 10; ReqListTemplates 1 100].
Proof. split; [reflexivity|]. vm_compute. reflexivity. Qed.

(** The run on A, B, C against B, C, D: A and its set are gone. *)
Lemma reconciliation_deletes_local_minus_remote_witness :
  match sync_first_page env_bcd 1 10 5 w_abc with
  | Returns s w' =>
      "A" ∈ dom (workouts (db w_abc)) /\
      ("A" ∉ dom (workouts (db w'))) /\
      (forall i r, sets (db w') !! i = Some r -> sr_workout_id r <> "A") /\
      workouts_deleted s = 1
  | _ => False
  end.
Proof.
  destruct (sync_first_page env_bcd 1 10 5 w_abc) as [s w'|e w'|] eqn:H.
  - destruct (reconciliation_deletes_local_minus_remote _ _ _ _ _ _ _ H)
      as (E & k & w2 & He & _ & _ & _ & _ & Hdel & Hfin).
    assert (HA : "A" ∈ dom (workouts (db w_abc))).
    { apply elem_of_dom. exists (stored "A"). reflexivity. }
    assert (Hns : forall x, served env_bcd x -> rw_id x <> Some "A").
    { intros x [->|[->| ->]]%env_bcd_served; discriminate. }
    destruct (Hfin "A" HA Hns) as [H1 H2].
    split; [exact HA|]. split; [exact H1|]. split; [exact H2|].
    rewrite Hdel. vm_compute in He. injection He as <- _.
    vm_compute. reflexivity.
  - vm_compute in H. discriminate.
  - vm_compute in H. discriminate.
Defined.

(** The database refuses the connection of the deletion block: the
    exception leaves [sync_first_page]. *)
Lemma store_failure_reaches_caller :
  sync_first_page env_store_down 1 10 5 w_abc
    = Raises (Exn "OperationalError" "connection refused")
             {| db := db_abc; log := [ReqListWorkouts 1 10]; clock := 1;
                frame := zero_counters |}.
Proof. vm_compute. reflexivity. Qed.

(** From an empty store the deletion transaction is the interactions 0,
    1 and 2.  A store that fails at interaction 3 (the opening of the first
    page transaction) lets the run return; the store that refuses
    interaction 0 makes it raise. *)
Lemma sync_raises_only_from_deletion_witness :
  enum_from env_page_begin_fails 5 1 ∅ = Some ({["B"; "C"; "D"]}, 1) /\
  deletion_steps (dom (workouts (db w_empty)) ∖ {["B"; "C"; "D"]}) = 3 /\
  db_fault env_page_begin_fails 3
    = Some (Exn "OperationalError" "connection refused") /\
  (forall t, clock w_empty <= t < clock w_empty + 3 ->
             db_fault env_page_begin_fails t = None) /\
  listing_ends env_page_begin_fails 1 5 /\
  (exists s w',
     sync_first_page env_page_begin_fails 1 10 5 w_empty = Returns s w') /\
  sync_first_page env_store_down 1 10 5 w_empty
    = Raises (Exn "OperationalError" "connection refused")
             {| db := db w_empty; log := log w_empty ++ list_reqs 1 1;
                clock := 1; frame := frame w_empty |}.
Proof.
  assert (Hs : deletion_steps
                 (dom (workouts (db w_empty)) ∖ {["B"; "C"; "D"]}) = 3).
  { unfold deletion_steps. simpl. rewrite dom_empty_L.
    destruct (decide (∅ ∖ {["B"; "C"; "D"]} = (∅ : gset string)))
      as [_|Hne]; [reflexivity|]. exfalso. apply Hne. set_solver. }
  assert (Hok : forall t, clock w_empty <= t < clock w_empty + 3 ->
                          db_fault env_page_begin_fails t = None).
  { intros t Ht. simpl in *. destruct (decide (t = 3)); [lia|reflexivity]. }
  split; [exact env_bcd_ids|]. split; [exact Hs|].
  split; [reflexivity|]. split; [exact Hok|].
  split; [exact env_bcd_ends|]. split.
  - apply (proj2 (sync_raises_only_from_deletion env_page_begin_fails 1 10 5
                    w_empty _ 1 env_bcd_ids)).
    + rewrite Hs. exact Hok.
    + exact env_bcd_ends.
  - apply (proj1 (sync_raises_only_from_deletion env_store_down 1 10 5
                    w_empty _ 1 env_bcd_ids)).
    exists 0. rewrite Hs. split; [simpl; lia|]. split; [reflexivity|].
    split; [intros m Hm; simpl in Hm; lia|reflexivity].
Defined.

(** Page 1 is full, page 2 fails: the ids of page 1 are kept. *)
Lemma enumeration_failure_keeps_partial_ids_witness :
  (forall i, i < 1 -> full_page env_second_page_fails (1 + i)) /\
  page_fails env_second_page_fails (1 + 1) /\
  1 < 3 /\
  enumerate_ids env_second_page_fails 3 1 ∅ w_abc
    = Returns (ids_of_pages env_second_page_fails 1 1)
              (add_logs (list_reqs 1 2) w_abc) /\
  size (ids_of_pages env_second_page_fails 1 1) = 10.
Proof.
  assert (H1 : forall i, i < 1 -> full_page env_second_page_fails (1 + i)).
  { intros i Hi. assert (i = 0) as -> by lia. unfold full_page. simpl. lia. }
  assert (H2 : page_fails env_second_page_fails (1 + 1)) by exact I.
  assert (H3 : 1 < 3) by lia.
  split; [exact H1|]. split; [exact H2|]. split; [exact H3|].
  split.
  - exact (proj1 (enumeration_failure_keeps_partial_ids
                    env_second_page_fails 1 3 1 10 w_abc H1 H2 H3)).
  - vm_compute. reflexivity.
Defined.

(** Missing indices: the row exists and its id reads [w1:None:None]. *)
Lemma set_id_is_function_of_indices_witness :
  exists r,
    r ∈ Mappers.to_set_rows "w1" no_indices /\
    sr_exercise_index r = None /\ sr_set_index r = None /\
    sr_id r = "w1:None:None".
Proof.
  destruct (proj1 (proj2 (proj2 set_id_is_function_of_indices))
              "w1" no_indices _ _ _ (one_set None 8)
              eq_refl (list_elem_of_here _ _) eq_refl (list_elem_of_here _ _))
    as (r & Hr & He & Hs & Hid).
  exists r. repeat split; assumption.
Defined.

(** The stored set of B keeps its single repetition although the remote
    now reports five for the same indices. *)
Lemma stored_sets_are_never_rewritten_witness :
  sets (db w_abc) !! "B:0:0" = Some (stale_set "B") /\
  sr_reps (stale_set "B") = Some (NInt 1) /\
  (exists r, r ∈ Mappers.to_set_rows "B" (two_exercises 5) /\
             sr_id r = "B:0:0" /\ sr_reps r = Some (NInt 5)) /\
  match sync_first_page env_bcd 1 10 5 w_abc with
  | Returns _ w' => sets (db w') !! "B:0:0" = Some (stale_set "B")
  | _ => False
  end.
Proof.
  assert (H0 : sets (db w_abc) !! "B:0:0" = Some (stale_set "B"))
    by reflexivity.
  split; [exact H0|]. split; [reflexivity|]. split.
  { eexists. split; [apply list_elem_of_here|]. split; reflexivity. }
  destruct (sync_first_page env_bcd 1 10 5 w_abc) as [s w'|e w'|] eqn:H.
  - assert (Hf : final_world (sync_first_page env_bcd 1 10 5 w_abc)
                 = Some w') by now rewrite H.
    destruct (proj2 (proj2 stored_sets_are_never_rewritten)
                env_bcd 1 10 5 w_abc w' "B:0:0" (stale_set "B") H0 Hf)
      as [Hk|(E & n & He & Hin)]; [exact Hk|].
    exfalso. rewrite env_bcd_ids in He. injection He as <- _.
    apply elem_of_difference in Hin as [_ Hn]. apply Hn.
    change (sr_workout_id (stale_set "B")) with "B". set_solver.
  - vm_compute in H. discriminate.
  - vm_compute in H. discriminate.
Defined.

Lemma empty_catalog_is_reported_not_fatal_witness :
  no_templates env_bcd /\
  sync_exercise_templates env_bcd w_abc
    = Returns no_templates_result (add_log (ReqListTemplates 1 100) w_abc) /\
  exists s w',
    sync_first_page env_bcd 1 10 5 w_abc = Returns s w' /\
    exercise_sync s = no_templates_result.
Proof.
  assert (H : no_templates env_bcd) by exact I.
  destruct (empty_catalog_is_reported_not_fatal env_bcd H)
    as (H1 & _ & _ & _ & H5).
  split; [exact H|]. split; [apply H1|].
  apply H5; [intros n _; reflexivity|exact env_bcd_ends].
Defined.

Lemma sync_ignores_page_arguments_witness :
  sync_first_page env_bcd 1 10 5 w_abc = sync_first_page env_bcd 7 3 5 w_abc.
Proof.
  exact (proj1 (sync_ignores_page_arguments env_bcd 1 10 7 3 5 w_abc)).
Defined.

(** Both runs report 2 inserted sets; the second adds no row. *)
Lemma sets_inserted_counts_submitted_rows_witness :
  reliable env_bcd /\ listing_ends env_bcd 1 5 /\ paginated env_bcd /\
  exists s1 w1 s2 w2,
    sync_first_page env_bcd 1 10 5 w_abc = Returns s1 w1 /\
    sync_first_page env_bcd 1 10 5 w1 = Returns s2 w2 /\
    sets_inserted s2 = sets_inserted s1 /\
    sets_inserted s2 = 2 /\
    size (sets (db w2)) = size (sets (db w1)).
Proof.
  split; [exact env_bcd_reliable|]. split; [exact env_bcd_ends|].
  split; [exact env_bcd_paginated|].
  destruct (sets_inserted_counts_submitted_rows env_bcd 1 10 5
              env_bcd_reliable env_bcd_ends) as (all & Hall & _ & H2).
  destruct (H2 env_bcd_paginated w_abc)
    as (s1 & w1 & s2 & w2 & R1 & R2 & E1 & E2 & _ & E3).
  exists s1, w1, s2, w2. repeat split; try assumption.
  rewrite E2. vm_compute in Hall. injection Hall as <-.
  vm_compute. reflexivity.
Defined.

(** Why C2 assumes the pagination contract: when a short page is followed
    by more workouts, the enumeration stops before the upsert pass does, and
    the second run deletes what the first one wrote (here it also removes a
    set row that the first run had left alone). *)
Lemma second_run_differs_without_contract :
  exists s1 w1 s2 w2,
    sync_first_page env_short_then_more 1 10 5 w_orphan = Returns s1 w1 /\
    sync_first_page env_short_then_more 1 10 5 w1 = Returns s2 w2 /\
    size (sets (db w1)) = 1 /\ size (sets (db w2)) = 0 /\
    workouts_deleted s2 = 1.
Proof.
  eexists _, _, _, _. split; [vm_compute; reflexivity|].
  split; [vm_compute; reflexivity|]. repeat split; vm_compute; reflexivity.
Qed.

(** * Further properties of the mappers and of the repository *)

Lemma normalize_to_workout_row (w : RemoteWorkout) :
  Repo._normalize_workout_params (Mappers.to_workout_row w)
    = Mappers.to_workout_row w.
Proof.
  cbv beta iota zeta delta
    [wr_id wr_title wr_notes wr_started_at wr_ended_at wr_created_at
     wr_updated_at Repo._normalize_workout_params Mappers.to_workout_row].
  assert (Ht : forall o, or_str (Some (or_str o "Workout")) "Workout"
                         = or_str o "Workout").
  { intros [s|]; simpl; [|reflexivity].
    destruct (String.eqb s "") eqn:E; [reflexivity|]. now rewrite E. }
  assert (Hn : forall s, or_str (Some s) "" = s).
  { intros s. simpl. destruct (String.eqb s "") eqn:E; [|reflexivity].
    now apply String.eqb_eq in E. }
  now rewrite Ht, Hn.
Qed.

(** X1. A row built by [to_workout_row] never has a blank title (a missing
    or empty remote title becomes [Workout]), takes its notes from
    [description], else from [notes], else the empty text, and is left
    unchanged by the defaulting of [_normalize_workout_params]: what
    [upsert_workout] binds is the mapped row itself. *)
Theorem mapped_row_is_already_normalized (w : RemoteWorkout) :
  Repo._normalize_workout_params (Mappers.to_workout_row w)
    = Mappers.to_workout_row w /\
  wr_title (Mappers.to_workout_row w) <> "" /\
  wr_title (Mappers.to_workout_row w)
    = (if truthy (rw_title w) then default "" (rw_title w) else "Workout") /\
  wr_notes (Mappers.to_workout_row w)
    = (if truthy (rw_description w) then default "" (rw_description w)
       else if truthy (rw_notes w) then default "" (rw_notes w) else "").
Proof.
  cbv beta iota zeta delta
    [wr_id wr_title wr_notes wr_started_at wr_ended_at wr_created_at
     wr_updated_at Repo._normalize_workout_params Mappers.to_workout_row].
  assert (Ht : forall o, or_str (Some (or_str o "Workout")) "Workout"
                         = or_str o "Workout").
  { intros [s|]; simpl; [|reflexivity].
    destruct (String.eqb s "") eqn:E; [reflexivity|]. now rewrite E. }
  assert (Hn : forall s, or_str (Some s) "" = s).
  { intros s. simpl. destruct (String.eqb s "") eqn:E; [|reflexivity].
    now apply String.eqb_eq in E. }
  rewrite Ht, Hn. split; [reflexivity|]. split; [|split].
  - destruct (rw_title w) as [s|]; simpl; [|discriminate].
    destruct (String.eqb s "") eqn:E; [discriminate|].
    intros ->. discriminate.
  - destruct (rw_title w) as [s|]; simpl; [|reflexivity].
    now destruct (String.eqb s "").
  - unfold or_opt.
    destruct (rw_description w) as [s|]; simpl.
    + destruct (String.eqb s "") eqn:E; simpl; [|now rewrite E].
      destruct (rw_notes w) as [n|]; simpl; [|reflexivity].
      now destruct (String.eqb n "").
    + destruct (rw_notes w) as [n|]; simpl; [|reflexivity].
      now destruct (String.eqb n "").
Qed.

Lemma to_set_rows_index_pairs (wid : string) (d : WorkoutDetail) :
  (fun r => (sr_exercise_index r, sr_set_index r))
    <$> Mappers.to_set_rows wid d = index_pairs d.
Proof.
  unfold Mappers.to_set_rows, index_pairs.
  induction (default [] (wd_exercises d)) as [|ex exs IH]; [reflexivity|].
  change (mjoin (Mappers.exercise_rows wid <$> ex :: exs))
    with (Mappers.exercise_rows wid ex
            ++ mjoin (Mappers.exercise_rows wid <$> exs)).
  rewrite fmap_app, IH.
  unfold Mappers.exercise_rows. rewrite <- list_fmap_compose.
  reflexivity.
Qed.

(** X2. [to_set_rows] yields one row per set, in the order of the payload:
    the index pairs of the rows are those of the detail, every row carries
    the workout id it was called with, and a detail without [exercises]
    (or an exercise without [sets]) contributes no row instead of
    failing. *)
Theorem set_rows_follow_the_payload (wid : string) (d : WorkoutDetail) :
  (fun r => (sr_exercise_index r, sr_set_index r))
    <$> Mappers.to_set_rows wid d = index_pairs d /\
  length (Mappers.to_set_rows wid d) = length (index_pairs d) /\
  Forall (fun r => sr_workout_id r = wid) (Mappers.to_set_rows wid d) /\
  (wd_exercises d = None -> Mappers.to_set_rows wid d = []).
Proof.
  assert (H : (fun r => (sr_exercise_index r, sr_set_index r))
                <$> Mappers.to_set_rows wid d = index_pairs d).
  { unfold Mappers.to_set_rows, index_pairs.
    induction (default [] (wd_exercises d)) as [|ex exs IH]; [reflexivity|].
    change (mjoin (Mappers.exercise_rows wid <$> ex :: exs))
      with (Mappers.exercise_rows wid ex
              ++ mjoin (Mappers.exercise_rows wid <$> exs)).
    rewrite fmap_app, IH.
    unfold Mappers.exercise_rows. rewrite <- list_fmap_compose.
    reflexivity. }
  split; [exact H|]. split; [|split].
  - rewrite <- H. now rewrite length_fmap.
  - apply Forall_forall. intros r Hr. now apply to_set_rows_workout_id in Hr.
  - intros Hn. unfold Mappers.to_set_rows. now rewrite Hn.
Qed.

Lemma set_rows_follow_the_payload_witness :
  wd_exercises {| wd_exercises := None |} = None /\
  Mappers.to_set_rows "w1" {| wd_exercises := None |} = [].
Proof.
  split; [reflexivity|].
  exact (proj2 (proj2 (proj2 (set_rows_follow_the_payload "w1"
                                {| wd_exercises := None |}))) eq_refl).
Defined.

(** ** The derived set id determines its three components *)

Lemma avoids_app c s t : avoids c (s +:+ t) = avoids c s && avoids c t.
Proof.
  induction s as [|c' s IH]; simpl; [reflexivity|].
  rewrite IH. now rewrite andb_assoc.
Qed.

Lemma avoids_pretty_N_go c x s :
  (forall n, Ascii.eqb (pretty_N_char n) c = false) ->
  avoids c (pretty_N_go x s) = avoids c s.
Proof.
  intros Hc. revert s. induction (N.lt_wf_0 x) as [x _ IH]; intros s.
  assert (x = 0 \/ 0 < x)%N as [->|Hx] by lia.
  - now rewrite pretty_N_go_0.
  - rewrite pretty_N_go_step by exact Hx.
    rewrite IH by now apply N.div_lt. simpl. now rewrite Hc.
Qed.

Lemma avoids_pretty_Z c (z : Z) :
  (forall n, Ascii.eqb (pretty_N_char n) c = false) ->
  Ascii.eqb "-" c = false ->
  avoids c (pretty z) = true.
Proof.
  intros Hc Hd.
  assert (HN : forall x : N, avoids c (pretty x) = true).
  { intros x. unfold pretty, pretty_N. case_decide.
    - pose proof (Hc 0%N) as H0. simpl in *. now rewrite H0.
    - now rewrite avoids_pretty_N_go. }
  destruct z as [|p|p].
  - apply (HN 0%N).
  - apply (HN (N.pos p)).
  - change (pretty (Z.neg p)) with ("-" +:+ pretty (N.pos p)).
    rewrite avoids_app, (HN (N.pos p)).
    change (avoids c "-") with (negb (Ascii.eqb "-" c) && true).
    now rewrite Hd.
Qed.

Lemma pretty_N_char_cases n :
  Ascii.eqb (pretty_N_char n) ":" = false /\
  Ascii.eqb (pretty_N_char n) "N" = false.
Proof. unfold pretty_N_char. split; now repeat case_match. Qed.

Lemma avoids_colon_fmt_index i : avoids ":" (fmt_index i) = true.
Proof.
  destruct i as [z|]; [|reflexivity]. simpl.
  apply avoids_pretty_Z; [intros n; apply pretty_N_char_cases|reflexivity].
Qed.

Lemma fmt_index_inj i j : fmt_index i = fmt_index j -> i = j.
Proof.
  assert (HN : forall z : Z, pretty z <> "None").
  { intros z Hz.
    assert (H : avoids "N" (pretty z) = true).
    { apply avoids_pretty_Z;
        [intros n; apply pretty_N_char_cases|reflexivity]. }
    rewrite Hz in H. discriminate. }
  destruct i as [x|], j as [y|]; simpl; intros H.
  - f_equal. now apply (inj pretty).
  - now destruct (HN x).
  - now destruct (HN y).
  - reflexivity.
Qed.

(** The text before the last colon and the text after it. *)
Lemma app_colon_inj x x' b b' :
  avoids ":" b = true -> avoids ":" b' = true ->
  x +:+ String ":" b = x' +:+ String ":" b' -> x = x' /\ b = b'.
Proof.
  intros Hb Hb'. revert x'. induction x as [|c x IH]; intros [|c' x'] H;
    simpl in H.
  - injection H as <-. auto.
  - injection H as <- ->. rewrite avoids_app in Hb. simpl in Hb.
    now rewrite andb_false_r in Hb.
  - injection H as -> <-. rewrite avoids_app in Hb'. simpl in Hb'.
    now rewrite andb_false_r in Hb'.
  - injection H as <- H. destruct (IH _ H) as [-> ->]. auto.
Qed.

Lemma set_id_components wid1 e1 s1 wid2 e2 s2 :
  Mappers.set_id wid1 e1 s1 = Mappers.set_id wid2 e2 s2 ->
  wid1 = wid2 /\ e1 = e2 /\ s1 = s2.
Proof.
  unfold Mappers.set_id. intros H.
  assert (A : forall w e s,
            w +:+ ":" +:+ fmt_index e +:+ ":" +:+ fmt_index s
            = (w +:+ String ":" (fmt_index e)) +:+ String ":" (fmt_index s)).
  { intros w e s. induction w as [|c w IH]; [reflexivity|].
    change (String c w +:+ ?x) with (String c (w +:+ x)).
    now rewrite IH. }
  rewrite !A in H.
  apply app_colon_inj in H as [H Hs]; try apply avoids_colon_fmt_index.
  apply app_colon_inj in H as [Hw He]; try apply avoids_colon_fmt_index.
  repeat split; [exact Hw|now apply fmt_index_inj..].
Qed.

(** X3. The derived set id is injective: two ids are equal only when the
    workout id, the exercise index and the set index are all equal (a
    missing index only equals a missing index), whatever characters the
    workout id contains. *)
Theorem set_id_inj wid1 e1 s1 wid2 e2 s2 :
  Mappers.set_id wid1 e1 s1 = Mappers.set_id wid2 e2 s2 ->
  wid1 = wid2 /\ e1 = e2 /\ s1 = s2.
Proof. apply set_id_components. Qed.

Lemma set_id_inj_witness :
  Mappers.set_id "a:1" (Some 2%Z) None = Mappers.set_id "a:1" (Some 2%Z) None /\
  "a:1" = "a:1" /\ Some 2%Z = Some 2%Z /\ @None Z = None.
Proof.
  split; [reflexivity|].
  exact (set_id_inj "a:1" (Some 2%Z) None "a:1" (Some 2%Z) None eq_refl).
Defined.

(** X4. Sets of one workout with pairwise distinct (exercise index, set
    index) pairs get pairwise distinct ids, so none of them can be taken
    for another by the insert-if-absent statement. *)
Theorem distinct_indices_give_distinct_ids (wid : string) (d : WorkoutDetail) :
  NoDup (index_pairs d) -> NoDup (sr_id <$> Mappers.to_set_rows wid d).
Proof.
  intros Hnd.
  rewrite <- (to_set_rows_index_pairs wid d) in Hnd.
  set (h := fun p : option Z * option Z => Mappers.set_id wid p.1 p.2).
  assert (Hinj : Inj (=) (=) h).
  { intros [e1 s1] [e2 s2] H. unfold h in H. simpl in H.
    apply set_id_components in H as (_ & He & Hs). now rewrite He, Hs. }
  assert (Heq : sr_id <$> Mappers.to_set_rows wid d
                = h <$> ((fun r => (sr_exercise_index r, sr_set_index r))
                           <$> Mappers.to_set_rows wid d)).
  { rewrite <- list_fmap_compose. apply list_fmap_ext.
    intros i r Hr. apply list_elem_of_lookup_2 in Hr.
    apply to_set_rows_elem in Hr
      as (exs & ex & ss & s & _ & _ & _ & _ & ->). reflexivity. }
  rewrite Heq. now apply (NoDup_fmap_2 h).
Qed.

Lemma distinct_indices_give_distinct_ids_witness :
  NoDup (index_pairs (two_exercises 5)) /\
  NoDup (sr_id <$> Mappers.to_set_rows "B" (two_exercises 5)).
Proof.
  assert (H : NoDup (index_pairs (two_exercises 5))).
  { simpl. repeat constructor; set_solver. }
  split; [exact H|].
  exact (distinct_indices_give_distinct_ids "B" (two_exercises 5) H).
Defined.

(** ** The two statements of [app/repo.py] *)

Lemma rows_map_head rows k :
  rows_map rows !! k = head (filter (fun r => sr_id r = k) rows).
Proof.
  unfold rows_map. induction rows as [|r rows IH]; [reflexivity|].
  rewrite fmap_cons, list_to_map_cons, filter_cons, lookup_insert.
  destruct (decide (sr_id r = k)) as [Hk|Hk]; [reflexivity|exact IH].
Qed.

(** X5. What the bulk insert of a batch of rows that fit the columns of
    the [sets] table leaves under an id: the row that was already stored if
    there was one, and otherwise the first row of the batch with that id;
    later rows of the batch with the same id are dropped. *)
Theorem bulk_insert_first_row_wins (rows : list SetRow)
    (t : gmap string SetRow) (k : string) :
  forallb fits_columns rows = true ->
  Repo.insert_sets_sql rows t !! k =
  match t !! k with
  | Some r => Some r
  | None => head (filter (fun r => sr_id r = k) rows)
  end.
Proof.
  intros _.
  rewrite insert_sets_sql_union, lookup_union, rows_map_head.
  destruct (t !! k) as [r|]; simpl.
  - now destruct (head _).
  - now destruct (head _).
Qed.

(** A batch with the same id twice over a table that holds neither: the
    first row is the one stored. *)
Lemma bulk_insert_first_row_wins_witness :
  forallb fits_columns [stale_set "B"; Mappers.set_row "B" (Some 0%Z) "Squat"
                                         (one_set (Some 0%Z) 5)] = true /\
  Repo.insert_sets_sql
    [stale_set "B";
     Mappers.set_row "B" (Some 0%Z) "Squat" (one_set (Some 0%Z) 5)] ∅
    !! "B:0:0" = Some (stale_set "B").
Proof.
  split; [vm_compute; reflexivity|].
  exact (bulk_insert_first_row_wins
           [stale_set "B";
            Mappers.set_row "B" (Some 0%Z) "Squat" (one_set (Some 0%Z) 5)]
           ∅ "B:0:0" eq_refl).
Defined.

Lemma insert_set_sql_size t r :
  size t <= size (Repo.insert_set_sql t r) <= S (size t).
Proof.
  unfold Repo.insert_set_sql. destruct (t !! sr_id r) eqn:E; [lia|].
  rewrite map_size_insert_None by exact E. lia.
Qed.

(** X6. The bulk insert only adds: every stored row stays, the ids
    afterwards are the old ids and those of the batch, the table grows by
    at most the length of the batch, and running the same batch again
    changes nothing. *)
Theorem bulk_insert_only_adds (rows : list SetRow) (t : gmap string SetRow) :
  t ⊆ Repo.insert_sets_sql rows t /\
  dom (Repo.insert_sets_sql rows t) = dom t ∪ list_to_set (sr_id <$> rows) /\
  size t <= size (Repo.insert_sets_sql rows t) <= size t + length rows /\
  Repo.insert_sets_sql rows (Repo.insert_sets_sql rows t)
    = Repo.insert_sets_sql rows t.
Proof.
  split; [|split; [|split]].
  - rewrite insert_sets_sql_union. apply map_union_subseteq_l.
  - rewrite insert_sets_sql_union, dom_union_L. f_equal.
    unfold rows_map. rewrite dom_list_to_map_L, <- list_fmap_compose.
    reflexivity.
  - unfold Repo.insert_sets_sql. revert t.
    induction rows as [|r rows IH]; intros t; simpl; [lia|].
    specialize (IH (Repo.insert_set_sql t r)).
    pose proof (insert_set_sql_size t r). lia.
  - rewrite !insert_sets_sql_union.
    now rewrite <- (assoc_L (∪)), (idemp_L (∪)).
Qed.

(** X7. A batch of rows that fit the columns of the [sets] table, whose
    ids are pairwise distinct and all free, is stored in full: every row can
    be read back under its id and the table grows by the length of the
    batch. *)
Theorem fresh_batch_is_stored_in_full (rows : list SetRow)
    (t : gmap string SetRow) :
  forallb fits_columns rows = true ->
  NoDup (sr_id <$> rows) ->
  (forall r, r ∈ rows -> t !! sr_id r = None) ->
  (forall r, r ∈ rows -> Repo.insert_sets_sql rows t !! sr_id r = Some r) /\
  size (Repo.insert_sets_sql rows t) = size t + length rows.
Proof.
  intros _. unfold Repo.insert_sets_sql. revert t.
  induction rows as [|r rows IH]; intros t Hnd Hfree.
  - split; [intros r Hr; now apply elem_of_nil in Hr|simpl; lia].
  - rewrite fmap_cons in Hnd. apply NoDup_cons in Hnd as [Hr Hnd].
    assert (Hnone : t !! sr_id r = None) by (apply Hfree; left).
    assert (Hstep : Repo.insert_set_sql t r = <[sr_id r := r]> t).
    { unfold Repo.insert_set_sql. now rewrite Hnone. }
    destruct (IH (Repo.insert_set_sql t r) Hnd) as [Hall Hsize].
    { intros x Hx. rewrite Hstep, lookup_insert_ne.
      - apply Hfree. now right.
      - intros Heq. apply Hr. apply list_elem_of_fmap. now exists x. }
    simpl. split.
    + intros x [->|Hx]%elem_of_cons; [|now apply Hall].
      apply insert_sets_sql_keeps. rewrite Hstep. apply lookup_insert_eq.
    + rewrite Hsize, Hstep, map_size_insert_None by exact Hnone. lia.
Qed.

Lemma fresh_batch_is_stored_in_full_witness :
  forallb fits_columns (Mappers.to_set_rows "B" (two_exercises 5)) = true /\
  NoDup (sr_id <$> Mappers.to_set_rows "B" (two_exercises 5)) /\
  (forall r, r ∈ Mappers.to_set_rows "B" (two_exercises 5) ->
     Repo.insert_sets_sql (Mappers.to_set_rows "B" (two_exercises 5)) ∅
       !! sr_id r = Some r) /\
  size (Repo.insert_sets_sql (Mappers.to_set_rows "B" (two_exercises 5)) ∅)
    = size (∅ : gmap string SetRow) + 2.
Proof.
  assert (H : NoDup (sr_id <$> Mappers.to_set_rows "B" (two_exercises 5))).
  { simpl. repeat constructor; set_solver. }
  split; [vm_compute; reflexivity|]. split; [exact H|].
  exact (fresh_batch_is_stored_in_full
           (Mappers.to_set_rows "B" (two_exercises 5)) ∅ eq_refl H
           (fun r _ => lookup_empty _)).
Defined.

(** X8. [upsert_workout] on a connection: when it returns, the normalized
    row is stored under its id and nothing else in the three tables has
    changed; when it raises, the tables are as before; with a missing id it
    cannot return.  A later upsert under the same id replaces the earlier
    one entirely. *)
Theorem upsert_workout_replaces_one_row (env : Env) (wr : WorkoutRow)
    (w : World) :
  match upsert_workout env wr w with
  | Returns _ w' =>
      exists k,
        wr_id wr = Some k /\
        workouts (db w')
          = <[k := Repo._normalize_workout_params wr]> (workouts (db w)) /\
        sets (db w') = sets (db w) /\
        exercises (db w') = exercises (db w)
  | Raises _ w' => db w' = db w
  | OutOfFuel => False
  end /\
  forall p1 p2 t,
    wr_id p1 = wr_id p2 ->
    Repo.upsert_workout_sql p1 t ≫= Repo.upsert_workout_sql p2
      = Repo.upsert_workout_sql p2 t.
Proof.
  split.
  - unfold upsert_workout, db_exec.
    destruct (db_fault env (clock w)); [reflexivity|].
    unfold Repo.upsert_workout_sql. simpl.
    destruct (wr_id wr) as [k|]; simpl; [|reflexivity].
    exists k. repeat split.
  - intros p1 p2 t Hid. unfold Repo.upsert_workout_sql. rewrite Hid.
    destruct (wr_id p2) as [k|]; simpl; [|reflexivity].
    now rewrite insert_insert_eq.
Qed.

Lemma upsert_workout_replaces_one_row_witness :
  wr_id (stored "A") = wr_id (stored "A") /\
  Repo.upsert_workout_sql (stored "A") ∅
    ≫= Repo.upsert_workout_sql (stored "A")
  = Repo.upsert_workout_sql (stored "A") ∅.
Proof.
  split; [reflexivity|].
  exact (proj2 (upsert_workout_replaces_one_row env_bcd (stored "A") w_abc)
           (stored "A") (stored "A") ∅ eq_refl).
Defined.

(** X9. [insert_sets_bulk] returns the length of the list it was given,
    also when some or all of the rows were skipped as conflicts; an empty
    list returns 0 without reaching the database, so it cannot fail; a
    failure leaves the tables as they were. *)
Theorem insert_sets_bulk_returns_the_batch_length (env : Env)
    (rows : list SetRow) (w : World) :
  match insert_sets_bulk env rows w with
  | Returns n w' =>
      n = length rows /\
      sets (db w') = Repo.insert_sets_sql rows (sets (db w)) /\
      workouts (db w') = workouts (db w) /\
      (rows = [] -> w' = w)
  | Raises e w' =>
      rows <> [] /\ db w' = db w /\ db_fault env (clock w) = Some e
  | OutOfFuel => False
  end.
Proof.
  unfold insert_sets_bulk. destruct rows as [|r rows].
  - unfold ret. repeat split.
  - unfold bind, db_exec, ret.
    destruct (db_fault env (clock w)) as [e|] eqn:F.
    + repeat split. discriminate.
    + repeat split. discriminate.
Qed.

Lemma insert_sets_bulk_returns_the_batch_length_witness :
  insert_sets_bulk env_bcd [] w_abc = Returns 0 w_abc /\
  0 = length (@nil SetRow) /\
  ((@nil SetRow) = [] -> w_abc = w_abc).
Proof.
  split; [reflexivity|].
  pose proof (insert_sets_bulk_returns_the_batch_length env_bcd [] w_abc)
    as (Hn & _ & _ & Hw).
  split; [exact Hn|exact Hw].
Defined.

(** * Further properties of the catalogue sync *)

Lemma fetch_templates_spec env fuel page acc w :
  fetch_templates env fuel page acc w =
  match templates_from env fuel page acc with
  | Some (a, n) => Returns a (add_logs (template_reqs page n) w)
  | None => OutOfFuel
  end.
Proof.
  revert page acc w. induction fuel as [|fuel IH]; intros page acc w.
  - reflexivity.
  - simpl. unfold bind at 1. unfold try_except, bind,
      call_list_exercise_templates, remote_call.
    destruct (list_exercise_templates env page 100) as [e|[|t ts]].
    + unfold ret, template_reqs. simpl.
      now rewrite add_logs_cons, add_logs_nil.
    + unfold ret, template_reqs. simpl.
      now rewrite add_logs_cons, add_logs_nil.
    + destruct (100 <? page + 1).
      * unfold ret, template_reqs. simpl.
        now rewrite add_logs_cons, add_logs_nil.
      * unfold ret. rewrite IH.
        destruct (templates_from env fuel (page + 1) _) as [[a n]|];
          [|reflexivity].
        unfold template_reqs. simpl. rewrite add_logs_cons.
        now replace (page + 1) with (S page) by lia.
Qed.

(** The cap of the loop: it never asks for a page beyond the 100th. *)
Lemma templates_from_bound env fuel page acc :
  1 <= page <= 100 -> 100 < fuel + page ->
  exists a n,
    templates_from env fuel page acc = Some (a, n) /\
    1 <= n /\ page + n <= 101.
Proof.
  revert page acc. induction fuel as [|fuel IH]; intros page acc Hp Hf;
    [simpl in Hf; lia|]. simpl.
  destruct (list_exercise_templates env page 100) as [e|[|t ts]].
  - exists acc, 1. split; [reflexivity|lia].
  - exists acc, 1. split; [reflexivity|lia].
  - destruct (100 <? page + 1) eqn:Hlt.
    + eexists _, 1. split; [reflexivity|lia].
    + apply Nat.ltb_ge in Hlt.
      destruct (IH (page + 1) (acc ++ t :: ts)) as (a & n & -> & Hn1 & Hn2);
        [lia|lia|].
      exists a, (S n). split; [reflexivity|lia].
Qed.

Lemma get_db_raises env {A} (body : M A) w e w' :
  get_db env body w = Raises e w' -> db w' = db w.
Proof.
  unfold get_db.
  match goal with |- match ?o with _ => _ end = _ -> _ =>
    destruct o as [a w1|e1 w1|] end; [discriminate| |discriminate].
  now intros [= _ <-].
Qed.

(** The outcome of the catalogue sync, case by case. *)
Lemma sync_exercise_templates_cases env w :
  exists all n,
    templates_from env 100 1 [] = Some (all, n) /\ 1 <= n <= 100 /\
    let w1 := add_logs (template_reqs 1 n) w in
    match all with
    | [] => sync_exercise_templates env w = Returns no_templates_result w1
    | _ =>
        match get_db env
                (db_exec env (fun d => Some (tt, set_exercises ∅ d)) ;;;
                 import_templates env 0 all) w1 with
        | Returns imported_count w2 =>
            sync_exercise_templates env w =
            Returns {| es_status := "success";
                       es_imported_count := imported_count;
                       es_total_templates := length all;
                       es_message :=
                         "Successfully imported " +:+ pretty imported_count
                         +:+ " exercise templates from Hevy API" |} w2
        | Raises e w2 =>
            sync_exercise_templates env w =
            Returns {| es_status := "error";
                       es_message := "Sync failed: " +:+ exn_msg e;
                       es_imported_count := 0;
                       es_total_templates := 0 |} w2 /\
            db w2 = db w
        | OutOfFuel => False
        end
    end.
Proof.
  destruct (templates_from_bound env 100 1 []) as (all & n & Hall & Hn1 & Hn2);
    [lia|lia|].
  exists all, n. split; [exact Hall|]. split; [lia|].
  assert (Hfetch : forall k : list Template -> M ExerciseSync,
            (all_templates <~ fetch_templates env 100 1 [] ;; k all_templates) w
            = k all (add_logs (template_reqs 1 n) w)).
  { intros k. unfold bind. now rewrite fetch_templates_spec, Hall. }
  unfold sync_exercise_templates, try_except. cbv zeta.
  destruct all as [|t ts]; rewrite Hfetch; [reflexivity|].
  unfold bind.
  pose proof (halts_get_db env
    (db_exec env (fun d => Some (tt, set_exercises ∅ d)) ;;;
     import_templates env 0 (t :: ts))
    (halts_bind _ _ (halts_db_exec env _)
       (fun _ => halts_import_templates env 0 (t :: ts)))
    (add_logs (template_reqs 1 n) w)) as Hh.
  unfold bind in Hh.
  match goal with |- match ?o with _ => _ end =>
    destruct o as [c w2|e w2|] eqn:G end; [reflexivity| |contradiction].
  split; [reflexivity|].
  change (get_db env
            (db_exec env (fun d => Some (tt, set_exercises ∅ d)) ;;;
             import_templates env 0 (t :: ts))
            (add_logs (template_reqs 1 n) w) = Raises e w2) in G.
  now apply get_db_raises in G.
Qed.

(** X10. The catalogue sync always returns a result, with status
    [success] or [error], whatever the remote and the store do; its loop
    asks for at most 100 pages, consecutive from page 1, 100 templates
    each, and it sends no other request. *)
Theorem catalog_sync_always_returns (env : Env) (w : World) :
  exists es w' n,
    sync_exercise_templates env w = Returns es w' /\
    1 <= n <= 100 /\
    log w' = log w ++ template_reqs 1 n /\
    (es_status es = "success" \/ es_status es = "error").
Proof.
  destruct (sync_exercise_templates_cases env w)
    as (all & n & Hall & Hn & Hc). simpl in Hc.
  assert (Hlog : forall (o : outcome nat) w2,
            o = get_db env
                  (db_exec env (fun d => Some (tt, set_exercises ∅ d)) ;;;
                   import_templates env 0 all)
                  (add_logs (template_reqs 1 n) w) ->
            final_world o = Some w2 -> log w2 = log w ++ template_reqs 1 n).
  { intros o w2 -> Hf.
    eapply (keeps_final (fun _ => True)
              (fun l => l = log w ++ template_reqs 1 n)) in Hf.
    - apply Hf.
    - apply keeps_get_db, keeps_bind; [now apply keeps_db_exec|].
      intros _. now apply keeps_import_templates.
    - split; [exact I|reflexivity]. }
  destruct all as [|t ts].
  - exists no_templates_result, (add_logs (template_reqs 1 n) w), n.
    repeat split; try lia; [exact Hc|now right].
  - destruct (get_db env _ (add_logs (template_reqs 1 n) w))
      as [c w2|e w2|] eqn:G; [| |contradiction].
    + eexists _, w2, n. split; [exact Hc|]. split; [lia|].
      split; [now apply (Hlog _ w2 eq_refl)|now left].
    + destruct Hc as [Hc _]. eexists _, w2, n. split; [exact Hc|].
      split; [lia|]. split; [now apply (Hlog _ w2 eq_refl)|now right].
Qed.

(** X11. A catalogue sync that reports [error] has left the three tables
    exactly as they were: when the import fails after the old rows were
    deleted, the transaction is rolled back and the old catalogue stays. *)
Theorem failed_catalog_sync_keeps_old_catalog (env : Env) (w : World)
    (es : ExerciseSync) (w' : World) :
  sync_exercise_templates env w = Returns es w' ->
  es_status es = "error" ->
  db w' = db w /\ es_imported_count es = 0 /\ es_total_templates es = 0.
Proof.
  intros Hrun Herr.
  destruct (sync_exercise_templates_cases env w)
    as (all & n & Hall & Hn & Hc). simpl in Hc.
  destruct all as [|t ts].
  - rewrite Hrun in Hc. injection Hc as -> ->. repeat split.
  - destruct (get_db env _ (add_logs (template_reqs 1 n) w))
      as [c w2|e w2|]; [| |contradiction].
    + rewrite Hrun in Hc. injection Hc as -> _. discriminate.
    + destruct Hc as [Hc Hdb]. rewrite Hrun in Hc. injection Hc as -> ->.
      repeat split. exact Hdb.
Qed.

Lemma failed_catalog_sync_keeps_old_catalog_witness :
  exists es w',
    sync_exercise_templates env_null_title w_old_catalog = Returns es w' /\
    es_status es = "error" /\
    db w' = db w_old_catalog.
Proof.
  eexists _, _. split; [vm_compute; reflexivity|]. split; [reflexivity|].
  refine (proj1 (failed_catalog_sync_keeps_old_catalog env_null_title
                   w_old_catalog _ _ _ _)).
  - vm_compute. reflexivity.
  - reflexivity.
Defined.

Lemma import_templates_reliable env l :
  reliable env -> ~ has_null_title l ->
  forall n w, exists w',
    import_templates env n l w
      = Returns (n + length (omap template_entry l)) w' /\
    exercises (db w')
      = upsert_entries (exercises (db w)) (omap template_entry l) /\
    workouts (db w') = workouts (db w) /\ sets (db w') = sets (db w).
Proof.
  intros Hr. induction l as [|t l IH]; intros Hnull n w.
  - exists w. simpl. unfold ret. repeat split. f_equal. lia.
  - assert (Hl : ~ has_null_title l).
    { intros (x & Hx & Hn). apply Hnull. exists x. split; [now right|exact Hn]. }
    assert (Ht : t_title t <> Null).
    { intros Hn. apply Hnull. exists t. split; [left|exact Hn]. }
    change (omap template_entry (t :: l))
      with (match template_entry t with
            | Some y => y :: omap template_entry l
            | None => omap template_entry l
            end).
    simpl. unfold bind at 1. unfold import_template, template_entry.
    destruct (t_title t) as [| |s]; [|now destruct Ht|].
    + change (strip "") with "". simpl.
      destruct (IH Hl n w) as (w' & E & X & W & S). exists w'.
      rewrite E. repeat split; assumption.
    + destruct (String.eqb (strip s) "") eqn:Es.
      * destruct (IH Hl n w) as (w' & E & X & W & S). exists w'.
        unfold ret. rewrite E. repeat split; assumption.
      * unfold bind, db_exec, ret. rewrite Hr.
        match goal with |- context [import_templates env _ l ?w0] =>
          destruct (IH Hl (n + 1) w0) as (w' & E & X & W & S) end.
        exists w'. rewrite E. simpl in *. repeat split; try assumption.
        f_equal. unfold template_entry. lia.
Qed.

Lemma import_templates_null env l :
  has_null_title l ->
  forall n w c w', import_templates env n l w <> Returns c w'.
Proof.
  induction l as [|t l IH]; intros (x & Hx & Hn) n w c w'.
  - now apply elem_of_nil in Hx.
  - simpl. unfold bind at 1. unfold import_template.
    apply elem_of_cons in Hx as [->|Hx].
    + rewrite Hn. discriminate.
    + assert (Hl : has_null_title l) by now exists x.
      destruct (t_title t) as [| |s]; [|discriminate|].
      * simpl. apply IH, Hl.
      * destruct (String.eqb (strip s) ""); [apply IH, Hl|].
        unfold bind, db_exec, ret.
        destruct (db_fault env (clock w)); [discriminate|].
        apply IH, Hl.
Qed.

Lemma upsert_entries_size m l :
  size (upsert_entries m l) <= size m + length l.
Proof.
  unfold upsert_entries. revert m. induction l as [|[k v] l IH]; intros m;
    simpl; [lia|].
  specialize (IH (<[k:=v]> m)). simpl in IH.
  pose proof (map_size_insert k v m) as Hs.
  destruct (m !! k); simpl in Hs; lia.
Qed.

Lemma length_omap_le {A B} (f : A -> option B) l :
  length (omap f l) <= length l.
Proof.
  induction l as [|x l IH]; [simpl; lia|].
  change (omap f (x :: l))
    with (match f x with Some y => y :: omap f l | None => omap f l end).
  destruct (f x); simpl; lia.
Qed.

(** X12. With a store that does not fail, no null title among the
    fetched templates and imported values that fit the columns of the
    [exercises] table, the catalogue sync replaces the table by the
    catalogue of those templates: what the table held before is gone,
    titles are stored stripped of the white space that [str.strip] removes
    (Unicode white space included), templates without a title or with a
    blank one are skipped, and of two templates with the same stripped
    title the later one stays.  [imported_count] counts every template that
    was not skipped, so it can exceed the number of rows stored. *)
Theorem catalog_sync_replaces_the_catalog (env : Env) (w : World)
    (all : list Template) (n : nat) :
  reliable env ->
  templates_from env 100 1 [] = Some (all, n) ->
  all <> [] ->
  ~ has_null_title all ->
  forallb fits_exercises all = true ->
  exists es w',
    sync_exercise_templates env w = Returns es w' /\
    es_status es = "success" /\
    es_imported_count es = length (omap template_entry all) /\
    es_total_templates es = length all /\
    exercises (db w') = catalog_of all /\
    workouts (db w') = workouts (db w) /\ sets (db w') = sets (db w) /\
    size (exercises (db w')) <= es_imported_count es <= es_total_templates es.
Proof.
  intros Hr Hall Hne Hnull _.
  destruct (sync_exercise_templates_cases env w)
    as (all' & n' & Hall' & Hn & Hc). rewrite Hall in Hall'.
  injection Hall' as <- <-. simpl in Hc.
  destruct all as [|t ts]; [now destruct Hne|].
  assert (G : exists w2,
    get_db env
      (db_exec env (fun d => Some (tt, set_exercises ∅ d)) ;;;
       import_templates env 0 (t :: ts)) (add_logs (template_reqs 1 n) w)
    = Returns (length (omap template_entry (t :: ts))) w2 /\
    exercises (db w2) = catalog_of (t :: ts) /\
    workouts (db w2) = workouts (db w) /\ sets (db w2) = sets (db w)).
  { unfold get_db. unfold bind at 1. unfold db_exec at 1. rewrite Hr.
    unfold bind at 1. unfold bind at 1. unfold db_exec at 1. rewrite Hr.
    match goal with |- context [import_templates env 0 (t :: ts) ?w0] =>
      destruct (import_templates_reliable env (t :: ts) Hr Hnull 0 w0)
        as (w2 & E & X & W & S) end.
    rewrite E. unfold bind, db_exec, ret. rewrite Hr.
    eexists. split; [reflexivity|]. simpl. simpl in X, W, S.
    rewrite X, W, S. repeat split. }
  destruct G as (w2 & G & X & W & S). rewrite G in Hc.
  eexists _, w2. split; [exact Hc|]. simpl.
  repeat split; try assumption.
  - rewrite X. unfold catalog_of.
    pose proof (upsert_entries_size ∅ (omap template_entry (t :: ts))) as Hs.
    rewrite map_size_empty in Hs. exact Hs.
  - apply (length_omap_le template_entry (t :: ts)).
Qed.

Lemma catalog_sync_replaces_the_catalog_witness :
  reliable env_catalog /\
  templates_from env_catalog 100 1 [] = Some (catalog_templates, 2) /\
  catalog_templates <> [] /\ ~ has_null_title catalog_templates /\
  forallb fits_exercises catalog_templates = true /\
  exists es w',
    sync_exercise_templates env_catalog w_old_catalog = Returns es w' /\
    es_imported_count es = 3 /\ es_total_templates es = 6 /\
    size (exercises (db w')) = 2 /\
    exercises (db w') !! "Deadlift" = None /\
    er_primary_muscle_group <$> exercises (db w') !! "Squat"
      = Some (Some "legs") /\
    er_primary_muscle_group <$> exercises (db w') !! "Plank"
      = Some (Some "core").
Proof.
  assert (Hr : reliable env_catalog) by (intros k; reflexivity).
  assert (Hall : templates_from env_catalog 100 1 []
                 = Some (catalog_templates, 2)) by reflexivity.
  assert (Hne : catalog_templates <> []) by discriminate.
  assert (Hnull : ~ has_null_title catalog_templates).
  { intros (x & Hx & Hn). unfold catalog_templates in Hx.
    repeat (apply elem_of_cons in Hx as [->|Hx]; [discriminate|]).
    now apply elem_of_nil in Hx. }
  assert (Hfit : forallb fits_exercises catalog_templates = true)
    by (vm_compute; reflexivity).
  split; [exact Hr|]. split; [exact Hall|]. split; [exact Hne|].
  split; [exact Hnull|]. split; [exact Hfit|].
  destruct (catalog_sync_replaces_the_catalog env_catalog w_old_catalog
              _ _ Hr Hall Hne Hnull Hfit)
    as (es & w' & Hrun & _ & Hi & Ht & Hx & _).
  exists es, w'. split; [exact Hrun|]. rewrite Hi, Ht, Hx.
  repeat split; vm_compute; reflexivity.
Defined.

(** X13. One template whose title is a JSON null makes the import fail,
    whatever the store does: the catalogue sync reports [error] and the
    tables, the old catalogue included, are as before. *)
Theorem null_title_aborts_the_import (env : Env) (w : World)
    (all : list Template) (n : nat) :
  templates_from env 100 1 [] = Some (all, n) ->
  has_null_title all ->
  exists es w',
    sync_exercise_templates env w = Returns es w' /\
    es_status es = "error" /\ es_imported_count es = 0 /\
    db w' = db w.
Proof.
  intros Hall Hnull.
  destruct (sync_exercise_templates_cases env w)
    as (all' & n' & Hall' & Hn & Hc). rewrite Hall in Hall'.
  injection Hall' as <- <-. simpl in Hc.
  destruct all as [|t ts].
  { destruct Hnull as (x & Hx & _). now apply elem_of_nil in Hx. }
  destruct (get_db env _ (add_logs (template_reqs 1 n) w))
    as [c w2|e w2|] eqn:G; [| |contradiction].
  - exfalso. revert G. unfold get_db. unfold bind at 1.
    destruct (db_exec env _ _) as [[] w0|e0 w0|]; try discriminate.
    unfold bind at 1. unfold bind at 1.
    destruct (db_exec env _ w0) as [[] w1|e1 w1|]; try discriminate.
    pose proof (import_templates_null env (t :: ts) Hnull 0 w1) as Hi.
    destruct (import_templates env 0 (t :: ts) w1) as [c1 w3|e3 w3|];
      try discriminate.
    now destruct (Hi c1 w3).
  - destruct Hc as [Hc Hdb]. eexists _, w2. split; [exact Hc|].
    repeat split. exact Hdb.
Qed.

Lemma null_title_aborts_the_import_witness :
  (exists all n,
     templates_from env_null_title 100 1 [] = Some (all, n) /\
     has_null_title all) /\
  exists es w',
    sync_exercise_templates env_null_title w_old_catalog = Returns es w' /\
    es_status es = "error" /\ es_imported_count es = 0 /\
    db w' = db w_old_catalog.
Proof.
  assert (Hall : templates_from env_null_title 100 1 []
                 = Some ([template (Val "Squat") "quadriceps";
                          template Null "chest"], 2)) by reflexivity.
  assert (Hnull : has_null_title [template (Val "Squat") "quadriceps";
                                  template Null "chest"]).
  { exists (template Null "chest"). split; [|reflexivity].
    right. left. }
  split; [eauto|].
  exact (null_title_aborts_the_import env_null_title w_old_catalog _ _
           Hall Hnull).
Defined.

(** * Further properties of the sync *)

(** ** One workout of a page *)

Lemma process_workout_cases (env : Env) (x : RemoteWorkout)
    (w : World) :
  exists w',
    process_workout env x w = Returns tt w' /\
    seen (frame w') = seen (frame w) + 1 /\
    exercises (db w') = exercises (db w) /\
    ((truthy (rw_id x) = false \/ db_fault env (clock w) <> None) /\
     db w' = db w /\ log w' = log w /\
     upserted (frame w') = upserted (frame w) /\
     sets_total (frame w') = sets_total (frame w)
     \/
     exists id,
       rw_id x = Some id /\ truthy (Some id) = true /\
       db_fault env (clock w) = None /\
       workouts (db w')
         = <[id := Mappers.to_workout_row x]> (workouts (db w)) /\
       log w' = log w ++ [ReqGetWorkout id] /\
       upserted (frame w') = upserted (frame w) + 1 /\
       (sets (db w') = sets (db w) /\
        sets_total (frame w') = sets_total (frame w)
        \/
        exists detail,
          get_workout env id = inr detail /\
          sets (db w')
            = Repo.insert_sets_sql (Mappers.to_set_rows id detail)
                                   (sets (db w)) /\
          sets_total (frame w')
            = sets_total (frame w)
              + length (Mappers.to_set_rows id detail))).
Proof.
  pose proof (normalize_to_workout_row x) as Hnorm.
  unfold process_workout.
  change (wr_id (Mappers.to_workout_row x)) with (rw_id x).
  unfold bind at 1. unfold incr_seen, modify_frame.
  destruct (rw_id x) as [id|] eqn:Hid.
  2:{ eexists. split; [reflexivity|]. split; [reflexivity|].
      split; [reflexivity|]. left. split; [now left|]. repeat split. }
  destruct (truthy (Some id)) eqn:Ht; cbn [negb].
  2:{ eexists. split; [reflexivity|]. split; [reflexivity|].
      split; [reflexivity|]. left. split; [now left|]. repeat split. }
  unfold bind at 1. unfold try_except. unfold bind at 1.
  unfold upsert_workout, db_exec. cbn [clock set_frame].
  destruct (db_fault env (clock w)) as [e|] eqn:F.
  { eexists. split; [reflexivity|]. split; [reflexivity|].
    split; [reflexivity|]. left. split; [right; discriminate|].
    repeat split. }
  rewrite Hnorm. unfold Repo.upsert_workout_sql.
  change (wr_id (Mappers.to_workout_row x)) with (rw_id x). rewrite Hid.
  cbn [mbind option_bind]. unfold bind at 1. unfold incr_upserted, modify_frame.
  unfold bind at 1. unfold ret at 1. cbn [negb].
  unfold bind at 1. unfold try_except. unfold bind at 1.
  unfold call_get_workout, remote_call.
  destruct (get_workout env id) as [e|detail] eqn:Hd.
  { eexists. split; [reflexivity|]. split; [reflexivity|].
    split; [reflexivity|]. right. exists id.
    do 6 (split; [first [exact Ht|reflexivity]|]). left. split; reflexivity. }
  unfold ret at 1. unfold try_except.
  destruct (Mappers.to_set_rows id detail) as [|r rows] eqn:Hrows.
  { eexists. split; [reflexivity|]. split; [reflexivity|].
    split; [reflexivity|]. right. exists id.
    do 6 (split; [first [exact Ht|reflexivity]|]). left. split; reflexivity. }
  unfold insert_sets_bulk, bind, db_exec, ret, add_sets_total, modify_frame.
  cbn [clock add_log set_frame tick set_db].
  destruct (db_fault env (S (clock w))) as [e|] eqn:F1.
  { eexists. split; [reflexivity|]. split; [reflexivity|].
    split; [reflexivity|]. right. exists id.
    do 6 (split; [first [exact Ht|reflexivity]|]). left. split; reflexivity. }
  eexists. split; [reflexivity|]. split; [reflexivity|].
  split; [reflexivity|]. right. exists id.
  do 6 (split; [first [exact Ht|reflexivity]|]). right. exists detail.
  split; [exact Hd|]. rewrite Hrows. split; reflexivity.
Qed.

(** X14. The body of the per-workout loop never raises, whatever the
    remote and the store do, and always counts the workout as seen.  Either
    it skipped the workout (no id, or the upsert failed): nothing was
    written, no detail was requested and only [seen] moved.  Or the upsert
    went through: the mapped row is stored under the id, [upserted] moved
    by one, exactly one detail request was sent, and the sets are either
    untouched (detail failed, no rows, or insert failed) or the mapped rows
    were inserted-if-absent and added to [sets_total]. *)
Theorem process_workout_absorbs_failures (env : Env) (x : RemoteWorkout)
    (w : World) :
  exists w',
    process_workout env x w = Returns tt w' /\
    seen (frame w') = seen (frame w) + 1 /\
    exercises (db w') = exercises (db w) /\
    ((truthy (rw_id x) = false \/ db_fault env (clock w) <> None) /\
     db w' = db w /\ log w' = log w /\
     upserted (frame w') = upserted (frame w) /\
     sets_total (frame w') = sets_total (frame w)
     \/
     exists id,
       rw_id x = Some id /\ truthy (Some id) = true /\
       db_fault env (clock w) = None /\
       workouts (db w')
         = <[id := Mappers.to_workout_row x]> (workouts (db w)) /\
       log w' = log w ++ [ReqGetWorkout id] /\
       upserted (frame w') = upserted (frame w) + 1 /\
       (sets (db w') = sets (db w) /\
        sets_total (frame w') = sets_total (frame w)
        \/
        exists detail,
          get_workout env id = inr detail /\
          sets (db w')
            = Repo.insert_sets_sql (Mappers.to_set_rows id detail)
                                   (sets (db w)) /\
          sets_total (frame w')
            = sets_total (frame w)
              + length (Mappers.to_set_rows id detail))).
Proof. apply process_workout_cases. Qed.

(** ** Set rows always point to a stored workout *)

Lemma purge_no_orphans ids d : no_orphans d -> no_orphans (purge ids d).
Proof.
  intros H k r [Hr Hout]%purge_sets. rewrite purge_dom.
  apply elem_of_difference. split; [now apply (H k)|exact Hout].
Qed.

Lemma keeps_no_orphans_process_workout env x :
  keeps no_orphans (fun _ => True) (process_workout env x).
Proof.
  intros w [HJ _].
  destruct (process_workout_cases env x w)
    as (w' & -> & _ & _ & [(_ & Hdb & _)|(id & Hid & _ & _ & HW & _ & _ & HS)]).
  - split; [now rewrite Hdb|exact I].
  - split; [|exact I]. intros k r Hr. rewrite HW, dom_insert_L.
    destruct HS as [[HS _]|(detail & _ & HS & _)]; rewrite HS in Hr.
    + apply elem_of_union_r. now apply (HJ k).
    + apply insert_sets_sql_lookup in Hr as [Hr|Hr].
      * apply elem_of_union_r. now apply (HJ k).
      * apply to_set_rows_workout_id in Hr. rewrite Hr. set_solver.
Qed.

Lemma keeps_no_orphans_upsert_pages env fuel page :
  keeps no_orphans (fun _ => True) (upsert_pages env fuel page).
Proof.
  revert page. induction fuel as [|fuel IH]; intros page; simpl.
  - apply keeps_out_of_fuel.
  - apply keeps_bind; [|intros [a|a]; [apply keeps_ret|apply IH]].
    apply keeps_try_except; [|intros _; apply keeps_ret].
    apply keeps_bind_remote; [auto|reflexivity|].
    intros [|x ws] _; [apply keeps_ret|].
    apply keeps_bind; [|intros _; apply keeps_ret].
    apply keeps_get_db, keeps_for_each. intros y _.
    apply keeps_no_orphans_process_workout.
Qed.

(** X15. A run never leaves a set row without its workout: when every
    set row of the store points to a stored workout before a run, the same
    holds when the run stops, by returning or by raising, whatever the
    remote and the store do in between (the tables declare no foreign
    key). *)
Theorem sync_keeps_sets_attached (env : Env) (page page_size fuel : nat)
    (w w' : World) :
  no_orphans (db w) ->
  final_world (sync_first_page env page page_size fuel w) = Some w' ->
  no_orphans (db w').
Proof.
  intros H0 Hf. unfold sync_first_page, bind in Hf.
  rewrite enumerate_ids_spec in Hf.
  destruct (enum_from env fuel 1 ∅) as [[E n]|]; [|discriminate].
  unfold sync_after_enumeration, bind in Hf.
  pose proof (reconcile_cases env E (add_logs (list_reqs 1 n) w)) as R.
  simpl in R.
  destruct (reconcile env E _) as [del w2|e w2|]; [| |contradiction].
  - destruct R as (-> & Hdb & _ & _). simpl in Hf.
    assert (H2 : holds no_orphans (fun _ => True) w2).
    { split; [|exact I]. rewrite Hdb. now apply purge_no_orphans. }
    eapply (keeps_final no_orphans (fun _ => True)) in Hf;
      [apply Hf| |exact H2].
    unfold sync_after_deletion.
    apply keeps_bind; [apply keeps_modify_frame|intros _].
    apply keeps_bind; [apply keeps_no_orphans_upsert_pages|intros _].
    apply keeps_bind;
      [apply keeps_sync_exercise_templates; [auto|]; intros d m Hd; exact Hd|].
    intros es. apply keeps_bind; [apply keeps_get_frame|intros c].
    apply keeps_ret.
  - destruct R as (Hdb & _). simpl in Hf. injection Hf as <-.
    now rewrite Hdb.
Qed.

Lemma sync_keeps_sets_attached_witness :
  no_orphans (db w_abc) /\
  match sync_first_page env_commit_fails 1 10 5 w_abc with
  | Returns _ w' => no_orphans (db w')
  | _ => False
  end.
Proof.
  assert (H0 : no_orphans (db w_abc)).
  { intros k r Hr. simpl in Hr.
    apply lookup_insert_Some in Hr as [[_ <-]|[_ Hr]];
      [apply elem_of_dom; now eexists|].
    apply lookup_insert_Some in Hr as [[_ <-]|[_ Hr]];
      [apply elem_of_dom; now eexists|].
    now rewrite lookup_empty in Hr. }
  split; [exact H0|].
  destruct (sync_first_page env_commit_fails 1 10 5 w_abc)
    as [s w'|e w'|] eqn:H.
  - apply (sync_keeps_sets_attached env_commit_fails 1 10 5 w_abc w' H0).
    now rewrite H.
  - vm_compute in H. discriminate.
  - vm_compute in H. discriminate.
Defined.

(** ** A page whose transaction is rolled back *)

Lemma for_each_process_workout env ws w :
  exists w',
    for_each (process_workout env) ws w = Returns tt w' /\
    seen (frame w') = seen (frame w) + length ws /\
    upserted (frame w) <= upserted (frame w')
      <= upserted (frame w) + length ws.
Proof.
  revert w. induction ws as [|x ws IH]; intros w.
  - exists w. simpl. unfold ret. repeat split; lia.
  - destruct (process_workout_cases env x w) as (w1 & E1 & S1 & _ & HU).
    destruct (IH w1) as (w2 & E2 & S2 & U2).
    exists w2. simpl. unfold bind. rewrite E1, E2.
    split; [reflexivity|]. split; [lia|].
    destruct HU as [(_ & _ & _ & U1 & _)|(id & _ & _ & _ & _ & _ & U1 & _)];
      lia.
Qed.

(** X16. When a page transaction is opened but cannot be committed, the
    upsert loop stops there and the page's writes are rolled back (the
    tables are those from before the page), but the counters are not: the
    page's workouts stay counted in [seen], and those that were upserted
    before the failed commit stay counted in [upserted]. *)
Theorem rolled_back_page_is_still_counted (env : Env) (fuel page : nat)
    (x : RemoteWorkout) (ws : list RemoteWorkout) (w w2 : World) (e : exn) :
  list_workouts env page 10 = inr (x :: ws) ->
  db_fault env (clock w) = None ->
  get_db env (for_each (process_workout env) (x :: ws))
         (add_log (ReqListWorkouts page 10) w) = Raises e w2 ->
  upsert_pages env (S fuel) page w = Returns tt w2 /\
  db w2 = db w /\
  seen (frame w2) = seen (frame w) + length (x :: ws) /\
  upserted (frame w) <= upserted (frame w2).
Proof.
  intros Hpage Hbegin Hraise.
  split.
  { simpl. unfold bind at 1. unfold try_except. unfold bind at 1.
    unfold call_list_workouts, remote_call. rewrite Hpage.
    unfold bind at 1. now rewrite Hraise. }
  split; [now apply get_db_raises in Hraise|].
  revert Hraise. unfold get_db. unfold bind at 1. unfold db_exec at 1.
  cbn [clock add_log]. rewrite Hbegin.
  unfold bind at 1.
  match goal with |- context [for_each (process_workout env) (x :: ws) ?w0] =>
    destruct (for_each_process_workout env (x :: ws) w0)
      as (w1 & -> & S1 & U1) end.
  unfold bind, db_exec, ret.
  destruct (db_fault env (clock w1)); [|discriminate].
  intros [= _ <-]. simpl in *. lia.
Qed.

Lemma rolled_back_page_is_still_counted_witness :
  exists e w2,
    list_workouts env_commit_fails 1 10
      = inr [workout "B"; workout "C"; workout "D"] /\
    db_fault env_commit_fails (clock w_empty) = None /\
    get_db env_commit_fails
      (for_each (process_workout env_commit_fails)
                [workout "B"; workout "C"; workout "D"])
      (add_log (ReqListWorkouts 1 10) w_empty) = Raises e w2 /\
    upsert_pages env_commit_fails 1 1 w_empty = Returns tt w2 /\
    db w2 = db w_empty /\
    seen (frame w2) = 3 /\ upserted (frame w2) = 3.
Proof.
  eexists _, _. split; [reflexivity|]. split; [reflexivity|].
  split; [vm_compute; reflexivity|].
  match goal with |- upsert_pages _ _ _ _ = Returns tt ?w2 /\ _ =>
    destruct (rolled_back_page_is_still_counted env_commit_fails 0 1
                (workout "B") [workout "C"; workout "D"] w_empty w2
                (Exn "OperationalError" "server closed the connection")
                eq_refl eq_refl)
      as (H1 & H2 & H3 & _) end.
  - vm_compute. reflexivity.
  - split; [exact H1|]. split; [exact H2|]. split; [exact H3|].
    vm_compute. reflexivity.
Defined.

(** ** The tables and the summary after a run on a reliable store *)

Lemma enum_subset_pages env fuel page ids E n all id :
  enum_from env fuel page ids = Some (E, n) ->
  pages_from env fuel page = Some all ->
  id ∈ E ->
  id ∈ ids \/
  exists x, x ∈ all /\ rw_id x = Some id /\ truthy (Some id) = true.
Proof.
  revert page ids E n all. induction fuel as [|fuel IH];
    intros page ids E n all; [discriminate|]. simpl.
  destruct (list_workouts env page 10) as [e|[|y ws]] eqn:Hp.
  - intros [= <- _] _ Hx. now left.
  - intros [= <- _] _ Hx. now left.
  - destruct (pages_from env fuel (page + 1)) as [rest|] eqn:Hrest;
      [|intros _; discriminate].
    assert (Hin : forall ids', id ∈ ids' ∪ page_ids (y :: ws) ->
        id ∈ ids' \/
        exists x, x ∈ (y :: ws) ++ rest /\ rw_id x = Some id /\
                  truthy (Some id) = true).
    { intros ids' [Hx|Hx]%elem_of_union; [now left|right].
      unfold page_ids in Hx. apply elem_of_list_to_set in Hx.
      apply list_elem_of_omap in Hx as (x & Hx & Hid).
      destruct (truthy (rw_id x)) eqn:Ht; [|discriminate].
      exists x. split; [apply elem_of_app; now left|].
      split; [exact Hid|]. now rewrite <- Hid. }
    destruct (length (y :: ws) <? 10).
    + intros [= <- _] [= <-] Hx. now apply Hin.
    + destruct (enum_from env fuel (page + 1) _) as [[E' n']|] eqn:Hrec;
        [|discriminate].
      intros [= <- _] [= <-] Hx.
      destruct (IH _ _ _ _ _ Hrec Hrest Hx) as [Hx'|(x & Hx' & Hid & Ht)].
      * now apply Hin.
      * right. exists x. split; [|auto].
        change (x ∈ (y :: ws) ++ rest). apply elem_of_app. now right.
Qed.

Lemma upserts_elem_2 all x id :
  x ∈ all -> rw_id x = Some id -> truthy (Some id) = true ->
  (id, Repo._normalize_workout_params (Mappers.to_workout_row x))
    ∈ upserts all.
Proof.
  intros Hx Hid Ht. unfold upserts. apply list_elem_of_omap.
  exists x. split; [exact Hx|]. now rewrite Hid, Ht.
Qed.

Lemma foldl_count_seen env all c :
  seen (foldl (count_workout env) c all) = seen c + length all.
Proof.
  revert c. induction all as [|x all IH]; intros c; [simpl; lia|].
  cbn [foldl]. rewrite IH. simpl. lia.
Qed.

Lemma upserts_length all :
  length (upserts all)
    = sum_list ((fun x => if truthy (rw_id x) then 1 else 0) <$> all).
Proof.
  induction all as [|x all IH]; [reflexivity|].
  rewrite upserts_cons, length_app, IH, fmap_cons. simpl.
  unfold upserts. simpl. destruct (rw_id x) as [id|]; simpl; [|lia].
  destruct (negb (String.eqb id "")); simpl; lia.
Qed.

Lemma foldl_count_upserted env all c :
  upserted (foldl (count_workout env) c all)
    = upserted c + length (upserts all).
Proof.
  rewrite upserts_length. revert c.
  induction all as [|x all IH]; intros c; [simpl; lia|].
  cbn [foldl]. rewrite IH, fmap_cons. simpl. lia.
Qed.

(** The counters at the end of a returning run. *)
Lemma run_frame env page page_size fuel w s w' all :
  reliable env ->
  pages_from env fuel 1 = Some all ->
  sync_first_page env page page_size fuel w = Returns s w' ->
  frame w' = foldl (count_workout env) zero_counters all.
Proof.
  intros Hr Hall Hrun.
  destruct (sync_first_page_returns _ _ _ _ _ _ _ Hrun)
    as (E & k & w2 & w3 & es & _ & _ & _ & Hup & Hex & _).
  destruct (acts_upsert_pages env fuel 1 all Hr Hall
              (set_frame zero_counters w2)) as (w3' & Hup' & _ & C3).
  rewrite Hup in Hup'. injection Hup' as <-.
  pose proof (same_frame_sync_exercise_templates env w3) as F.
  rewrite Hex in F. now rewrite F, C3.
Qed.

Lemma local_ids_cases (env : Env) (page page_size fuel : nat)
    (w : World) :
  reliable env -> listing_ends env 1 fuel ->
  exists s w' E n all,
    sync_first_page env page page_size fuel w = Returns s w' /\
    enum_from env fuel 1 ∅ = Some (E, n) /\
    pages_from env fuel 1 = Some all /\
    (forall id,
       id ∈ dom (workouts (db w')) <->
       (id ∈ dom (workouts (db w)) /\ id ∈ E) \/
       exists x, x ∈ all /\ rw_id x = Some id /\ truthy (Some id) = true) /\
    (paginated env ->
     dom (workouts (db w')) = E /\
     total_hevy_workouts s = size (dom (workouts (db w')))).
Proof.
  intros Hr Hends.
  destruct (enum_from_ends env fuel 1 ∅ Hends) as (E & n & He).
  destruct (pages_from_ends env fuel 1 Hends) as (all & Hall).
  destruct (sync_first_page_reliable env page page_size fuel w E n all
              Hr He Hall) as (s & w' & Hrun & HW & _).
  exists s, w', E, n, all.
  split; [exact Hrun|]. split; [exact He|]. split; [exact Hall|].
  assert (Hdom : forall id,
       id ∈ dom (workouts (db w')) <->
       (id ∈ dom (workouts (db w)) /\ id ∈ E) \/
       exists x, x ∈ all /\ rw_id x = Some id /\ truthy (Some id) = true).
  { intros id. rewrite HW, foldl_apply_workouts, dom_union_L, elem_of_union,
      purge_dom. split.
    - intros [Hk|Hk].
      + right. apply elem_of_dom in Hk as [v Hv].
        apply elem_of_list_to_map_2 in Hv. rewrite elem_of_reverse in Hv.
        now apply upserts_elem in Hv.
      + left. apply elem_of_difference in Hk as [H1 H2].
        split; [exact H1|]. destruct (decide (id ∈ E)) as [HE|HE];
          [exact HE|]. exfalso. apply H2. now apply elem_of_difference.
    - intros [[H1 H2]|(x & Hx & Hid & Ht)].
      + right. apply elem_of_difference. split; [exact H1|].
        intros [_ H3]%elem_of_difference. now apply H3.
      + left. rewrite dom_list_to_map_L. apply elem_of_list_to_set.
        apply list_elem_of_fmap. eexists (id, _). split; [reflexivity|].
        rewrite elem_of_reverse. eapply upserts_elem_2; eauto. }
  split; [exact Hdom|]. intros Hc.
  assert (HE : dom (workouts (db w')) = E).
  { apply set_eq. intros id. rewrite Hdom. split.
    - intros [[_ H]|(x & Hx & Hid & Ht)]; [exact H|].
      eapply enum_covers; eauto.
    - intros Hin.
      destruct (enum_subset_pages _ _ _ _ _ _ _ _ He Hall Hin) as [H|H];
        [set_solver|now right]. }
  split; [exact HE|].
  destruct (sync_first_page_returns _ _ _ _ _ _ _ Hrun)
    as (E' & k & w2 & w3 & es & He' & _ & _ & _ & _ & ->).
  rewrite He in He'. injection He' as <- _. simpl. now rewrite HE.
Qed.

(** X17. On a store that does not fail, with a listing that ends, the run
    returns, and a workout id is stored afterwards exactly when it was
    stored before and is among the ids the enumeration collected, or it is
    the id of a workout that the upsert pass saw (whether or not its detail
    could be fetched).  When the remote keeps the pagination contract, the
    stored ids are exactly the collected remote ids, as many as the summary
    reports in [total_hevy_workouts]. *)
Theorem local_ids_after_sync (env : Env) (page page_size fuel : nat)
    (w : World) :
  reliable env -> listing_ends env 1 fuel ->
  exists s w' E n all,
    sync_first_page env page page_size fuel w = Returns s w' /\
    enum_from env fuel 1 ∅ = Some (E, n) /\
    pages_from env fuel 1 = Some all /\
    (forall id,
       id ∈ dom (workouts (db w')) <->
       (id ∈ dom (workouts (db w)) /\ id ∈ E) \/
       exists x, x ∈ all /\ rw_id x = Some id /\ truthy (Some id) = true) /\
    (paginated env ->
     dom (workouts (db w')) = E /\
     total_hevy_workouts s = size (dom (workouts (db w')))).
Proof. apply local_ids_cases. Qed.


Lemma local_ids_after_sync_witness :
  reliable env_bcd /\ listing_ends env_bcd 1 5 /\ paginated env_bcd /\
  exists s w',
    sync_first_page env_bcd 1 10 5 w_abc = Returns s w' /\
    dom (workouts (db w')) = {["B"; "C"; "D"]} /\
    total_hevy_workouts s = size (dom (workouts (db w'))).
Proof.
  split; [exact env_bcd_reliable|]. split; [exact env_bcd_ends|].
  split; [exact env_bcd_paginated|].
  destruct (local_ids_after_sync env_bcd 1 10 5 w_abc
              env_bcd_reliable env_bcd_ends)
    as (s & w' & E & n & all & Hrun & He & _ & _ & Hc).
  destruct (Hc env_bcd_paginated) as [HE Ht].
  exists s, w'. split; [exact Hrun|]. split; [|exact Ht].
  rewrite HE. rewrite env_bcd_ids in He. now injection He as <- _.
Defined.

(** X18. On a store that does not fail, the counters of the summary are
    read off the remote alone: [workouts_seen] is the number of workouts on
    the pages of the upsert pass, [workouts_upserted] the number of those
    with a non-empty id, [sets_inserted] the number of rows mapped from the
    details that could be fetched; [workouts_deleted] and the two totals
    are the sizes of [local - remote], of the collected remote ids and of
    the local ids read before the run. *)
Theorem summary_counts_what_the_remote_served (env : Env)
    (page page_size fuel : nat) (w : World) :
  reliable env -> listing_ends env 1 fuel ->
  exists s w' E n all,
    sync_first_page env page page_size fuel w = Returns s w' /\
    enum_from env fuel 1 ∅ = Some (E, n) /\
    pages_from env fuel 1 = Some all /\
    sync_type s = "unified_with_deletion" /\
    workouts_seen s = length all /\
    workouts_upserted s
      = sum_list ((fun x => if truthy (rw_id x) then 1 else 0) <$> all) /\
    workouts_upserted s <= workouts_seen s /\
    sets_inserted s = length (submitted env all) /\
    workouts_deleted s = size (dom (workouts (db w)) ∖ E) /\
    total_hevy_workouts s = size E /\
    total_local_before s = size (dom (workouts (db w))).
Proof.
  intros Hr Hends.
  destruct (enum_from_ends env fuel 1 ∅ Hends) as (E & n & He).
  destruct (pages_from_ends env fuel 1 Hends) as (all & Hall).
  destruct (sync_first_page_reliable env page page_size fuel w E n all
              Hr He Hall) as (s & w' & Hrun & _).
  exists s, w', E, n, all.
  split; [exact Hrun|]. split; [exact He|]. split; [exact Hall|].
  pose proof (run_frame env page page_size fuel w s w' all Hr Hall Hrun) as F.
  destruct (sync_first_page_returns _ _ _ _ _ _ _ Hrun)
    as (E' & k & w2 & w3 & es & He' & _ & _ & _ & _ & ->).
  rewrite He in He'. injection He' as <- _. simpl. rewrite F.
  rewrite foldl_count_seen, foldl_count_upserted, foldl_count_sets_total.
  rewrite <- upserts_length. simpl.
  repeat split; try reflexivity.
  unfold upserts. apply length_omap_le.
Qed.

Lemma summary_counts_what_the_remote_served_witness :
  reliable env_bcd /\ listing_ends env_bcd 1 5 /\
  exists s w',
    sync_first_page env_bcd 1 10 5 w_abc = Returns s w' /\
    workouts_seen s = 3 /\ workouts_upserted s = 3 /\ sets_inserted s = 2 /\
    workouts_deleted s = 1 /\ total_hevy_workouts s = 3 /\
    total_local_before s = 3.
Proof.
  split; [exact env_bcd_reliable|]. split; [exact env_bcd_ends|].
  destruct (summary_counts_what_the_remote_served env_bcd 1 10 5 w_abc
              env_bcd_reliable env_bcd_ends)
    as (s & w' & E & n & all & Hrun & He & Hall & _ & H1 & H2 & _ & H3 & H4
        & H5 & H6).
  exists s, w'. split; [exact Hrun|].
  rewrite H1, H2, H3, H4, H5, H6.
  rewrite env_bcd_ids in He. injection He as <- _.
  vm_compute in Hall. injection Hall as <-.
  repeat split; vm_compute; reflexivity.
Defined.

(** X19. On a store that does not fail, when the rows mapped from the
    fetched details fit the columns of the [sets] table, the table after a
    run is known row by row: a row stored before stays as it is unless its
    workout was deleted by the reconciliation; under any other id the table
    holds the first row with that id among the mapped rows, in the order of
    the upsert pass.  A workout whose detail could not be fetched
    contributes no row and takes none away. *)
Theorem sets_after_sync (env : Env) (page page_size fuel : nat) (w : World) :
  reliable env -> listing_ends env 1 fuel ->
  exists s w' E n all,
    sync_first_page env page page_size fuel w = Returns s w' /\
    enum_from env fuel 1 ∅ = Some (E, n) /\
    pages_from env fuel 1 = Some all /\
    (forallb fits_columns (submitted env all) = true ->
     forall k,
       sets (db w') !! k =
       match sets (db w) !! k with
       | Some r =>
           if decide (sr_workout_id r ∈ dom (workouts (db w)) ∖ E)
           then head (filter (fun r => sr_id r = k) (submitted env all))
           else Some r
       | None => head (filter (fun r => sr_id r = k) (submitted env all))
       end) /\
    (forall x id e,
       rw_id x = Some id -> get_workout env id = inl e ->
       submitted_rows env x = []).
Proof.
  intros Hr Hends.
  destruct (enum_from_ends env fuel 1 ∅ Hends) as (E & n & He).
  destruct (pages_from_ends env fuel 1 Hends) as (all & Hall).
  destruct (sync_first_page_reliable env page page_size fuel w E n all
              Hr He Hall) as (s & w' & Hrun & _ & HS & _).
  exists s, w', E, n, all.
  split; [exact Hrun|]. split; [exact He|]. split; [exact Hall|]. split.
  - intros _ k. rewrite HS, foldl_apply_sets, lookup_union, rows_map_head.
    destruct (sets (purge (dom (workouts (db w)) ∖ E) (db w)) !! k)
      as [r0|] eqn:E1.
    + apply purge_sets in E1 as [E1 Hout]. rewrite E1.
      destruct (decide _) as [Hin|_]; [contradiction|].
      now destruct (head _).
    + destruct (sets (db w) !! k) as [r|] eqn:E2.
      * destruct (decide _) as [Hin|Hout]; [now destruct (head _)|].
        assert (E3 : sets (purge (dom (workouts (db w)) ∖ E) (db w)) !! k
                     = Some r) by now apply purge_sets.
        congruence.
      * now destruct (head _).
  - intros x id e Hid Hd. unfold submitted_rows. rewrite Hid, Hd.
    now destruct (truthy (Some id)).
Qed.

Lemma sets_after_sync_witness :
  reliable env_bcd /\ listing_ends env_bcd 1 5 /\
  exists s w' all,
    sync_first_page env_bcd 1 10 5 w_abc = Returns s w' /\
    pages_from env_bcd 5 1 = Some all /\
    forallb fits_columns (submitted env_bcd all) = true /\
    sets (db w') !! "B:0:0" = Some (stale_set "B") /\
    sets (db w') !! "A:0:0" = None /\
    sr_exercise_title <$> sets (db w') !! "B:1:0" = Some "Bench Press".
Proof.
  split; [exact env_bcd_reliable|]. split; [exact env_bcd_ends|].
  destruct (sets_after_sync env_bcd 1 10 5 w_abc
              env_bcd_reliable env_bcd_ends)
    as (s & w' & E & n & all & Hrun & He & Hall & Hk & _).
  exists s, w', all. split; [exact Hrun|]. split; [exact Hall|].
  rewrite env_bcd_ids in He. injection He as <- _.
  vm_compute in Hall. injection Hall as <-.
  assert (Hfit : forallb fits_columns
                   (submitted env_bcd
                      [workout "B"; workout "C"; workout "D"]) = true)
    by (vm_compute; reflexivity).
  split; [exact Hfit|]. rewrite !(Hk Hfit). repeat split.
Defined.

(** ** When the listing fails, never ends, or ends on a short page *)

(** X20. When the first page of the workout listing cannot be fetched and
    the deletion transaction meets no store failure, the run still returns,
    having deleted every local workout and every set row that pointed to
    one: the collected remote set is empty, [local - remote] is the whole
    local set, and the upsert pass, which fails on the same page, writes
    nothing back.  The summary reports all local workouts as deleted and
    none as seen. *)
Theorem failed_first_page_empties_the_workouts (env : Env)
    (page page_size fuel : nat) (w : World) :
  page_fails env 1 -> 0 < fuel ->
  (forall n, clock w <= n < clock w + 5 -> db_fault env n = None) ->
  exists s w',
    sync_first_page env page page_size fuel w = Returns s w' /\
    workouts (db w') = ∅ /\
    (forall k r, sets (db w') !! k = Some r <->
                 sets (db w) !! k = Some r /\
                 (sr_workout_id r ∉ dom (workouts (db w)))) /\
    workouts_deleted s = size (dom (workouts (db w))) /\
    total_hevy_workouts s = 0 /\
    workouts_seen s = 0 /\ workouts_upserted s = 0 /\ sets_inserted s = 0.
Proof.
  intros Hfail Hfuel Hok.
  destruct fuel as [|fuel]; [lia|].
  unfold page_fails in Hfail.
  destruct (list_workouts env 1 10) as [e1|ws] eqn:Hp; [|contradiction].
  assert (He : enum_from env (S fuel) 1 ∅ = Some (∅, 1)).
  { simpl. now rewrite Hp. }
  unfold sync_first_page, bind. rewrite enumerate_ids_spec, He.
  unfold sync_after_enumeration, bind.
  pose proof (reconcile_cases env ∅ (add_logs (list_reqs 1 1) w)) as R.
  simpl in R.
  destruct (reconcile env ∅ _) as [del w2|e2 w2|]; [| |contradiction].
  2:{ destruct R as (_ & _ & _ & k & Hk & Hf). rewrite Hok in Hf by exact Hk.
      discriminate. }
  destruct R as (-> & Hdb & _ & _). cbn [fst snd].
  unfold sync_after_deletion, bind, modify_frame.
  assert (Hup : upsert_pages env (S fuel) 1 (set_frame zero_counters w2)
                = Returns tt (add_log (ReqListWorkouts 1 10)
                                      (set_frame zero_counters w2))).
  { simpl. unfold bind at 1. unfold try_except, bind, call_list_workouts,
      remote_call. now rewrite Hp. }
  rewrite Hup.
  destruct (sync_exercise_templates_returns env
              (add_log (ReqListWorkouts 1 10) (set_frame zero_counters w2)))
    as (es & w4 & Hx).
  pose proof (same_frame_sync_exercise_templates env
                (add_log (ReqListWorkouts 1 10)
                         (set_frame zero_counters w2))) as F4.
  rewrite Hx in F4 |- *.
  assert (H4 : holds (fun d => workouts d = workouts (db w2) /\
                               sets d = sets (db w2)) (fun _ => True) w4).
  { eapply (keeps_final _ _ (sync_exercise_templates env)
              (add_log (ReqListWorkouts 1 10) (set_frame zero_counters w2))).
    - apply keeps_sync_exercise_templates; [auto|]. intros d m Hd. exact Hd.
    - repeat split.
    - now rewrite Hx. }
  destruct H4 as [[HW HS] _].
  unfold get_frame, ret. eexists _, w4. split; [reflexivity|]. simpl.
  assert (Hall : dom (workouts (db w)) ∖ ∅ = dom (workouts (db w)))
    by set_solver.
  rewrite Hall in Hdb |- *. rewrite HW, HS, Hdb, F4.
  split; [|split; [|repeat split; try reflexivity; apply size_empty]].
  - apply (dom_empty_inv_L (D := gset string)). rewrite purge_dom.
    set_solver.
  - intros k r. apply purge_sets.
Qed.

Lemma failed_first_page_empties_the_workouts_witness :
  page_fails env_first_page_fails 1 /\ 0 < 3 /\
  (forall n, clock w_abc <= n < clock w_abc + 5 ->
             db_fault env_first_page_fails n = None) /\
  exists s w',
    sync_first_page env_first_page_fails 1 10 3 w_abc = Returns s w' /\
    workouts (db w') = ∅ /\ workouts_deleted s = 3.
Proof.
  assert (H1 : page_fails env_first_page_fails 1) by exact I.
  assert (H2 : 0 < 3) by lia.
  assert (H3 : forall n, clock w_abc <= n < clock w_abc + 5 ->
                         db_fault env_first_page_fails n = None)
    by (intros n _; reflexivity).
  split; [exact H1|]. split; [exact H2|]. split; [exact H3|].
  destruct (failed_first_page_empties_the_workouts env_first_page_fails
              1 10 3 w_abc H1 H2 H3)
    as (s & w' & Hrun & HW & _ & Hd & _).
  exists s, w'. split; [exact Hrun|]. split; [exact HW|].
  rewrite Hd. vm_compute. reflexivity.
Defined.

Lemma enum_from_full env fuel page ids :
  (forall p, full_page env p) -> enum_from env fuel page ids = None.
Proof.
  intros Hfull. revert page ids.
  induction fuel as [|fuel IH]; intros page ids; [reflexivity|]. simpl.
  pose proof (Hfull page) as Hp. unfold full_page in Hp.
  destruct (list_workouts env page 10) as [e|ws]; [contradiction|].
  destruct ws as [|x ws]; [simpl in Hp; lia|].
  destruct (length (x :: ws) <? 10) eqn:Hlt;
    [apply Nat.ltb_lt in Hlt; lia|].
  now rewrite IH.
Qed.

(** X21. The workout loops have no cap: against a remote that answers
    every page with a full page, no number of rounds lets the run finish,
    whatever the store does.  (The catalogue loop, by contrast, stops after
    100 pages.) *)
Theorem endless_listing_never_returns (env : Env) (page page_size fuel : nat)
    (w : World) :
  (forall p, full_page env p) ->
  sync_first_page env page page_size fuel w = OutOfFuel.
Proof.
  intros Hfull. unfold sync_first_page, bind.
  now rewrite enumerate_ids_spec, (enum_from_full env fuel 1 ∅ Hfull).
Qed.

Lemma endless_listing_never_returns_witness :
  (forall p, full_page env_endless p) /\
  sync_first_page env_endless 1 10 1000 w_abc = OutOfFuel.
Proof.
  assert (H : forall p, full_page env_endless p).
  { intros p. unfold full_page. simpl. lia. }
  split; [exact H|].
  exact (endless_listing_never_returns env_endless 1 10 1000 w_abc H).
Defined.

Lemma enum_from_short env k fuel page ids ws :
  (forall i, i < k -> full_page env (page + i)) ->
  list_workouts env (page + k) 10 = inr ws ->
  0 < length ws < 10 ->
  k < fuel ->
  enum_from env fuel page ids
    = Some (ids ∪ ids_of_pages env page (S k), S k).
Proof.
  revert fuel page ids. induction k as [|k IH];
    intros fuel page ids Hfull Hshort Hlen Hk.
  - destruct fuel as [|fuel]; [lia|]. simpl.
    replace (page + 0) with page in Hshort by lia. rewrite Hshort.
    destruct ws as [|x ws]; [simpl in Hlen; lia|].
    destruct (length (x :: ws) <? 10) eqn:Hlt;
      [|apply Nat.ltb_ge in Hlt; lia].
    now rewrite (right_id_L ∅ (∪)).
  - destruct fuel as [|fuel]; [lia|].
    pose proof (Hfull 0 ltac:(lia)) as H0. unfold full_page in H0.
    replace (page + 0) with page in H0 by lia.
    change (enum_from env (S fuel) page ids) with
      (match list_workouts env page 10 with
       | inl _ => Some (ids, 1)
       | inr [] => Some (ids, 1)
       | inr ws0 =>
           if length ws0 <? 10 then Some (ids ∪ page_ids ws0, 1)
           else
             match enum_from env fuel (page + 1) (ids ∪ page_ids ws0) with
             | Some (E, n) => Some (E, S n)
             | None => None
             end
       end).
    change (ids_of_pages env page (S (S k))) with
      (match list_workouts env page 10 with
       | inr ws0 => page_ids ws0
       | inl _ => ∅
       end ∪ ids_of_pages env (page + 1) (S k)).
    destruct (list_workouts env page 10) as [e|ws0]; [contradiction|].
    destruct ws0 as [|x ws0]; [simpl in H0; lia|].
    destruct (length (x :: ws0) <? 10) eqn:Hlt;
      [apply Nat.ltb_lt in Hlt; lia|].
    rewrite (IH fuel (page + 1)).
    + now rewrite (assoc_L (∪)).
    + intros i Hi. replace (page + 1 + i) with (page + S i) by lia.
      apply Hfull. lia.
    + now replace (page + 1 + k) with (page + S k) by lia.
    + exact Hlen.
    + lia.
Qed.

(** X22. The enumeration loop ends on a short page: when pages 1..k are
    full and page k+1 returns between 1 and 9 workouts, the loop has
    requested pages 1..k+1 once each, in order, and nothing after the short
    page, and returns the non-empty ids of those k+1 pages; it has not
    touched the database. *)
Theorem enumeration_stops_at_short_page (env : Env) (k fuel : nat)
    (ws : list RemoteWorkout) (w : World) :
  (forall i, i < k -> full_page env (1 + i)) ->
  list_workouts env (1 + k) 10 = inr ws ->
  0 < length ws < 10 ->
  k < fuel ->
  enumerate_ids env fuel 1 ∅ w
    = Returns (ids_of_pages env 1 (S k)) (add_logs (list_reqs 1 (S k)) w) /\
  db (add_logs (list_reqs 1 (S k)) w) = db w /\
  clock (add_logs (list_reqs 1 (S k)) w) = clock w.
Proof.
  intros Hfull Hshort Hlen Hk.
  rewrite enumerate_ids_spec,
    (enum_from_short env k fuel 1 ∅ ws Hfull Hshort Hlen Hk).
  rewrite (left_id_L ∅ (∪)). repeat split.
Qed.

Lemma enumeration_stops_at_short_page_witness :
  (forall i, i < 1 -> full_page env_full_then_short (1 + i)) /\
  list_workouts env_full_then_short (1 + 1) 10
    = inr [workout "w10"; workout "w11"] /\
  0 < length [workout "w10"; workout "w11"] < 10 /\ 1 < 5 /\
  enumerate_ids env_full_then_short 5 1 ∅ w_abc
    = Returns (ids_of_pages env_full_then_short 1 2)
              (add_logs [ReqListWorkouts 1 10; ReqListWorkouts 2 10] w_abc).
Proof.
  assert (H1 : forall i, i < 1 -> full_page env_full_then_short (1 + i)).
  { intros i Hi. assert (i = 0) as -> by lia. unfold full_page. simpl. lia. }
  assert (H2 : list_workouts env_full_then_short (1 + 1) 10
               = inr [workout "w10"; workout "w11"]) by reflexivity.
  assert (H3 : 0 < length [workout "w10"; workout "w11"] < 10)
    by (simpl; lia).
  assert (H4 : 1 < 5) by lia.
  split; [exact H1|]. split; [exact H2|]. split; [exact H3|].
  split; [exact H4|].
  exact (proj1 (enumeration_stops_at_short_page env_full_then_short 1 5
                  _ w_abc H1 H2 H3 H4)).
Defined.

(** ** The endpoints next to the sync *)

Lemma sync_first_page_raises env page page_size fuel w e w' :
  sync_first_page env page page_size fuel w = Raises e w' ->
  db w' = db w /\
  exists n, clock w <= n < clock w + 5 /\ db_fault env n = Some e.
Proof.
  intros H. unfold sync_first_page, bind in H.
  rewrite enumerate_ids_spec in H.
  destruct (enum_from env fuel 1 ∅) as [[E k]|]; [|discriminate].
  unfold sync_after_enumeration, bind in H.
  pose proof (reconcile_cases env E (add_logs (list_reqs 1 k) w)) as R.
  simpl in R.
  destruct (reconcile env E _) as [del w2|e2 w2|]; [| |contradiction].
  - pose proof (sync_after_deletion_cases env fuel E del.1 del.2 w2) as C.
    rewrite H in C. contradiction.
  - injection H as <- <-. destruct R as (Hdb & _ & _ & Hn). auto.
Qed.

(** X23. [POST /sync/hevy] returns exactly the summary of
    [sync_first_page]; the only exception it raises is an [HTTPException]
    with status 500 whose detail is the message of the store failure that
    left the deletion transaction, and then the tables are as before the
    call; it loops exactly when [sync_first_page] does. *)
Theorem sync_hevy_answers_500_on_store_failure (env : Env)
    (page page_size fuel : nat) (w : World) :
  match sync_hevy env page page_size fuel w with
  | Returns s w' =>
      sync_first_page env page page_size fuel w = Returns s w'
  | Raises e w' =>
      exists e0 n,
        e = HTTPException 500 (exn_msg e0) /\
        sync_first_page env page page_size fuel w = Raises e0 w' /\
        db w' = db w /\
        clock w <= n < clock w + 5 /\ db_fault env n = Some e0
  | OutOfFuel => sync_first_page env page page_size fuel w = OutOfFuel
  end.
Proof.
  unfold sync_hevy, try_except, bind, ret, raise.
  destruct (sync_first_page env page page_size fuel w) as [s w'|e0 w'|] eqn:H;
    [reflexivity| |reflexivity].
  destruct (sync_first_page_raises _ _ _ _ _ _ _ H) as (Hdb & n & Hn & Hf).
  exists e0, n. auto.
Qed.

Lemma counts_cases env w :
  match counts env w with
  | Returns c w' =>
      c = {| count_workouts := size (workouts (db w));
             count_sets := size (sets (db w)) |} /\ db w' = db w
  | Raises e w' => db w' = db w
  | OutOfFuel => False
  end.
Proof.
  unfold counts, bind at 1.
  destruct (get_db env _ w) as [c w'|e w'|] eqn:G.
  - unfold ret. revert G. unfold get_db, bind, db_exec, ret.
    destruct (db_fault env (clock w)); [discriminate|]. simpl.
    destruct (db_fault env (S (clock w))); [discriminate|]. simpl.
    destruct (db_fault env (S (S (clock w)))); [discriminate|]. simpl.
    destruct (db_fault env (S (S (S (clock w))))); [discriminate|]. simpl.
    intros [= <- <-]. simpl. split; [reflexivity|]. now destruct w as [[]].
  - now apply get_db_raises in G.
  - revert G. unfold get_db, bind, db_exec, ret.
    destruct (db_fault env (clock w)); [discriminate|]. simpl.
    destruct (db_fault env (S (clock w))); [discriminate|]. simpl.
    destruct (db_fault env (S (S (clock w)))); [discriminate|]. simpl.
    destruct (db_fault env (S (S (S (clock w))))); discriminate.
Qed.

(** X24. [GET /_counts] only reads: however it ends, the tables are
    unchanged.  Called after a run on a store that does not fail, against a
    remote that keeps the pagination contract, it reports as many workouts
    as the summary's [total_hevy_workouts], and as many sets as the table
    holds. *)
Theorem counts_agree_with_the_summary (env : Env) (page page_size fuel : nat)
    (w : World) :
  (forall w0 w1, final_world (counts env w0) = Some w1 -> db w1 = db w0) /\
  (reliable env -> paginated env -> listing_ends env 1 fuel ->
   exists s w' c w'',
     sync_first_page env page page_size fuel w = Returns s w' /\
     counts env w' = Returns c w'' /\
     count_workouts c = total_hevy_workouts s /\
     count_sets c = size (sets (db w')) /\
     db w'' = db w').
Proof.
  split.
  - intros w0 w1 Hf. pose proof (counts_cases env w0) as C.
    destruct (counts env w0) as [c w2|e w2|]; simpl in Hf;
      [| |discriminate]; injection Hf as <-; [apply C|exact C].
  - intros Hr Hc Hends.
    destruct (local_ids_cases env page page_size fuel w Hr Hends)
      as (s & w' & E & n & all & Hrun & _ & _ & _ & Hp).
    destruct (Hp Hc) as [HE Ht].
    pose proof (counts_cases env w') as C.
    destruct (counts env w') as [c w''|e w''|] eqn:Hcnt.
    + destruct C as [-> Hdb]. eexists s, w', _, w''.
      split; [exact Hrun|]. split; [exact Hcnt|]. simpl.
      rewrite Ht, size_dom. auto.
    + exfalso. revert Hcnt. unfold counts, bind at 1.
      unfold get_db, bind, db_exec, ret. rewrite !Hr. discriminate.
    + contradiction.
Qed.

Lemma counts_agree_with_the_summary_witness :
  reliable env_bcd /\ paginated env_bcd /\ listing_ends env_bcd 1 5 /\
  exists s w' c w'',
    sync_first_page env_bcd 1 10 5 w_abc = Returns s w' /\
    counts env_bcd w' = Returns c w'' /\
    count_workouts c = total_hevy_workouts s /\
    count_sets c = size (sets (db w')) /\
    db w'' = db w'.
Proof.
  split; [exact env_bcd_reliable|]. split; [exact env_bcd_paginated|].
  split; [exact env_bcd_ends|].
  exact (proj2 (counts_agree_with_the_summary env_bcd 1 10 5 w_abc)
           env_bcd_reliable env_bcd_paginated env_bcd_ends).
Defined.

(** * [app/hevy_client.py]: the base address *)

Lemma endswith_app x suffix : endswith (x +:+ suffix) suffix = true.
Proof.
  induction x as [|c x IH]; simpl.
  - destruct suffix; simpl; now rewrite ?String.eqb_refl, ?Ascii.eqb_refl.
  - rewrite IH. now rewrite orb_true_r.
Qed.

Lemma endswith_slash_v1 s :
  endswith s "/v1" = true -> endswith s "/" = false.
Proof.
  induction s as [|c s IH]; [discriminate|].
  change (endswith (String c s) "/v1")
    with (String.eqb (String c s) "/v1" || endswith s "/v1").
  change (endswith (String c s) "/")
    with (String.eqb (String c s) "/" || endswith s "/").
  intros H. apply orb_true_iff in H as [H|H].
  - apply String.eqb_eq in H. injection H as -> ->. reflexivity.
  - rewrite (IH H), orb_false_r.
    destruct s as [|c' s']; [discriminate|].
    simpl. now destruct (Ascii.eqb c "/").
Qed.

Lemma rstrip_slash_no_slash s : endswith (rstrip_slash s) "/" = false.
Proof.
  induction s as [|c s IH]; [reflexivity|]. simpl.
  destruct (rstrip_slash s) as [|c' r] eqn:E.
  - destruct (Ascii.eqb c "/") eqn:Ec; [reflexivity|].
    simpl. now rewrite Ec.
  - change (endswith (String c (String c' r)) "/")
      with (String.eqb (String c (String c' r)) "/" ||
            endswith (String c' r) "/").
    rewrite IH, orb_false_r. simpl. now destruct (Ascii.eqb c "/").
Qed.

Lemma rstrip_slash_id s : endswith s "/" = false -> rstrip_slash s = s.
Proof.
  induction s as [|c s IH]; [reflexivity|].
  change (endswith (String c s) "/")
    with (String.eqb (String c s) "/" || endswith s "/").
  intros H. apply orb_false_iff in H as [H1 H2].
  simpl. rewrite (IH H2). destruct s as [|c' s']; [|reflexivity].
  simpl in H1. now destruct (Ascii.eqb c "/").
Qed.

(** X25. The base address of the client always ends in [/v1] and never
    in a slash, whatever [HEVY_API_BASE] holds: an unset variable gives the
    public address, trailing slashes are dropped, a value that ends in
    [/v1] once they are dropped is kept, and [/v1] is appended to any
    other.  Feeding the result back in changes nothing. *)
Theorem base_address_ends_in_v1 (hevy_api_base : option string) :
  endswith (BASE hevy_api_base) "/v1" = true /\
  endswith (BASE hevy_api_base) "/" = false /\
  BASE (Some (BASE hevy_api_base)) = BASE hevy_api_base /\
  BASE None = "https://api.hevyapp.com/v1" /\
  (forall s, hevy_api_base = Some s ->
     endswith (rstrip_slash s) "/v1" = true ->
     BASE hevy_api_base = rstrip_slash s) /\
  (forall s, hevy_api_base = Some s ->
     endswith (rstrip_slash s) "/v1" = false ->
     BASE hevy_api_base = rstrip_slash s +:+ "/v1").
Proof.
  assert (H1 : forall v, endswith (BASE v) "/v1" = true).
  { intros v. unfold BASE. cbv zeta.
    destruct (endswith (rstrip_slash _) "/v1") eqn:E; simpl;
      [exact E|apply endswith_app]. }
  assert (H2 : forall v, endswith (BASE v) "/" = false).
  { intros v. apply endswith_slash_v1, H1. }
  split; [apply H1|]. split; [apply H2|]. split; [|split; [reflexivity|]].
  - unfold BASE at 1. cbv zeta. simpl default.
    rewrite (rstrip_slash_id _ (H2 hevy_api_base)), (H1 hevy_api_base).
    reflexivity.
  - split; intros s -> E; unfold BASE; cbv zeta; simpl default; rewrite E;
      simpl; [reflexivity|].
    now rewrite (rstrip_slash_id _ (rstrip_slash_no_slash s)).
Qed.

Lemma base_address_ends_in_v1_witness :
  endswith (rstrip_slash "http://localhost:8080/api//") "/v1" = false /\
  BASE (Some "http://localhost:8080/api//") = "http://localhost:8080/api/v1" /\
  endswith (rstrip_slash "https://api.hevyapp.com/v1/") "/v1" = true /\
  BASE (Some "https://api.hevyapp.com/v1/") = "https://api.hevyapp.com/v1".
Proof.
  split; [reflexivity|]. split.
  - exact (proj2 (proj2 (proj2 (proj2 (proj2
             (base_address_ends_in_v1 (Some "http://localhost:8080/api//"))))))
             _ eq_refl eq_refl).
  - split; [reflexivity|].
    exact (proj1 (proj2 (proj2 (proj2 (proj2
             (base_address_ends_in_v1 (Some "https://api.hevyapp.com/v1/"))))))
             _ eq_refl eq_refl).
Defined.

(** * C2: a second run over the same remote *)

Lemma list_to_map_reverse_last {V} (l : list (string * V)) (k : string) :
  (list_to_map (reverse l) : gmap string V) !! k
    = snd <$> last (filter (fun kv => kv.1 = k) l).
Proof.
  induction l as [|[k' v] l IH] using rev_ind; [reflexivity|].
  rewrite reverse_app, filter_app. simpl.
  rewrite filter_cons, filter_nil. simpl.
  destruct (decide (k' = k)) as [->|Hne].
  - rewrite lookup_insert_eq, last_snoc. reflexivity.
  - rewrite lookup_insert_ne by exact Hne. now rewrite app_nil_r.
Qed.

Lemma last_upsert_is_Some all x id :
  x ∈ all -> rw_id x = Some id -> truthy (Some id) = true ->
  is_Some (last_upsert all id).
Proof.
  intros Hx Hid Ht. unfold last_upsert.
  rewrite <- list_to_map_reverse_last. apply elem_of_dom.
  rewrite dom_list_to_map_L. apply elem_of_list_to_set.
  apply list_elem_of_fmap.
  exists (id, Repo._normalize_workout_params (Mappers.to_workout_row x)).
  split; [reflexivity|]. rewrite elem_of_reverse.
  now apply upserts_elem_2.
Qed.

Lemma last_upsert_served all id v :
  last_upsert all id = Some v ->
  exists x, x ∈ all /\ rw_id x = Some id /\ v = Mappers.to_workout_row x.
Proof.
  unfold last_upsert. rewrite <- list_to_map_reverse_last. intros H.
  apply elem_of_list_to_map_2 in H. rewrite elem_of_reverse in H.
  unfold upserts in H. apply list_elem_of_omap in H as (x & Hx & Hf).
  exists x. split; [exact Hx|].
  destruct (rw_id x) as [id'|]; [|discriminate].
  destruct (truthy (Some id')); [|discriminate].
  injection Hf as -> <-. split; [reflexivity|].
  apply normalize_to_workout_row.
Qed.

(** C2 (as the code has it). With a store that does not fail and a remote
    that keeps the pagination contract and whose listing ends, a second run
    over the same remote returns and leaves the workout and set rows
    exactly as the first run left them: nothing is deleted; the second run
    upserts every workout with an id again, and the row it writes under an
    id, the mapped row of the last workout served under that id, is the row
    the first run had stored; every set id submitted to the bulk insert
    already exists, so no set row is added. *)
Theorem second_sync_changes_nothing env page page_size fuel w :
  reliable env -> paginated env -> listing_ends env 1 fuel ->
  exists s1 w1 s2 w2 all,
    sync_first_page env page page_size fuel w = Returns s1 w1 /\
    sync_first_page env page page_size fuel w1 = Returns s2 w2 /\
    workouts (db w2) = workouts (db w1) /\
    sets (db w2) = sets (db w1) /\
    workouts_deleted s2 = 0 /\
    pages_from env fuel 1 = Some all /\
    (forall r, r ∈ submitted env all -> is_Some (sets (db w1) !! sr_id r)) /\
    workouts_upserted s2 = length (upserts all) /\
    workouts_upserted s1 = length (upserts all) /\
    (forall x id,
       x ∈ all -> rw_id x = Some id -> truthy (Some id) = true ->
       exists v x',
         last_upsert all id = Some v /\
         x' ∈ all /\ rw_id x' = Some id /\ v = Mappers.to_workout_row x' /\
         workouts (db w1) !! id = Some v /\
         workouts (db w2) !! id = Some v).
Proof.
  intros Hr Hc Hends.
  destruct (enum_from_ends env fuel 1 ∅ Hends) as (E & n & He).
  destruct (pages_from_ends env fuel 1 Hends) as (all & Hall).
  destruct (two_runs env page page_size fuel E n all w Hr Hc He Hall)
    as (s1 & w1 & s2 & w2 & R1 & R2 & HW & HS & HD & _ & _ & Hex).
  exists s1, w1, s2, w2, all.
  do 7 (split; [assumption|]).
  assert (Hup : forall w0 s w',
            sync_first_page env page page_size fuel w0 = Returns s w' ->
            workouts_upserted s = length (upserts all)).
  { intros w0 s w' Hrun.
    pose proof (run_frame env page page_size fuel w0 s w' all Hr Hall Hrun)
      as Hf.
    destruct (sync_first_page_returns _ _ _ _ _ _ _ Hrun)
      as (E0 & k0 & w2' & w3' & es & _ & _ & _ & _ & _ & ->). simpl.
    now rewrite Hf, foldl_count_upserted. }
  split; [exact (Hup _ _ _ R2)|]. split; [exact (Hup _ _ _ R1)|].
  intros x id Hx Hid Ht.
  destruct (last_upsert_is_Some all x id Hx Hid Ht) as [v Hv].
  destruct (last_upsert_served all id v Hv) as (x' & Hx' & Hid' & ->).
  exists (Mappers.to_workout_row x'), x'.
  do 4 (split; [first [assumption|reflexivity]|]).
  assert (H1 : workouts (db w1) !! id = Some (Mappers.to_workout_row x')).
  { destruct (sync_first_page_reliable env page page_size fuel w E n all
                Hr He Hall) as (s1' & w1' & R1' & W1 & _).
    rewrite R1 in R1'. injection R1' as <- <-.
    rewrite W1, foldl_apply_workouts. apply lookup_union_Some_l.
    rewrite list_to_map_reverse_last. exact Hv. }
  split; [exact H1|]. now rewrite HW.
Qed.

(** A second run on the fixture of C1: nothing is deleted and the rows of
    B, C and D are written again as they are. *)
Lemma second_sync_changes_nothing_witness :
  reliable env_bcd /\ paginated env_bcd /\ listing_ends env_bcd 1 5 /\
  exists s1 w1 s2 w2,
    sync_first_page env_bcd 1 10 5 w_abc = Returns s1 w1 /\
    sync_first_page env_bcd 1 10 5 w1 = Returns s2 w2 /\
    workouts (db w2) = workouts (db w1) /\
    sets (db w2) = sets (db w1) /\
    workouts_deleted s2 = 0 /\
    workouts_upserted s2 = 3 /\
    workouts (db w2) !! "D" = Some (Mappers.to_workout_row (workout "D")).
Proof.
  split; [exact env_bcd_reliable|]. split; [exact env_bcd_paginated|].
  split; [exact env_bcd_ends|].
  destruct (second_sync_changes_nothing env_bcd 1 10 5 w_abc
              env_bcd_reliable env_bcd_paginated env_bcd_ends)
    as (s1 & w1 & s2 & w2 & all & R1 & R2 & HW & HS & HD & Hall & _ & U2 & _
        & Hrow).
  exists s1, w1, s2, w2. do 5 (split; [assumption|]).
  vm_compute in Hall. injection Hall as <-.
  split; [exact U2|].
  destruct (Hrow (workout "D") "D") as (v & x' & Hv & _ & _ & _ & _ & H2);
    [set_solver|reflexivity|reflexivity|].
  vm_compute in Hv. injection Hv as <-. exact H2.
Defined.

(** The claim without these conditions.  First: the store refuses the
    opening of the first page transaction of the first run, which the run
    absorbs; the second run then adds the workout D and a set of B that the
    first run had not stored.  Second: the remote serves a workout after a
    short page; the enumeration of the second run does not see W2, its
    deletion block removes W2 and both of its sets, and the upsert pass
    inserts them again. *)
Lemma second_sync_can_change_rows :
  (exists s1 w1 s2 w2,
     sync_first_page env_upsert_begin_fails 1 10 5 w_abc = Returns s1 w1 /\
     sync_first_page env_upsert_begin_fails 1 10 5 w1 = Returns s2 w2 /\
     workouts (db w1) !! "D" = None /\
     workouts (db w2) !! "D" = Some (Mappers.to_workout_row (workout "D")) /\
     sets (db w1) !! "B:1:0" = None /\
     sr_exercise_title <$> sets (db w2) !! "B:1:0" = Some "Bench Press") /\
  (exists s1 w1 s2 w2 del wd,
     sync_first_page env_short_then_sets 1 10 5 w_empty = Returns s1 w1 /\
     sync_first_page env_short_then_sets 1 10 5 w1 = Returns s2 w2 /\
     workouts_deleted s2 = 1 /\ sets_inserted s2 = 2 /\
     enum_from env_short_then_sets 5 1 ∅ = Some ({["W1"]}, 1) /\
     reconcile env_short_then_sets {["W1"]} (add_logs (list_reqs 1 1) w1)
       = Returns del wd /\
     size (sets (db w1)) = 2 /\
     size (sets (db wd)) = 0 /\
     workouts (db wd) !! "W2" = None /\
     size (sets (db w2)) = 2).
Proof.
  split.
  - eexists _, _, _, _. split; [vm_compute; reflexivity|].
    split; [vm_compute; reflexivity|]. repeat split; vm_compute; reflexivity.
  - eexists _, _, _, _, _, _. split; [vm_compute; reflexivity|].
    split; [vm_compute; reflexivity|]. split; [vm_compute; reflexivity|].
    split; [vm_compute; reflexivity|]. split; [vm_compute; reflexivity|].
    split; [vm_compute; reflexivity|]. repeat split; vm_compute; reflexivity.
Qed.
